(** * Point-cloud completion networks: a shallow embedding of the forward pass

    The two Python scripts [convert_pcn_to_coreml.py] and
    [create_pcn_model.py] define two PointNet-style completion networks
    with PyTorch: [SimplePCN] (per-point [nn.Linear] encoder) and
    [PointCloudCompletionNet] (per-point [nn.Conv1d] encoder with kernel
    size 1).  This file embeds the tensor operations the two [forward]
    methods call, the module constructors, the demonstration
    initialisation, and proves the properties the specification states
    about them, and further properties of the same code.

    Numbers are real numbers: the embedding is the exact-arithmetic
    semantics of the networks.  A tensor is its shape, its strides (the
    memory layout, which [Tensor.view] inspects) and its entries in the
    row-major order of their indices.  A failing PyTorch check is a
    [Raise]. *)

From Stdlib Require Import Reals Lra Lia List Arith PeanoNat Bool Permutation.
Import ListNotations.

(* ================================================================== *)
(** * Part I.  The embedding *)
(* ================================================================== *)

(** ** Exceptions *)

(** The Python exception classes the tensor operations raise. *)
Inductive PyExc : Type :=
| RuntimeError
| IndexError
| ValueError.

(** The checks of the tensor library that the two forward passes can
    trip, one constructor per check, with the message PyTorch prints. *)
Inductive TorchError : Type :=
| tuple_index        (* tuple index out of range (shape[i]) *)
| view_size          (* shape '[...]' is invalid for input of size n *)
| view_stride        (* view size is not compatible with input tensor's size and stride *)
| view_ambiguous     (* cannot reshape tensor of 0 elements ... -1 ... ambiguous *)
| view_infer_twice   (* only one dimension can be inferred *)
| matmul_shape       (* mat1 and mat2 shapes cannot be multiplied *)
| bias_shape         (* the size of tensor a must match the size of tensor b *)
| bn_rank            (* expected 2D or 3D input *)
| bn_batch_size      (* Expected more than 1 value per channel when training *)
| bn_channels        (* running_mean should contain C elements not C' *)
| dim_range          (* Dimension out of range *)
| reduce_empty       (* max(): Expected reduction dim d to have non-zero size *)
| conv_rank          (* Expected 2D (unbatched) or 3D (batched) input to conv1d *)
| conv_channels      (* expected input to have C channels, but got C' channels *)
| conv_kernel_size.  (* Kernel size can't be greater than actual input size *)

Definition exception_class (e : TorchError) : PyExc :=
  match e with
  | tuple_index | dim_range | reduce_empty => IndexError
  | bn_rank | bn_batch_size => ValueError
  | _ => RuntimeError
  end.

Inductive result (A : Type) : Type :=
| Ok (a : A)
| Raise (e : TorchError).

Arguments Ok {A} a.
Arguments Raise {A} e.

Definition bind {A B : Type} (r : result A) (k : A -> result B) : result B :=
  match r with
  | Ok a => k a
  | Raise e => Raise e
  end.

Notation "x <- e ;; k" := (bind e (fun x => k))
  (at level 61, e at next level, right associativity).

(** ** Lists as rows of numbers *)

(** [chunks k n l]: the first [n] consecutive blocks of [k] entries of [l]. *)
Fixpoint chunks {A : Type} (k n : nat) (l : list A) : list (list A) :=
  match n with
  | O => []
  | S n' => firstn k l :: chunks k n' (skipn k l)
  end.

Definition zip_with {A B C : Type} (f : A -> B -> C) (u : list A) (v : list B)
  : list C :=
  map (fun p => f (fst p) (snd p)) (combine u v).

Definition sum (l : list R) : R := fold_right Rplus 0%R l.

Definition dot (u v : list R) : R := sum (zip_with Rmult u v).

(** Column [j] of a list of rows. *)
Definition column (j : nat) (rows : list (list R)) : list R :=
  map (fun r => nth j r 0%R) rows.

(** The [ncols] columns of a list of rows: the transposed matrix. *)
Definition columns (ncols : nat) (rows : list (list R)) : list (list R) :=
  map (fun j => column j rows) (seq 0 ncols).

(** Entry-wise maximum of the rows (of the first row and, in turn, each
    later one); the empty row when there is no row. *)
Definition rows_max (rows : list (list R)) : list R :=
  match rows with
  | [] => []
  | r :: rs => fold_left (zip_with Rmax) rs r
  end.

(** ** Tensors *)

Definition numel (s : list nat) : nat := fold_right Nat.mul 1 s.

(** The strides of a freshly allocated (contiguous) tensor of sizes [s]:
    the last one is 1, every other one is the next stride times the next
    size, a size 0 counting as 1. *)
Fixpoint contiguous_strides (s : list nat) : list nat :=
  match s with
  | [] => []
  | _ :: rest =>
      fold_right (fun n acc => Nat.max n 1 * acc) 1 rest :: contiguous_strides rest
  end.

(** [data] lists the entries in the row-major order of their indices,
    whatever the layout; [strides] is the layout: the distance in the
    storage between two entries whose indices differ by one in a
    dimension. *)
Record Tensor : Type := mkStrided {
  shape : list nat;
  strides : list nat;
  data : list R
}.

(** A contiguous tensor, as every allocating operation returns it. *)
Abbreviation mkTensor s d := (mkStrided s (contiguous_strides s) d).

(** The invariant of a tensor: as many entries as its shape says. *)
Definition wf_tensor (t : Tensor) : Prop :=
  length (data t) = numel (shape t).

Definition zeros (s : list nat) : Tensor := mkTensor s (repeat 0%R (numel s)).
Definition ones (s : list nat) : Tensor := mkTensor s (repeat 1%R (numel s)).

(** [t.shape[i]] *)
Definition shape_at (t : Tensor) (i : nat) : result nat :=
  match nth_error (shape t) i with
  | Some n => Ok n
  | None => Raise tuple_index
  end.

(** Row-major offset of a multi-index, [None] when an index is out of
    range or the number of indices is not the rank. *)
Fixpoint offset (s idx : list nat) : option nat :=
  match s, idx with
  | [], [] => Some 0
  | n :: s', i :: idx' =>
      if i <? n then
        match offset s' idx' with
        | Some o => Some (i * numel s' + o)
        | None => None
        end
      else None
  | _, _ => None
  end.

(** [t[i0, i1, ...]] with a full index. *)
Definition get (t : Tensor) (idx : list nat) : option R :=
  match offset (shape t) idx with
  | Some o => nth_error (data t) o
  | None => None
  end.

(** *** [Tensor.view]

    A requested size is [Some n] or [None] for [-1].  The sizes of the
    view follow [infer_size] of the tensor library, its strides
    [computeStride]: a view shares the storage of the tensor, and there
    is one only if the entries can be reached with the new sizes by
    strides. *)
Definition known_size (dims : list (option nat)) : nat :=
  fold_right (fun d acc => match d with Some n => n * acc | None => acc end)
    1 dims.

Definition inferred_count (dims : list (option nat)) : nat :=
  length (filter (fun d => match d with None => true | Some _ => false end) dims).

Definition fill_dims (inferred : nat) (dims : list (option nat)) : list nat :=
  map (fun d => match d with Some n => n | None => inferred end) dims.

(** The sizes of the view, or the error of the size rule. *)
Definition infer_size (n : nat) (dims : list (option nat)) : result (list nat) :=
  let k := known_size dims in
  match inferred_count dims with
  | 0 =>
      if n =? k then Ok (fill_dims 0 dims)
      else Raise view_size
  | 1 =>
      if k =? 0 then
        (if n =? 0 then Raise view_ambiguous else Raise view_size)
      else if n mod k =? 0 then Ok (fill_dims (n / k) dims)
      else Raise view_size
  | _ => Raise view_infer_twice
  end.

(** The strides of the view are [computeStride] of the tensor library.
    The dimensions of the tensor are read from the last to the first and
    gathered in chunks: a dimension joins the chunk of the one after it
    when its stride is the chunk's extent (or its size is 1).  At the end
    of every chunk the inner loop, [fill_view], gives strides to the
    dimensions of the view, from the last one on, that make up the
    chunk's number of entries.

    [fill_view base tensor_numel view_numel view_rev newstride] returns
    the number of entries covered, the dimensions of the view that are
    left and the strides found so far. *)
Fixpoint fill_view (base tensor_numel view_numel : nat)
  (view_rev newstride : list nat) : nat * list nat * list nat :=
  match view_rev with
  | v :: rest =>
      if (view_numel <? tensor_numel) || (v =? 1) then
        fill_view base tensor_numel (view_numel * v) rest
          ((view_numel * base) :: newstride)
      else (view_numel, view_rev, newstride)
  | [] => (view_numel, [], newstride)
  end.

(** [old_rev]: the (size, stride) pairs of the dimensions not read yet,
    the last one first. *)
Fixpoint view_chunks (old_rev : list (nat * nat)) (base tensor_numel : nat)
  (view_rev newstride : list nat) : option (list nat) :=
  match old_rev with
  | [] =>
      match view_rev with
      | [] => Some newstride
      | _ :: _ => None
      end
  | (size, _) :: before =>
      let tensor_numel := tensor_numel * size in
      let chunk_ends :=
        match before with
        | [] => true
        | (size', stride') :: _ =>
            negb (size' =? 1) && negb (stride' =? tensor_numel * base)
        end in
      if chunk_ends then
        let '(view_numel, view_rev', newstride') :=
          fill_view base tensor_numel 1 view_rev newstride in
        if negb (view_numel =? tensor_numel) then None
        else
          match before with
          | [] => view_chunks before base tensor_numel view_rev' newstride'
          | (_, stride') :: _ => view_chunks before stride' 1 view_rev' newstride'
          end
      else view_chunks before base tensor_numel view_rev newstride
  end.

(** The (size, stride) pairs of a tensor; a stride that the list of
    strides lacks reads as 0. *)
Definition sized_strides (oldshape oldstride : list nat) : list (nat * nat) :=
  map (fun i => (nth i oldshape 0, nth i oldstride 0)) (seq 0 (length oldshape)).

(** [computeStride(oldshape, oldstride, newshape)], [None] when the
    storage cannot be read with the new sizes.  A tensor of rank 0 is
    viewed with strides 1.  A tensor without entries keeps its strides
    when its sizes are kept and gets contiguous ones otherwise.  The
    first chunk starts at the last dimension, whose stride is its base
    stride. *)
Definition compute_stride (oldshape oldstride newshape : list nat)
  : option (list nat) :=
  match oldshape with
  | [] => Some (repeat 1 (length newshape))
  | _ :: _ =>
      if numel oldshape =? 0 then
        if list_eq_dec Nat.eq_dec oldshape newshape then Some oldstride
        else Some (contiguous_strides newshape)
      else
        view_chunks (rev (sized_strides oldshape oldstride))
          (nth (length oldshape - 1) oldstride 0) 1 (rev newshape) []
  end.

(** [t.view(dims)]: the size check comes first, then the layout check. *)
Definition view (t : Tensor) (dims : list (option nat)) : result Tensor :=
  newshape <- infer_size (numel (shape t)) dims ;;
  match compute_stride (shape t) (strides t) newshape with
  | Some newstride => Ok (mkStrided newshape newstride (data t))
  | None => Raise view_stride
  end.

(** *** [Tensor.squeeze(-1)]: drop the last dimension, and its stride,
    when it is 1. *)
Definition squeeze_last (t : Tensor) : Tensor :=
  match rev (shape t) with
  | 1 :: rest => mkStrided (rev rest) (removelast (strides t)) (data t)
  | _ => t
  end.

(** *** [Tensor.transpose(1, 2)]

    For a shape [b; n; d] ++ post the entries are cells of [numel post]
    numbers; in every one of the [b] blocks the [n] x [d] matrix of cells
    is transposed.  The storage is shared: the strides of the two
    dimensions are exchanged. *)
Definition transpose_cells (n d : nat) (cells : list (list R)) : list R :=
  let rows := chunks d n cells in
  concat (map (fun j => concat (map (fun row => nth j row []) rows)) (seq 0 d)).

Definition swap_1_2 (l : list nat) : list nat :=
  match l with
  | s0 :: s1 :: s2 :: rest => s0 :: s2 :: s1 :: rest
  | _ => l
  end.

Definition transpose_1_2 (t : Tensor) : result Tensor :=
  match shape t with
  | b :: n :: d :: post =>
      let inner := numel post in
      Ok (mkStrided (b :: d :: n :: post) (swap_1_2 (strides t))
            (concat (map (fun block =>
                            transpose_cells n d (chunks inner (n * d) block))
                         (chunks (n * d * inner) b (data t)))))
  | _ => Raise dim_range
  end.

(** *** [torch.max(t, dim, keepdim)], the values only

    Both forward passes discard the indices. *)
Module torch.

Definition max (t : Tensor) (dim : nat) (keepdim : bool) : result Tensor :=
  if length (shape t) <=? dim then Raise dim_range
  else
    let pre := firstn dim (shape t) in
    let n := nth dim (shape t) 0 in
    let post := skipn (S dim) (shape t) in
    if n =? 0 then Raise reduce_empty
    else
      Ok (mkTensor (pre ++ (if keepdim then [1] else []) ++ post)
            (concat (map (fun block => rows_max (chunks (numel post) n block))
                         (chunks (n * numel post) (numel pre) (data t))))).

End torch.

(** *** [F.relu]: entry by entry, in the layout of its argument. *)
Definition relu (t : Tensor) : Tensor :=
  mkStrided (shape t) (strides t) (map (Rmax 0) (data t)).

(** ** The random generator

    [torch]'s default generator is a stream of uniform draws in
    the unit interval and a position in it; filling a tensor consumes one
    draw per entry. *)
Record Generator : Type := mkGenerator {
  draws : nat -> R;
  position : nat
}.

(** [tensor.uniform_(a, b)] *)
Definition uniform_ (t : Tensor) (a b : R) (g : Generator) : Tensor * Generator :=
  let n := numel (shape t) in
  (mkTensor (shape t)
     (map (fun i => (draws g (position g + i) * (b - a) + a)%R) (seq 0 n)),
   mkGenerator (draws g) (position g + n)).

(** [torch.empty]: storage that the initialisers below overwrite. *)
Definition empty (s : list nat) : Tensor := zeros s.

Module nn.

(** ** [torch.nn.init] *)
Module init.

(** [_calculate_fan_in_and_fan_out]; only called on weights of rank 2
    (linear) and 3 (convolution). *)
Definition calculate_fan_in_and_fan_out (s : list nat) : nat * nat :=
  match s with
  | o :: i :: rest => (i * numel rest, o * numel rest)
  | _ => (0, 0)
  end.

(** [calculate_gain('leaky_relu', a)] *)
Definition calculate_gain (a : R) : R := sqrt (2 / (1 + a * a)).

(** [kaiming_uniform_(tensor, a)], mode [fan_in], leaky-relu gain. *)
Definition kaiming_uniform_ (t : Tensor) (a : R) (g : Generator)
  : Tensor * Generator :=
  if existsb (Nat.eqb 0) (shape t) then (t, g)
  else
    let fan := fst (calculate_fan_in_and_fan_out (shape t)) in
    let std := (calculate_gain a / sqrt (INR fan))%R in
    let bound := (sqrt 3 * std)%R in
    uniform_ t (- bound) bound g.

(** [xavier_uniform_(tensor)], gain 1. *)
Definition xavier_bound (s : list nat) : R :=
  let (fan_in, fan_out) := calculate_fan_in_and_fan_out s in
  let std := (1 * sqrt (2 / INR (fan_in + fan_out)))%R in
  (sqrt 3 * std)%R.

Definition xavier_uniform_ (t : Tensor) (g : Generator) : Tensor * Generator :=
  let a := xavier_bound (shape t) in
  uniform_ t (- a) a g.

Definition zeros_ (t : Tensor) : Tensor := zeros (shape t).

End init.

(** ** [nn.Linear] *)
Module Linear.

Record t : Type := mk {
  in_features : nat;
  out_features : nat;
  weight : Tensor;      (* (out_features, in_features) *)
  bias : Tensor         (* (out_features) *)
}.

(** [reset_parameters]: Kaiming-uniform weight, uniform bias. *)
Definition __init__ (in_features out_features : nat) (g : Generator)
  : t * Generator :=
  let (w, g1) := init.kaiming_uniform_ (empty [out_features; in_features])
                   (sqrt 5) g in
  let fan_in := fst (init.calculate_fan_in_and_fan_out (shape w)) in
  let bound := if 0 <? fan_in then (1 / sqrt (INR fan_in))%R else 0%R in
  let (b, g2) := uniform_ (empty [out_features]) (- bound) bound g1 in
  (mk in_features out_features w b, g2).

(** One input row [x]: the entries [x . w_o + b_o]. *)
Definition affine_row (W : list (list R)) (b : list R) (x : list R) : list R :=
  zip_with (fun w bo => (dot x w + bo)%R) W b.

(** [F.linear(input, weight, bias)] *)
Definition forward (l : t) (input : Tensor) : result Tensor :=
  match shape (weight l), rev (shape input) with
  | [o; i], k :: lead_rev =>
      if negb (k =? i) then Raise matmul_shape
      else if negb (numel (shape (bias l)) =? o) then Raise bias_shape
      else
        let lead := rev lead_rev in
        Ok (mkTensor (lead ++ [o])
              (concat (map (affine_row (chunks i o (data (weight l)))
                                       (data (bias l)))
                           (chunks k (numel lead) (data input)))))
  | _, _ => Raise matmul_shape
  end.

End Linear.

(** ** [nn.BatchNorm1d] (affine, tracking running statistics) *)
Module BatchNorm1d.

Record t : Type := mk {
  num_features : nat;
  eps : R;
  momentum : R;
  weight : Tensor;         (* the learned scale *)
  bias : Tensor;           (* the learned shift *)
  running_mean : Tensor;
  running_var : Tensor;
  training : bool
}.

Definition __init__ (num_features : nat) : t :=
  mk num_features (1 / 100000) (1 / 10)
     (ones [num_features]) (zeros [num_features])
     (zeros [num_features]) (ones [num_features])
     true.

(** The constants of one channel that the normalisation uses. *)
Record Channel : Type := mkChannel {
  mu : R;
  var : R;
  gamma : R;
  beta : R
}.

Definition normalize (eps : R) (c : Channel) (x : R) : R :=
  ((x - mu c) / sqrt (var c + eps) * gamma c + beta c)%R.

Definition batch_mean (vs : list R) : R := (sum vs / INR (length vs))%R.

(** The biased variance, the one the training-mode output uses. *)
Definition batch_var (vs : list R) : R :=
  let m := batch_mean vs in
  (sum (map (fun v => (v - m) * (v - m)) vs) / INR (length vs))%R.

(** The constants of the [c] channels.  In evaluation mode they are the
    stored running statistics; in training mode the statistics of the
    values [values] the current input has in each channel. *)
Definition channels (bn : t) (c : nat) (values : list (list R)) : list Channel :=
  map (fun j =>
         mkChannel
           (if training bn then batch_mean (nth j values [])
            else nth j (data (running_mean bn)) 0%R)
           (if training bn then batch_var (nth j values [])
            else nth j (data (running_var bn)) 0%R)
           (nth j (data (weight bn)) 0%R)
           (nth j (data (bias bn)) 0%R))
      (seq 0 c).

Definition has_channels (bn : t) (c : nat) : bool :=
  (numel (shape (running_mean bn)) =? c) && (numel (shape (running_var bn)) =? c)
  && (numel (shape (weight bn)) =? c) && (numel (shape (bias bn)) =? c).

(** The output of [forward].  In training mode the call also moves the
    running statistics towards the batch statistics; both scripts call
    [eval()] before the first forward pass, and that update is not part
    of this function. *)
Definition forward (bn : t) (input : Tensor) : result Tensor :=
  match shape input with
  | [n; c] =>
      if training bn && (n =? 1) then Raise bn_batch_size
      else if negb (has_channels bn c) then Raise bn_channels
      else
        let rows := chunks c n (data input) in
        let chans := channels bn c (columns c rows) in
        Ok (mkTensor [n; c]
              (concat (map (fun row => zip_with (normalize (eps bn)) chans row)
                           rows)))
  | [n; c; l] =>
      if training bn && (n * l =? 1) then Raise bn_batch_size
      else if negb (has_channels bn c) then Raise bn_channels
      else
        let blocks := map (chunks l c) (chunks (c * l) n (data input)) in
        let values :=
          map (fun j => concat (map (fun lines => nth j lines []) blocks))
              (seq 0 c) in
        let chans := channels bn c values in
        Ok (mkTensor [n; c; l]
              (concat (map (fun lines =>
                              concat (zip_with
                                        (fun ch line => map (normalize (eps bn) ch) line)
                                        chans lines))
                           blocks)))
  | _ => Raise bn_rank
  end.

Definition eval (bn : t) : t :=
  mk (num_features bn) (eps bn) (momentum bn) (weight bn) (bias bn)
     (running_mean bn) (running_var bn) false.

End BatchNorm1d.

(** ** [nn.Conv1d] (stride 1, no padding, no dilation, one group) *)
Module Conv1d.

Record t : Type := mk {
  in_channels : nat;
  out_channels : nat;
  kernel_size : nat;
  weight : Tensor;      (* (out_channels, in_channels, kernel_size) *)
  bias : Tensor         (* (out_channels) *)
}.

Definition __init__ (in_channels out_channels kernel_size : nat) (g : Generator)
  : t * Generator :=
  let (w, g1) := init.kaiming_uniform_
                   (empty [out_channels; in_channels; kernel_size])
                   (sqrt 5) g in
  let fan_in := fst (init.calculate_fan_in_and_fan_out (shape w)) in
  let bound := if 0 <? fan_in then (1 / sqrt (INR fan_in))%R else 0%R in
  let (b, g2) := uniform_ (empty [out_channels]) (- bound) bound g1 in
  (mk in_channels out_channels kernel_size w b, g2).

(** The output lines of one batch element.  [lines] are the input
    channels; a filter has one kernel row per input channel; output
    position [p] of an output channel is the sum over the input channels
    of the kernel row against the window at [p], plus the bias. *)
Definition conv_lines (k : nat) (filters : list (list (list R)))
  (biases : list R) (lout : nat) (lines : list (list R)) : list (list R) :=
  zip_with
    (fun filt bo =>
       map (fun p =>
              (sum (zip_with (fun krow line => dot krow (firstn k (skipn p line)))
                             filt lines) + bo)%R)
           (seq 0 lout))
    filters biases.

Definition conv_batch (cv : t) (o i k : nat) (b c l : nat) (d : list R)
  : result (list R) :=
  if negb (c =? i) then Raise conv_channels
  else if negb (numel (shape (bias cv)) =? o) then Raise bias_shape
  else if l <? k then Raise conv_kernel_size
  else
    let filters := map (chunks k i) (chunks (i * k) o (data (weight cv))) in
    Ok (concat (map (fun block =>
                       concat (conv_lines k filters (data (bias cv)) (l - k + 1)
                                 (chunks l c block)))
                    (chunks (c * l) b d))).

(** [F.conv1d(input, weight, bias)] *)
Definition forward (cv : t) (input : Tensor) : result Tensor :=
  match shape (weight cv) with
  | [o; i; k] =>
      match shape input with
      | [c; l] =>
          d <- conv_batch cv o i k 1 c l (data input) ;;
          Ok (mkTensor [o; l - k + 1] d)
      | [b; c; l] =>
          d <- conv_batch cv o i k b c l (data input) ;;
          Ok (mkTensor [b; o; l - k + 1] d)
      | _ => Raise conv_rank
      end
  | _ => Raise conv_rank
  end.

End Conv1d.

(** ** Layers and [nn.Sequential]

    The layers [nn.Sequential] is given in the source: a closed set. *)
Inductive Layer : Type :=
| LinearLayer (l : Linear.t)
| BatchNormLayer (bn : BatchNorm1d.t)
| ReLULayer.

Definition Layer_forward (m : Layer) (x : Tensor) : result Tensor :=
  match m with
  | LinearLayer l => Linear.forward l x
  | BatchNormLayer bn => BatchNorm1d.forward bn x
  | ReLULayer => Ok (relu x)
  end.

Definition Layer_eval (m : Layer) : Layer :=
  match m with
  | BatchNormLayer bn => BatchNormLayer (BatchNorm1d.eval bn)
  | other => other
  end.

Module Sequential.

Definition t : Type := list Layer.

(** [nn.Sequential(layer, ...)]: the constructor stores the layers and
    checks nothing. *)
Definition __init__ (layers : list Layer) : t := layers.

(** [forward]: every layer in turn. *)
Fixpoint forward (layers : t) (x : Tensor) : result Tensor :=
  match layers with
  | [] => Ok x
  | m :: rest => y <- Layer_forward m x ;; forward rest y
  end.

Definition eval (layers : t) : t := map Layer_eval layers.

End Sequential.

End nn.

(** ** [convert_pcn_to_coreml.py] *)
Module convert_pcn_to_coreml.

Module SimplePCN.

Record t : Type := mk {
  input_points : nat;
  output_points : nat;
  feature_dim : nat;
  encoder : nn.Sequential.t;
  decoder : nn.Sequential.t
}.

Definition __init__ (input_points output_points feature_dim : nat)
  (g : Generator) : t * Generator :=
  (* Encoder: point-wise feature extraction *)
  let (e1, g) := nn.Linear.__init__ 3 128 g in
  let (e2, g) := nn.Linear.__init__ 128 256 g in
  let (e3, g) := nn.Linear.__init__ 256 feature_dim g in
  let encoder :=
    nn.Sequential.__init__
      [ nn.LinearLayer e1; nn.BatchNormLayer (nn.BatchNorm1d.__init__ 128);
        nn.ReLULayer;
        nn.LinearLayer e2; nn.BatchNormLayer (nn.BatchNorm1d.__init__ 256);
        nn.ReLULayer;
        nn.LinearLayer e3;
        nn.BatchNormLayer (nn.BatchNorm1d.__init__ feature_dim);
        nn.ReLULayer ] in
  (* Decoder: generate completed point cloud *)
  let (d1, g) := nn.Linear.__init__ feature_dim 1024 g in
  let (d2, g) := nn.Linear.__init__ 1024 2048 g in
  let (d3, g) := nn.Linear.__init__ 2048 (output_points * 3) g in
  let decoder :=
    nn.Sequential.__init__
      [ nn.LinearLayer d1; nn.BatchNormLayer (nn.BatchNorm1d.__init__ 1024);
        nn.ReLULayer;
        nn.LinearLayer d2; nn.BatchNormLayer (nn.BatchNorm1d.__init__ 2048);
        nn.ReLULayer;
        nn.LinearLayer d3 ] in
  (mk input_points output_points feature_dim encoder decoder, g).

Definition forward (self : t) (partial_cloud : Tensor) : result Tensor :=
  batch_size <- shape_at partial_cloud 0 ;;
  num_points <- shape_at partial_cloud 1 ;;
  (* (batch, points, 3) -> (batch*points, 3) *)
  x <- view partial_cloud [None; Some 3] ;;
  (* point-wise features: (batch*points, feature_dim) *)
  features <- nn.Sequential.forward (encoder self) x ;;
  features <- view features
                [Some batch_size; Some num_points; Some (feature_dim self)] ;;
  (* global max pooling: (batch, feature_dim) *)
  global_feature <- torch.max features 1 false ;;
  (* (batch, output_points*3) *)
  completed <- nn.Sequential.forward (decoder self) global_feature ;;
  view completed [Some batch_size; Some (output_points self); Some 3].

Definition eval (self : t) : t :=
  mk (input_points self) (output_points self) (feature_dim self)
     (nn.Sequential.eval (encoder self)) (nn.Sequential.eval (decoder self)).

End SimplePCN.

(** [create_model()]: the model in evaluation mode, with the weights its
    constructor drew. *)
Definition create_model (g : Generator) : SimplePCN.t * Generator :=
  let (model, g) := SimplePCN.__init__ 1024 2048 512 g in
  (SimplePCN.eval model, g).

End convert_pcn_to_coreml.

(** ** [create_pcn_model.py] *)
Module create_pcn_model.

Module PointCloudEncoder.

Record t : Type := mk {
  conv1 : nn.Conv1d.t;
  conv2 : nn.Conv1d.t;
  conv3 : nn.Conv1d.t;
  bn1 : nn.BatchNorm1d.t;
  bn2 : nn.BatchNorm1d.t;
  bn3 : nn.BatchNorm1d.t
}.

Definition __init__ (input_dim feature_dim : nat) (g : Generator)
  : t * Generator :=
  let (c1, g) := nn.Conv1d.__init__ input_dim 64 1 g in
  let (c2, g) := nn.Conv1d.__init__ 64 128 1 g in
  let (c3, g) := nn.Conv1d.__init__ 128 feature_dim 1 g in
  (mk c1 c2 c3 (nn.BatchNorm1d.__init__ 64) (nn.BatchNorm1d.__init__ 128)
      (nn.BatchNorm1d.__init__ feature_dim), g).

(** [x]: (batch, 3, num_points); the result: (batch, feature_dim, 1). *)
Definition forward (self : t) (x : Tensor) : result Tensor :=
  x <- nn.Conv1d.forward (conv1 self) x ;;
  x <- nn.BatchNorm1d.forward (bn1 self) x ;;
  let x := relu x in
  x <- nn.Conv1d.forward (conv2 self) x ;;
  x <- nn.BatchNorm1d.forward (bn2 self) x ;;
  let x := relu x in
  x <- nn.Conv1d.forward (conv3 self) x ;;
  x <- nn.BatchNorm1d.forward (bn3 self) x ;;
  let x := relu x in
  (* global max pooling *)
  torch.max x 2 true.

Definition eval (self : t) : t :=
  mk (conv1 self) (conv2 self) (conv3 self)
     (nn.BatchNorm1d.eval (bn1 self)) (nn.BatchNorm1d.eval (bn2 self))
     (nn.BatchNorm1d.eval (bn3 self)).

End PointCloudEncoder.

Module PointCloudDecoder.

Record t : Type := mk {
  output_points : nat;
  fc1 : nn.Linear.t;
  fc2 : nn.Linear.t;
  fc3 : nn.Linear.t;
  bn1 : nn.BatchNorm1d.t;
  bn2 : nn.BatchNorm1d.t
}.

Definition __init__ (feature_dim output_points : nat) (g : Generator)
  : t * Generator :=
  let (f1, g) := nn.Linear.__init__ feature_dim 2048 g in
  let (f2, g) := nn.Linear.__init__ 2048 4096 g in
  let (f3, g) := nn.Linear.__init__ 4096 (output_points * 3) g in
  (mk output_points f1 f2 f3
      (nn.BatchNorm1d.__init__ 2048) (nn.BatchNorm1d.__init__ 4096), g).

(** [x]: (batch, feature_dim, 1); the result: (batch, output_points, 3). *)
Definition forward (self : t) (x : Tensor) : result Tensor :=
  let x := squeeze_last x in
  x <- nn.Linear.forward (fc1 self) x ;;
  x <- nn.BatchNorm1d.forward (bn1 self) x ;;
  let x := relu x in
  x <- nn.Linear.forward (fc2 self) x ;;
  x <- nn.BatchNorm1d.forward (bn2 self) x ;;
  let x := relu x in
  x <- nn.Linear.forward (fc3 self) x ;;
  (* reshape to point cloud *)
  view x [None; Some (output_points self); Some 3].

Definition eval (self : t) : t :=
  mk (output_points self) (fc1 self) (fc2 self) (fc3 self)
     (nn.BatchNorm1d.eval (bn1 self)) (nn.BatchNorm1d.eval (bn2 self)).

End PointCloudDecoder.

Module PointCloudCompletionNet.

Record t : Type := mk {
  input_points : nat;
  output_points : nat;
  encoder : PointCloudEncoder.t;
  decoder : PointCloudDecoder.t
}.

Definition __init__ (input_points output_points : nat) (g : Generator)
  : t * Generator :=
  let (enc, g) := PointCloudEncoder.__init__ 3 1024 g in
  let (dec, g) := PointCloudDecoder.__init__ 1024 output_points g in
  (mk input_points output_points enc dec, g).

(** [x]: (batch, input_points, 3) *)
Definition forward (self : t) (x : Tensor) : result Tensor :=
  x <- transpose_1_2 x ;;
  features <- PointCloudEncoder.forward (encoder self) x ;;
  PointCloudDecoder.forward (decoder self) features.

Definition eval (self : t) : t :=
  mk (input_points self) (output_points self)
     (PointCloudEncoder.eval (encoder self))
     (PointCloudDecoder.eval (decoder self)).

End PointCloudCompletionNet.

(** [init_weights(m)] when [m] is an [nn.Linear]. *)
Definition init_weights_Linear (m : nn.Linear.t) (g : Generator)
  : nn.Linear.t * Generator :=
  let (w, g) := nn.init.xavier_uniform_ (nn.Linear.weight m) g in
  (nn.Linear.mk (nn.Linear.in_features m) (nn.Linear.out_features m) w
     (nn.init.zeros_ (nn.Linear.bias m)), g).

(** [init_weights(m)] when [m] is an [nn.Conv1d]. *)
Definition init_weights_Conv1d (m : nn.Conv1d.t) (g : Generator)
  : nn.Conv1d.t * Generator :=
  let (w, g) := nn.init.xavier_uniform_ (nn.Conv1d.weight m) g in
  (nn.Conv1d.mk (nn.Conv1d.in_channels m) (nn.Conv1d.out_channels m)
     (nn.Conv1d.kernel_size m) w (nn.init.zeros_ (nn.Conv1d.bias m)), g).

(** [init_weights(m)] on every other module (the normalisations, the
    activations, the containers) does nothing.  [model.apply(init_weights)]
    visits the children in the order they were registered. *)
Definition apply_init_weights (model : PointCloudCompletionNet.t) (g : Generator)
  : PointCloudCompletionNet.t * Generator :=
  let enc := PointCloudCompletionNet.encoder model in
  let dec := PointCloudCompletionNet.decoder model in
  let (c1, g) := init_weights_Conv1d (PointCloudEncoder.conv1 enc) g in
  let (c2, g) := init_weights_Conv1d (PointCloudEncoder.conv2 enc) g in
  let (c3, g) := init_weights_Conv1d (PointCloudEncoder.conv3 enc) g in
  let (f1, g) := init_weights_Linear (PointCloudDecoder.fc1 dec) g in
  let (f2, g) := init_weights_Linear (PointCloudDecoder.fc2 dec) g in
  let (f3, g) := init_weights_Linear (PointCloudDecoder.fc3 dec) g in
  (PointCloudCompletionNet.mk
     (PointCloudCompletionNet.input_points model)
     (PointCloudCompletionNet.output_points model)
     (PointCloudEncoder.mk c1 c2 c3 (PointCloudEncoder.bn1 enc)
        (PointCloudEncoder.bn2 enc) (PointCloudEncoder.bn3 enc))
     (PointCloudDecoder.mk (PointCloudDecoder.output_points dec) f1 f2 f3
        (PointCloudDecoder.bn1 dec) (PointCloudDecoder.bn2 dec)),
   g).

(** The module-level statements that create and initialise [model]. *)
Definition model (g : Generator) : PointCloudCompletionNet.t * Generator :=
  let (m, g) := PointCloudCompletionNet.__init__ 1024 2048 g in
  let m := PointCloudCompletionNet.eval m in
  apply_init_weights m g.

End create_pcn_model.

(* ================================================================== *)
(** * Part II.  The vocabulary of the specification *)
(* ================================================================== *)

Import nn.
Import convert_pcn_to_coreml create_pcn_model.

(** ** Models and [complete] *)

(** The two network variants behind one [complete] operation. *)
Inductive Model : Type :=
| SimpleModel (m : SimplePCN.t)
| ConvModel (m : PointCloudCompletionNet.t).

Definition complete (model : Model) (partial_cloud : Tensor) : result Tensor :=
  match model with
  | SimpleModel m => SimplePCN.forward m partial_cloud
  | ConvModel m => PointCloudCompletionNet.forward m partial_cloud
  end.

(** OUTPUT_COUNT *)
Definition output_count (model : Model) : nat :=
  match model with
  | SimpleModel m => SimplePCN.output_points m
  | ConvModel m => PointCloudCompletionNet.output_points m
  end.

(** ** Well-shaped parameters *)

Definition has_shape (t : Tensor) (s : list nat) : Prop :=
  shape t = s /\ length (data t) = numel s.

Definition wf_Linear (l : Linear.t) (i o : nat) : Prop :=
  Linear.in_features l = i /\ Linear.out_features l = o /\
  has_shape (Linear.weight l) [o; i] /\ has_shape (Linear.bias l) [o].

(** A normalisation step with [c] channels, in evaluation mode. *)
Definition wf_BatchNorm1d (bn : BatchNorm1d.t) (c : nat) : Prop :=
  BatchNorm1d.num_features bn = c /\
  has_shape (BatchNorm1d.weight bn) [c] /\ has_shape (BatchNorm1d.bias bn) [c] /\
  has_shape (BatchNorm1d.running_mean bn) [c] /\
  has_shape (BatchNorm1d.running_var bn) [c] /\
  BatchNorm1d.training bn = false.

(** A convolution of kernel size 1. *)
Definition wf_Conv1d (cv : Conv1d.t) (i o : nat) : Prop :=
  Conv1d.in_channels cv = i /\ Conv1d.out_channels cv = o /\
  Conv1d.kernel_size cv = 1 /\
  has_shape (Conv1d.weight cv) [o; i; 1] /\ has_shape (Conv1d.bias cv) [o].

(** [layer_dims m i o]: layer [m] is well-shaped, takes rows of [i]
    numbers and gives rows of [o] numbers. *)
Inductive layer_dims : Layer -> nat -> nat -> Prop :=
| dims_linear l i o : wf_Linear l i o -> layer_dims (LinearLayer l) i o
| dims_batchnorm bn c : wf_BatchNorm1d bn c -> layer_dims (BatchNormLayer bn) c c
| dims_relu c : layer_dims ReLULayer c c.

(** [chained i layers o]: the layers chain from width [i] to width [o]. *)
Inductive chained : nat -> list Layer -> nat -> Prop :=
| chained_nil i : chained i [] i
| chained_cons m rest i j o :
    layer_dims m i j -> chained j rest o -> chained i (m :: rest) o.

(** The declared widths alone: [Some o] when every layer's declared input
    width is the width reaching it, starting from [i]. *)
Fixpoint declared_chain (i : nat) (layers : list Layer) : option nat :=
  match layers with
  | [] => Some i
  | LinearLayer l :: rest =>
      if Linear.in_features l =? i
      then declared_chain (Linear.out_features l) rest
      else None
  | BatchNormLayer bn :: rest =>
      if BatchNorm1d.num_features bn =? i then declared_chain i rest else None
  | ReLULayer :: rest => declared_chain i rest
  end.

(** One (affine, normalisation, clamp-at-zero) group. *)
Definition block_layers (b : Linear.t * BatchNorm1d.t) : list Layer :=
  [LinearLayer (fst b); BatchNormLayer (snd b); ReLULayer].

Definition PointEncoder_layers (blocks : list (Linear.t * BatchNorm1d.t))
  : list Layer :=
  concat (map block_layers blocks).

Definition PointDecoder_layers (blocks : list (Linear.t * BatchNorm1d.t))
  (final : Linear.t) : list Layer :=
  concat (map block_layers blocks) ++ [LinearLayer final].

(** A valid [SimplePCN]: a non-empty stack of encoder groups from width 3
    to [feature_dim], decoder groups and a final affine layer from
    [feature_dim] to [output_points * 3], every normalisation in
    evaluation mode. *)
Definition valid_SimplePCN (m : SimplePCN.t) : Prop :=
  (exists eblocks,
      eblocks <> [] /\ SimplePCN.encoder m = PointEncoder_layers eblocks) /\
  (exists dblocks final,
      SimplePCN.decoder m = PointDecoder_layers dblocks final) /\
  chained 3 (SimplePCN.encoder m) (SimplePCN.feature_dim m) /\
  chained (SimplePCN.feature_dim m) (SimplePCN.decoder m)
          (SimplePCN.output_points m * 3) /\
  0 < SimplePCN.feature_dim m /\ 0 < SimplePCN.output_points m.

(** The convolutions of the second variant seen as affine layers on one
    point: a kernel of size 1 has one weight per (output, input) pair. *)
Definition conv_as_linear (cv : Conv1d.t) : Linear.t :=
  Linear.mk (Conv1d.in_channels cv) (Conv1d.out_channels cv)
    (mkTensor [Conv1d.out_channels cv; Conv1d.in_channels cv]
       (data (Conv1d.weight cv)))
    (Conv1d.bias cv).

Definition encoder_layers (e : PointCloudEncoder.t) : list Layer :=
  PointEncoder_layers
    [ (conv_as_linear (PointCloudEncoder.conv1 e), PointCloudEncoder.bn1 e);
      (conv_as_linear (PointCloudEncoder.conv2 e), PointCloudEncoder.bn2 e);
      (conv_as_linear (PointCloudEncoder.conv3 e), PointCloudEncoder.bn3 e) ].

Definition decoder_layers (d : PointCloudDecoder.t) : list Layer :=
  PointDecoder_layers
    [ (PointCloudDecoder.fc1 d, PointCloudDecoder.bn1 d);
      (PointCloudDecoder.fc2 d, PointCloudDecoder.bn2 d) ]
    (PointCloudDecoder.fc3 d).

(** A valid [PointCloudCompletionNet] with feature width [f]. *)
Definition valid_PointCloudCompletionNet (m : PointCloudCompletionNet.t) (f : nat)
  : Prop :=
  let e := PointCloudCompletionNet.encoder m in
  let d := PointCloudCompletionNet.decoder m in
  (exists c1 c2,
      wf_Conv1d (PointCloudEncoder.conv1 e) 3 c1 /\
      wf_BatchNorm1d (PointCloudEncoder.bn1 e) c1 /\
      wf_Conv1d (PointCloudEncoder.conv2 e) c1 c2 /\
      wf_BatchNorm1d (PointCloudEncoder.bn2 e) c2 /\
      wf_Conv1d (PointCloudEncoder.conv3 e) c2 f /\
      wf_BatchNorm1d (PointCloudEncoder.bn3 e) f) /\
  chained f (decoder_layers d) (PointCloudCompletionNet.output_points m * 3) /\
  PointCloudDecoder.output_points d = PointCloudCompletionNet.output_points m /\
  0 < f /\ 0 < PointCloudCompletionNet.output_points m.

(** FEATURE_DIM and validity of either variant. *)
Definition valid_model (model : Model) (f : nat) : Prop :=
  match model with
  | SimpleModel m => valid_SimplePCN m /\ SimplePCN.feature_dim m = f
  | ConvModel m => valid_PointCloudCompletionNet m f
  end.

(** ** Memory layout *)

(** The layout of a freshly allocated tensor. *)
Definition is_contiguous (t : Tensor) : Prop :=
  strides t = contiguous_strides (shape t).

(** [t.contiguous()]: the same entries in a fresh tensor. *)
Definition contiguous (t : Tensor) : Tensor := mkTensor (shape t) (data t).

(** The layouts of a (batch, points, 3) tensor of which [view(-1, 3)] can
    list the points without a copy: the clouds lie at a regular distance
    in the storage, the number of points times the distance between two
    points.  With at most one cloud, or at most one point in each cloud,
    every layout will do. *)
Definition viewable_as_rows (x : Tensor) : Prop :=
  match shape x with
  | [b; n; _] =>
      b <= 1 \/ n <= 1 \/ nth 0 (strides x) 0 = n * nth 1 (strides x) 0
  | _ => True
  end.

(** The layouts of its input that a model takes: [SimplePCN.forward]
    views the input as rows of points; [PointCloudCompletionNet.forward]
    transposes it, which every layout allows, and hands it to a
    convolution. *)
Definition accepts_layout (model : Model) (x : Tensor) : Prop :=
  match model with
  | SimpleModel _ => viewable_as_rows x
  | ConvModel _ => True
  end.

(** The (size, stride) pairs of a contiguous tensor, the last dimension
    first, [t] being the stride of the last dimension of [r]; and the
    strides that [fill_view] gives to the dimensions [view_rev] of one
    chunk. *)
Fixpoint rev_pairs (r : list nat) (t : nat) : list (nat * nat) :=
  match r with
  | [] => []
  | a :: r' => (a, t) :: rev_pairs r' (t * a)
  end.

Fixpoint strides_from (base view_numel : nat) (view_rev newstride : list nat)
  : list nat :=
  match view_rev with
  | [] => newstride
  | v :: rest =>
      strides_from base (view_numel * v) rest ((view_numel * base) :: newstride)
  end.

(** ** What one point goes through *)

(** A layer on one row of numbers (evaluation mode). *)
Definition Layer_point (m : Layer) (x : list R) : list R :=
  match m with
  | LinearLayer l =>
      match shape (Linear.weight l) with
      | [o; i] => Linear.affine_row (chunks i o (data (Linear.weight l)))
                    (data (Linear.bias l)) x
      | _ => []
      end
  | BatchNormLayer bn =>
      zip_with (BatchNorm1d.normalize (BatchNorm1d.eps bn))
        (BatchNorm1d.channels bn (length x) []) x
  | ReLULayer => map (Rmax 0) x
  end.

Definition layers_point (layers : list Layer) (x : list R) : list R :=
  fold_left (fun v m => Layer_point m v) layers x.

(** Maximum of a non-empty list of numbers. *)
Definition list_max (l : list R) : R :=
  match l with
  | [] => 0%R
  | x :: xs => fold_left Rmax xs x
  end.

(** The global descriptor of a set of per-point features: channel by
    channel the maximum over the points. *)
Definition pool (f : nat) (features : list (list R)) : list R :=
  map (fun j => list_max (column j features)) (seq 0 f).

(** The per-point encoder and the decoder of a model as functions on rows. *)
Definition point_feature (model : Model) : list R -> list R :=
  match model with
  | SimpleModel m => layers_point (SimplePCN.encoder m)
  | ConvModel m => layers_point (encoder_layers (PointCloudCompletionNet.encoder m))
  end.

Definition decode_descriptor (model : Model) : list R -> list R :=
  match model with
  | SimpleModel m => layers_point (SimplePCN.decoder m)
  | ConvModel m => layers_point (decoder_layers (PointCloudCompletionNet.decoder m))
  end.

(** The points of a (batch, points, d) tensor: one list of points for each
    batch element. *)
Definition clouds (t : Tensor) : list (list (list R)) :=
  match shape t with
  | [b; n; d] => map (chunks d n) (chunks (n * d) b (data t))
  | _ => []
  end.

(** Two clouds hold the same points: same points, any order, any
    multiplicity. *)
Definition same_points (c c' : list (list R)) : Prop :=
  forall p, In p c <-> In p c'.

(** ** The intermediate values of the forward passes *)

(** [global_feature] of [SimplePCN.forward]. *)
Definition SimplePCN_global_feature (self : SimplePCN.t) (partial_cloud : Tensor)
  : result Tensor :=
  batch_size <- shape_at partial_cloud 0 ;;
  num_points <- shape_at partial_cloud 1 ;;
  x <- view partial_cloud [None; Some 3] ;;
  features <- Sequential.forward (SimplePCN.encoder self) x ;;
  features <- view features
                [Some batch_size; Some num_points;
                 Some (SimplePCN.feature_dim self)] ;;
  torch.max features 1 false.

(** [completed] of [SimplePCN.forward] before the last reshape. *)
Definition SimplePCN_completed (self : SimplePCN.t) (partial_cloud : Tensor)
  : result Tensor :=
  global_feature <- SimplePCN_global_feature self partial_cloud ;;
  Sequential.forward (SimplePCN.decoder self) global_feature.

(** [features] of [PointCloudCompletionNet.forward]. *)
Definition PointCloudCompletionNet_features (self : PointCloudCompletionNet.t)
  (x : Tensor) : result Tensor :=
  x <- transpose_1_2 x ;;
  PointCloudEncoder.forward (PointCloudCompletionNet.encoder self) x.

(** [x] of [PointCloudDecoder.forward] after [fc3], before the reshape. *)
Definition PointCloudDecoder_fc3_output (self : PointCloudDecoder.t) (x : Tensor)
  : result Tensor :=
  let x := squeeze_last x in
  x <- Linear.forward (PointCloudDecoder.fc1 self) x ;;
  x <- BatchNorm1d.forward (PointCloudDecoder.bn1 self) x ;;
  let x := relu x in
  x <- Linear.forward (PointCloudDecoder.fc2 self) x ;;
  x <- BatchNorm1d.forward (PointCloudDecoder.bn2 self) x ;;
  let x := relu x in
  Linear.forward (PointCloudDecoder.fc3 self) x.

(** The aggregated global descriptor of either variant. *)
Definition global_descriptor (model : Model) (partial_cloud : Tensor)
  : result Tensor :=
  match model with
  | SimpleModel m => SimplePCN_global_feature m partial_cloud
  | ConvModel m => PointCloudCompletionNet_features m partial_cloud
  end.

(** The decoder's flat output of either variant. *)
Definition decoder_output (model : Model) (partial_cloud : Tensor)
  : result Tensor :=
  match model with
  | SimpleModel m => SimplePCN_completed m partial_cloud
  | ConvModel m =>
      features <- PointCloudCompletionNet_features m partial_cloud ;;
      PointCloudDecoder_fc3_output (PointCloudCompletionNet.decoder m) features
  end.

(** ** The specification's formulas *)

(** The normalisation step as the specification writes it. *)
Definition spec_normalize (scale shift mean var eps y : R) : R :=
  (scale * (y - mean) / sqrt (var + eps) + shift)%R.


(** ** Batches of clouds *)

(** [cs] is a batch of [b] clouds of [n] points of [d] coordinates. *)
Definition cloud_batch (b n d : nat) (cs : list (list (list R))) : Prop :=
  length cs = b /\ Forall (fun c => length c = n) cs /\
  Forall (Forall (fun p => length p = d)) cs.

(** The entries of a (batch, channels, points) tensor holding the clouds
    [cs] channel by channel, as the second variant's encoder does. *)
Definition lines_data (c : nat) (cs : list (list (list R))) : list R :=
  concat (map (fun cl => concat (columns c cl)) cs).

(** The shape of the global descriptor: (batch, f) in the first variant,
    (batch, f, 1) in the second. *)
Definition descriptor_shape (model : Model) (b f : nat) : list nat :=
  match model with
  | SimpleModel _ => [b; f]
  | ConvModel _ => [b; f; 1]
  end.

(** The forward pass in closed form: the descriptor of every cloud, and
    what the decoder makes of it. *)
Definition descriptor_data (model : Model) (f : nat) (cs : list (list (list R)))
  : list R :=
  concat (map (fun c => pool f (map (point_feature model) c)) cs).

Definition completed_data (model : Model) (f : nat) (cs : list (list (list R)))
  : list R :=
  concat (map (fun c => decode_descriptor model
                          (pool f (map (point_feature model) c))) cs).

(** ** Normalisation *)

(** One row normalised as the specification writes it, from the stored
    constants of [bn] only. *)
Definition spec_normalize_point (bn : BatchNorm1d.t) (row : list R) : list R :=
  map (fun j =>
         spec_normalize
           (nth j (data (BatchNorm1d.weight bn)) 0%R)
           (nth j (data (BatchNorm1d.bias bn)) 0%R)
           (nth j (data (BatchNorm1d.running_mean bn)) 0%R)
           (nth j (data (BatchNorm1d.running_var bn)) 0%R)
           (BatchNorm1d.eps bn)
           (nth j row 0%R))
      (seq 0 (length row)).

Definition Layer_normalization (m : Layer) : list BatchNorm1d.t :=
  match m with
  | BatchNormLayer bn => [bn]
  | _ => []
  end.

(** Every normalisation layer of a model. *)
Definition normalizations (model : Model) : list BatchNorm1d.t :=
  match model with
  | SimpleModel m =>
      flat_map Layer_normalization (SimplePCN.encoder m ++ SimplePCN.decoder m)
  | ConvModel m =>
      let e := PointCloudCompletionNet.encoder m in
      let d := PointCloudCompletionNet.decoder m in
      [ PointCloudEncoder.bn1 e; PointCloudEncoder.bn2 e; PointCloudEncoder.bn3 e;
        PointCloudDecoder.bn1 d; PointCloudDecoder.bn2 d ]
  end.

(** ** The range of binary32

    The networks compute in binary32, whose largest finite number is
    (2 - 2^-23) * 2^127.  A value beyond it has no finite binary32
    number near it: the binary32 computation of it gives an infinity. *)
Definition float32_max : R := ((2 - / 2 ^ 23) * 2 ^ 127)%R.

(** The real numbers within the range of the finite binary32 numbers. *)
Definition float32_finite (v : R) : Prop := (Rabs v <= float32_max)%R.

(** The one-channel layer of the constructor, in evaluation mode, with a
    stored variance of 0, the statistic of a channel that was constant
    throughout training. *)
Definition zero_variance_bn : BatchNorm1d.t :=
  let bn := BatchNorm1d.eval (BatchNorm1d.__init__ 1) in
  BatchNorm1d.mk (BatchNorm1d.num_features bn) (BatchNorm1d.eps bn)
    (BatchNorm1d.momentum bn) (BatchNorm1d.weight bn) (BatchNorm1d.bias bn)
    (BatchNorm1d.running_mean bn) (zeros [1]) (BatchNorm1d.training bn).

(** ** The decoder's groups *)




(** ** Initialisation *)

Definition Layer_affine (m : Layer) : list (Tensor * Tensor) :=
  match m with
  | LinearLayer l => [(Linear.weight l, Linear.bias l)]
  | _ => []
  end.

(** The (weight, bias) pair of every affine layer of a model. *)
Definition affine_parameters (model : Model) : list (Tensor * Tensor) :=
  match model with
  | SimpleModel m =>
      flat_map Layer_affine (SimplePCN.encoder m ++ SimplePCN.decoder m)
  | ConvModel m =>
      let e := PointCloudCompletionNet.encoder m in
      let d := PointCloudCompletionNet.decoder m in
      [ (Conv1d.weight (PointCloudEncoder.conv1 e), Conv1d.bias (PointCloudEncoder.conv1 e));
        (Conv1d.weight (PointCloudEncoder.conv2 e), Conv1d.bias (PointCloudEncoder.conv2 e));
        (Conv1d.weight (PointCloudEncoder.conv3 e), Conv1d.bias (PointCloudEncoder.conv3 e));
        (Linear.weight (PointCloudDecoder.fc1 d), Linear.bias (PointCloudDecoder.fc1 d));
        (Linear.weight (PointCloudDecoder.fc2 d), Linear.bias (PointCloudDecoder.fc2 d));
        (Linear.weight (PointCloudDecoder.fc3 d), Linear.bias (PointCloudDecoder.fc3 d)) ]
  end.

(** [t] holds consecutive draws of the stream [u], scaled to the interval
    from [- a] to [a]. *)
Definition uniform_fill (u : nat -> R) (a : R) (t : Tensor) : Prop :=
  exists pos,
    data t = map (fun i => (u (pos + i)%nat * (a - - a) + - a)%R)
               (seq 0 (numel (shape t))).

Definition zero_filled (t : Tensor) : Prop :=
  data t = repeat 0%R (numel (shape t)).

(** Xavier/Glorot-uniform weight, zero bias. *)
Definition xavier_zero (u : nat -> R) (wb : Tensor * Tensor) : Prop :=
  uniform_fill u (init.xavier_bound (shape (fst wb))) (fst wb) /\
  zero_filled (snd wb).

(** Every entry of the weight lies within the Xavier bound. *)
Definition within_xavier_bound (wb : Tensor * Tensor) : Prop :=
  Forall (fun w => (Rabs w <= init.xavier_bound (shape (fst wb)))%R)
    (data (fst wb)).

(** The default initialisation of an affine layer's constructor:
    Kaiming-uniform weight and a bias uniform in plus or minus
    1 / sqrt(fan_in). *)
Definition default_init (u : nat -> R) (wb : Tensor * Tensor) : Prop :=
  let fan_in := fst (init.calculate_fan_in_and_fan_out (shape (fst wb))) in
  uniform_fill u (sqrt 3 * (init.calculate_gain (sqrt 5) / sqrt (INR fan_in)))
    (fst wb) /\
  uniform_fill u (1 / sqrt (INR fan_in)) (snd wb).

(** ** Concrete models and inputs *)

(** A generator whose every draw is 1/4. *)
Definition quarter_generator : Generator := mkGenerator (fun _ => (1 / 4)%R) 0.

(** The two demonstration models, drawn from that generator. *)
Definition demo_simple : Model := SimpleModel (fst (create_model quarter_generator)).
Definition demo_conv : Model := ConvModel (fst (model quarter_generator)).

(** One cloud of two points, the same points in another order with one
    repeated, a cloud of no point, and a cloud of three points of four
    coordinates. *)
Definition two_points : Tensor :=
  mkTensor [1; 2; 3] [1; 2; 3; 4; 5; 6]%R.
Definition three_points : Tensor :=
  mkTensor [1; 3; 3] [4; 5; 6; 1; 2; 3; 4; 5; 6]%R.
Definition no_points : Tensor := mkTensor [1; 0; 3] [].
Definition four_coordinates : Tensor :=
  mkTensor [1; 3; 4] [1; 2; 3; 4; 5; 6; 7; 8; 9; 10; 11; 12]%R.

(** The two points of [two_points] held channel by channel. *)
Definition point_lines : Tensor := mkTensor [1; 3; 2] [1; 4; 2; 5; 3; 6]%R.

(** Two clouds of two points in layouts that are not contiguous: the
    transposition of a (2, 3, 2) tensor, and one cloud repeated without
    a copy, as [expand(2, -1, -1)] does (stride 0 from cloud to cloud). *)
Definition pair_lines : Tensor :=
  mkTensor [2; 3; 2] [1; 4; 2; 5; 3; 6; 7; 10; 8; 11; 9; 12]%R.
Definition transposed_pair : Tensor :=
  mkStrided [2; 2; 3] [6; 1; 2] [1; 2; 3; 4; 5; 6; 7; 8; 9; 10; 11; 12]%R.
Definition expanded_pair : Tensor :=
  mkStrided [2; 2; 3] [0; 3; 1] [1; 2; 3; 4; 5; 6; 1; 2; 3; 4; 5; 6]%R.

(** A normalisation layer of two channels, in training mode and after
    [eval()]. *)
Definition bn_training : BatchNorm1d.t := BatchNorm1d.__init__ 2.
Definition bn_eval : BatchNorm1d.t := BatchNorm1d.eval bn_training.

(** ** Outcomes and architectures *)

(** Two tensors of one shape in one memory layout. *)
Definition same_layout (x x' : Tensor) : Prop :=
  shape x = shape x' /\ strides x = strides x'.

(** Two calls have the same outcome: both return, tensors of one shape
    in one layout, or both raise, the same error. *)
Definition same_outcome (r r' : result Tensor) : Prop :=
  match r, r' with
  | Ok y, Ok y' => same_layout y y'
  | Raise e, Raise e' => e = e'
  | _, _ => False
  end.

(** What the checks of a layer read: of an affine layer and of a
    convolution the shape of the weight and the size of the bias; of a
    normalisation the sizes of its four tensors and its mode. *)
Definition Linear_signature (l : Linear.t) : list nat * nat :=
  (shape (Linear.weight l), numel (shape (Linear.bias l))).

Definition Conv1d_signature (cv : Conv1d.t) : list nat * nat :=
  (shape (Conv1d.weight cv), numel (shape (Conv1d.bias cv))).

Definition BatchNorm1d_signature (bn : BatchNorm1d.t)
  : nat * nat * nat * nat * bool :=
  (numel (shape (BatchNorm1d.running_mean bn)),
   numel (shape (BatchNorm1d.running_var bn)),
   numel (shape (BatchNorm1d.weight bn)),
   numel (shape (BatchNorm1d.bias bn)),
   BatchNorm1d.training bn).

Inductive LayerSignature : Type :=
| LinearSignature (s : list nat * nat)
| BatchNormSignature (s : nat * nat * nat * nat * bool)
| ReLUSignature.

Definition Layer_signature (m : Layer) : LayerSignature :=
  match m with
  | LinearLayer l => LinearSignature (Linear_signature l)
  | BatchNormLayer bn => BatchNormSignature (BatchNorm1d_signature bn)
  | ReLULayer => ReLUSignature
  end.

(** The architecture of a model: the sizes its forward pass reads and the
    signature of every layer, without any of the values. *)
Inductive Architecture : Type :=
| SimpleArchitecture (feature_dim output_points : nat)
    (encoder decoder : list LayerSignature)
| ConvArchitecture (output_points : nat)
    (convolutions affine : list (list nat * nat))
    (normalizations : list (nat * nat * nat * nat * bool)).

Definition architecture (model : Model) : Architecture :=
  match model with
  | SimpleModel m =>
      SimpleArchitecture (SimplePCN.feature_dim m) (SimplePCN.output_points m)
        (map Layer_signature (SimplePCN.encoder m))
        (map Layer_signature (SimplePCN.decoder m))
  | ConvModel m =>
      let e := PointCloudCompletionNet.encoder m in
      let d := PointCloudCompletionNet.decoder m in
      ConvArchitecture (PointCloudDecoder.output_points d)
        [ Conv1d_signature (PointCloudEncoder.conv1 e);
          Conv1d_signature (PointCloudEncoder.conv2 e);
          Conv1d_signature (PointCloudEncoder.conv3 e) ]
        [ Linear_signature (PointCloudDecoder.fc1 d);
          Linear_signature (PointCloudDecoder.fc2 d);
          Linear_signature (PointCloudDecoder.fc3 d) ]
        [ BatchNorm1d_signature (PointCloudEncoder.bn1 e);
          BatchNorm1d_signature (PointCloudEncoder.bn2 e);
          BatchNorm1d_signature (PointCloudEncoder.bn3 e);
          BatchNorm1d_signature (PointCloudDecoder.bn1 d);
          BatchNorm1d_signature (PointCloudDecoder.bn2 d) ]
  end.

(** The error each variant raises on a single cloud without the batch
    dimension. *)
Definition unbatched_error (model : Model) : TorchError :=
  match model with
  | SimpleModel _ => view_size
  | ConvModel _ => dim_range
  end.

(** ** Models as the constructors leave them *)

(** What the two constructors return, the widths left open: every
    normalisation is the constructor's own, still in training mode. *)
Definition fresh_SimplePCN (ip out w1 w2 w3 h1 h2 : nat)
  (e1 e2 e3 d1 d2 d3 : Linear.t) : SimplePCN.t :=
  SimplePCN.mk ip out w3
    (PointEncoder_layers
       [ (e1, BatchNorm1d.__init__ w1); (e2, BatchNorm1d.__init__ w2);
         (e3, BatchNorm1d.__init__ w3) ])
    (PointDecoder_layers
       [ (d1, BatchNorm1d.__init__ h1); (d2, BatchNorm1d.__init__ h2) ] d3).

Definition fresh_PointCloudCompletionNet (ip out w1 w2 w3 h1 h2 : nat)
  (c1 c2 c3 : Conv1d.t) (f1 f2 f3 : Linear.t) : PointCloudCompletionNet.t :=
  PointCloudCompletionNet.mk ip out
    (PointCloudEncoder.mk c1 c2 c3 (BatchNorm1d.__init__ w1)
       (BatchNorm1d.__init__ w2) (BatchNorm1d.__init__ w3))
    (PointCloudDecoder.mk out f1 f2 f3 (BatchNorm1d.__init__ h1)
       (BatchNorm1d.__init__ h2)).

(** The shapes of a (weight, bias) pair. *)
Definition parameter_shape (wb : Tensor * Tensor) : list nat * list nat :=
  (shape (fst wb), shape (snd wb)).

(** The encoder and the decoder of the second script called one after the
    other, as [PointCloudCompletionNet.forward] does after its
    transposition. *)
Definition encode_decode (enc : PointCloudEncoder.t) (dec : PointCloudDecoder.t)
  (x : Tensor) : result Tensor :=
  features <- PointCloudEncoder.forward enc x ;;
  PointCloudDecoder.forward dec features.

(** ** Model statistics of [create_pcn_model.py] *)

(** [model.parameters()]: the learnable tensors in registration order
    (the running statistics are buffers, not parameters). *)
Definition Conv1d_parameters (cv : Conv1d.t) : list Tensor :=
  [Conv1d.weight cv; Conv1d.bias cv].

Definition Linear_parameters (l : Linear.t) : list Tensor :=
  [Linear.weight l; Linear.bias l].

Definition BatchNorm1d_parameters (bn : BatchNorm1d.t) : list Tensor :=
  [BatchNorm1d.weight bn; BatchNorm1d.bias bn].

Definition parameters (m : PointCloudCompletionNet.t) : list Tensor :=
  let e := PointCloudCompletionNet.encoder m in
  let d := PointCloudCompletionNet.decoder m in
  Conv1d_parameters (PointCloudEncoder.conv1 e)
  ++ Conv1d_parameters (PointCloudEncoder.conv2 e)
  ++ Conv1d_parameters (PointCloudEncoder.conv3 e)
  ++ BatchNorm1d_parameters (PointCloudEncoder.bn1 e)
  ++ BatchNorm1d_parameters (PointCloudEncoder.bn2 e)
  ++ BatchNorm1d_parameters (PointCloudEncoder.bn3 e)
  ++ Linear_parameters (PointCloudDecoder.fc1 d)
  ++ Linear_parameters (PointCloudDecoder.fc2 d)
  ++ Linear_parameters (PointCloudDecoder.fc3 d)
  ++ BatchNorm1d_parameters (PointCloudDecoder.bn1 d)
  ++ BatchNorm1d_parameters (PointCloudDecoder.bn2 d).

(** [p.numel()], an unbounded integer. *)
Definition Tensor_numel (p : Tensor) : Z := Z.of_nat (numel (shape p)).

(** [total_params = sum(p.numel() for p in model.parameters())] *)
Definition total_params (m : PointCloudCompletionNet.t) : Z :=
  fold_right Z.add 0%Z (map Tensor_numel (parameters m)).

(** ** Single clouds, maxima, scaling *)

(** One cloud as a batch of its own. *)
Definition single_cloud (c : list (list R)) : Tensor :=
  mkTensor [1; length c; 3] (concat c).

(** [row] is the channel-wise maximum of the rows [features]: every
    entry is attained by some row and bounds that channel of all rows. *)
Definition channelwise_maximum (f : nat) (features : list (list R)) (row : list R)
  : Prop :=
  length row = f /\
  forall j, j < f ->
    (exists r, In r features /\ nth j row 0%R = nth j r 0%R) /\
    (forall r, In r features -> (nth j r 0%R <= nth j row 0%R)%R).

(** [t * x]: every entry multiplied by the number [t]. *)
Definition scale (t : R) (x : Tensor) : Tensor :=
  mkTensor (shape x) (map (Rmult t) (data x)).

(** A normalisation layer as its constructor left it, in evaluation mode:
    nothing was trained or loaded into it. *)
Definition untrained (bn : BatchNorm1d.t) : Prop :=
  bn = BatchNorm1d.eval (BatchNorm1d.__init__ (BatchNorm1d.num_features bn)).

(** A layer without a shift: an affine layer of zero bias, an untrained
    normalisation, a clamp at zero. *)
Definition shift_free (m : Layer) : Prop :=
  match m with
  | LinearLayer l => zero_filled (Linear.bias l)
  | BatchNormLayer bn => untrained bn
  | ReLULayer => True
  end.

(** A model none of whose layers shifts. *)
Definition shift_free_model (model : Model) : Prop :=
  match model with
  | SimpleModel m =>
      Forall shift_free (SimplePCN.encoder m) /\ Forall shift_free (SimplePCN.decoder m)
  | ConvModel m =>
      Forall shift_free (encoder_layers (PointCloudCompletionNet.encoder m)) /\
      Forall shift_free (decoder_layers (PointCloudCompletionNet.decoder m))
  end.

(** Every weight and every bias lies within plus or minus
    1 / sqrt(fan_in) of its layer. *)
Definition within_fan_in_bound (wb : Tensor * Tensor) : Prop :=
  let fan_in := fst (init.calculate_fan_in_and_fan_out (shape (fst wb))) in
  Forall (fun w => (Rabs w <= 1 / sqrt (INR fan_in))%R) (data (fst wb)) /\
  Forall (fun b => (Rabs b <= 1 / sqrt (INR fan_in))%R) (data (snd wb)).

(** ** More concrete inputs *)

(** Two points without the batch dimension, six numbers without any
    structure, one batch element of two channels over two positions, and
    a batch of two clouds of one point each. *)
Definition unbatched_points : Tensor := mkTensor [2; 3] [1; 2; 3; 4; 5; 6]%R.
Definition flat_points : Tensor := mkTensor [6] [1; 2; 3; 4; 5; 6]%R.
Definition channel_lines : Tensor := mkTensor [1; 2; 2] [1; 2; 3; 4]%R.
Definition cloud_pair : Tensor := mkTensor [2; 1; 3] [1; 2; 3; 4; 5; 6]%R.

(** ** Proof steps *)

(** Case analysis on the first computation of a chain of binds. *)
Ltac case_bind :=
  match goal with
  | |- context [bind ?r _] =>
      lazymatch r with
      | bind _ _ => fail
      | _ => destruct r; cbn [bind]; try reflexivity
      end
  end.

(** One step of a forward pass whose outcome a shape lemma [H] gives. *)
Ltac forward_step H :=
  let y := fresh "y" in
  let E := fresh "E" in
  let S := fresh "S" in
  destruct H as (y & E & S); rewrite E; cbn [bind].

(** The tests of [view_chunks] and [fill_view], one case after the other. *)
Ltac stride_cases :=
  repeat (cbn [view_chunks fill_view negb andb orb rev app fst snd];
          cbv beta iota zeta;
          match goal with
          | |- context [?a =? ?b] =>
              destruct (Nat.eqb_spec a b); try lia
          | |- context [?a <? ?b] =>
              destruct (Nat.ltb_spec a b); try lia
          end).

(* ================================================================== *)
(** * Part III.  Lemmas *)
(* ================================================================== *)

(** ** Blocks of a list *)

Section ListLemmas.
Context {A : Type}.
Implicit Types (l : list A) (ls : list (list A)).

Lemma chunks_length k n l : length (chunks k n l) = n.
Proof.
  revert l; induction n as [|n IH]; intros l; simpl; [reflexivity|].
  now rewrite IH.
Qed.

Lemma chunks_Forall_length k n l :
  k * n <= length l -> Forall (fun c => length c = k) (chunks k n l).
Proof.
  revert l; induction n as [|n IH]; intros l H; simpl; constructor.
  - rewrite length_firstn. lia.
  - apply IH. rewrite length_skipn. lia.
Qed.

Lemma concat_chunks k n l : length l = k * n -> concat (chunks k n l) = l.
Proof.
  revert l; induction n as [|n IH]; intros l H; simpl.
  - destruct l; [reflexivity|]. simpl in H. lia.
  - rewrite IH.
    + apply firstn_skipn.
    + rewrite length_skipn. lia.
Qed.

Lemma length_concat_uniform k ls :
  Forall (fun c => length c = k) ls -> length (concat ls) = length ls * k.
Proof.
  induction 1 as [|c ls Hc _ IH]; simpl; [reflexivity|].
  rewrite length_app, IH, Hc. reflexivity.
Qed.

Lemma firstn_concat_uniform k n ls :
  Forall (fun c => length c = k) ls ->
  firstn (n * k) (concat ls) = concat (firstn n ls).
Proof.
  intros H; revert n; induction H as [|c ls Hc _ IH]; intros n.
  - simpl. now rewrite !firstn_nil.
  - destruct n as [|n]; [reflexivity|]. simpl.
    rewrite firstn_app, Hc.
    replace (k + n * k - k) with (n * k) by lia.
    rewrite IH. rewrite firstn_all2 by lia. reflexivity.
Qed.

Lemma skipn_concat_uniform k n ls :
  Forall (fun c => length c = k) ls ->
  skipn (n * k) (concat ls) = concat (skipn n ls).
Proof.
  intros H; revert n; induction H as [|c ls Hc _ IH]; intros n.
  - simpl. now rewrite !skipn_nil.
  - destruct n as [|n]; [reflexivity|]. simpl.
    rewrite skipn_app, Hc.
    replace (k + n * k - k) with (n * k) by lia.
    rewrite IH. rewrite skipn_all2 by lia. reflexivity.
Qed.

Lemma chunks_concat k ls :
  Forall (fun c => length c = k) ls -> chunks k (length ls) (concat ls) = ls.
Proof.
  induction 1 as [|c ls Hc _ IH]; simpl; [reflexivity|].
  rewrite firstn_app, Hc, Nat.sub_diag, firstn_O, app_nil_r.
  rewrite firstn_all2 by lia.
  rewrite skipn_app, Hc, Nat.sub_diag, skipn_O.
  rewrite skipn_all2 by lia. simpl. now rewrite IH.
Qed.

Lemma chunks_group k n b ls :
  Forall (fun c => length c = k) ls ->
  chunks (n * k) b (concat ls) = map (@concat A) (chunks n b ls).
Proof.
  revert ls; induction b as [|b IH]; intros ls H; simpl; [reflexivity|].
  rewrite firstn_concat_uniform, skipn_concat_uniform by assumption.
  rewrite IH; [reflexivity|].
  rewrite <- (firstn_skipn n ls) in H. apply Forall_app in H. tauto.
Qed.

Lemma chunks_map {B : Type} (f : A -> B) k n l :
  chunks k n (map f l) = map (map f) (chunks k n l).
Proof.
  revert l; induction n as [|n IH]; intros l; simpl; [reflexivity|].
  now rewrite firstn_map, skipn_map, IH.
Qed.

Lemma chunks_Forall_sub (P : A -> Prop) k n l :
  Forall P l -> Forall (Forall P) (chunks k n l).
Proof.
  revert l; induction n as [|n IH]; intros l H; simpl; constructor;
    rewrite <- (firstn_skipn k l) in H; apply Forall_app in H.
  - tauto.
  - apply IH. tauto.
Qed.

End ListLemmas.

(** ** Rows and columns *)

Lemma concat_concat {A} (ls : list (list (list A))) :
  concat (concat ls) = concat (map (@concat A) ls).
Proof.
  induction ls as [|c ls IH]; simpl; [reflexivity|].
  now rewrite concat_app, IH.
Qed.

Lemma zip_with_length {A B C} (f : A -> B -> C) u v :
  length (zip_with f u v) = Nat.min (length u) (length v).
Proof. unfold zip_with. now rewrite length_map, length_combine. Qed.

Lemma zip_with_nth {A B C} (f : A -> B -> C) u v j da db dc :
  j < length u -> j < length v ->
  nth j (zip_with f u v) dc = f (nth j u da) (nth j v db).
Proof.
  revert v j; induction u as [|a u IH]; intros [|b v] [|j] Hu Hv;
    simpl in *; try lia; [reflexivity|].
  apply IH; lia.
Qed.

Lemma map_nth_seq {A} (l : list A) d :
  map (fun j => nth j l d) (seq 0 (length l)) = l.
Proof.
  apply nth_ext with (d := d) (d' := d).
  - now rewrite length_map, length_seq.
  - intros j Hj. rewrite length_map, length_seq in Hj.
    rewrite (nth_indep _ d (nth (length l) l d)) by (now rewrite length_map, length_seq).
    rewrite (map_nth (fun j => nth j l d)), seq_nth by assumption. reflexivity.
Qed.

(** ** Maxima *)

Lemma fold_left_Rmax_ge_init l a : (a <= fold_left Rmax l a)%R.
Proof.
  revert a; induction l as [|x l IH]; intros a; simpl; [lra|].
  eapply Rle_trans; [apply (Rmax_l a x)|apply IH].
Qed.

Lemma fold_left_Rmax_ge l a x : In x l -> (x <= fold_left Rmax l a)%R.
Proof.
  revert a; induction l as [|y l IH]; intros a Hin; [contradiction|].
  destruct Hin as [->|Hin]; simpl.
  - eapply Rle_trans; [apply (Rmax_r a x)|apply fold_left_Rmax_ge_init].
  - now apply IH.
Qed.

Lemma fold_left_Rmax_in l a : fold_left Rmax l a = a \/ In (fold_left Rmax l a) l.
Proof.
  revert a; induction l as [|y l IH]; intros a; simpl; [now left|].
  destruct (IH (Rmax a y)) as [H|H]; [|now right; right].
  rewrite H. unfold Rmax. destruct (Rle_dec a y); [right; now left|now left].
Qed.

Lemma list_max_in l : l <> [] -> In (list_max l) l.
Proof.
  destruct l as [|x l]; [congruence|intros _]. simpl.
  destruct (fold_left_Rmax_in l x) as [H|H]; [left; now rewrite H|now right].
Qed.

Lemma list_max_ge l x : In x l -> (x <= list_max l)%R.
Proof.
  destruct l as [|y l]; [contradiction|]. simpl. intros [->|H].
  - apply fold_left_Rmax_ge_init.
  - now apply fold_left_Rmax_ge.
Qed.

(** The maximum of a non-empty list depends only on which numbers occur. *)
Lemma list_max_same_elements l l' :
  l <> [] -> (forall x, In x l <-> In x l') -> list_max l = list_max l'.
Proof.
  intros Hne Hiff.
  assert (Hne' : l' <> []).
  { destruct l as [|x l]; [congruence|]. intros ->. now apply (Hiff x); left. }
  apply Rle_antisym; apply list_max_ge.
  - apply Hiff. now apply list_max_in.
  - apply Hiff. now apply list_max_in.
Qed.

Lemma rows_fold_max f (rs : list (list R)) (r : list R) :
  length r = f -> Forall (fun c => length c = f) rs ->
  fold_left (zip_with Rmax) rs r
  = map (fun j => fold_left Rmax (column j rs) (nth j r 0%R)) (seq 0 f).
Proof.
  intros Hr Hrs; revert r Hr; induction Hrs as [|r' rs Hr' _ IH]; intros r Hr.
  - simpl. subst f. now rewrite map_nth_seq.
  - simpl. rewrite IH by (rewrite zip_with_length; lia).
    apply map_ext_in. intros j Hj. apply in_seq in Hj.
    now rewrite (zip_with_nth Rmax r r' j 0%R 0%R 0%R) by lia.
Qed.

(** Entry-wise maximum of equally long rows: channel by channel the
    maximum of the column. *)
Lemma rows_max_pool f (rows : list (list R)) :
  rows <> [] -> Forall (fun c => length c = f) rows -> rows_max rows = pool f rows.
Proof.
  destruct rows as [|r rs]; [congruence|intros _ H].
  inversion H; subst. unfold rows_max, pool.
  now rewrite (rows_fold_max (length r)).
Qed.

Lemma pool_length f rows : length (pool f rows) = f.
Proof. unfold pool. now rewrite length_map, length_seq. Qed.

Lemma column_map {A} j (g : A -> list R) (c : list A) :
  column j (map g c) = map (fun p => nth j (g p) 0%R) c.
Proof. unfold column. now rewrite map_map. Qed.

Lemma pool_same_points f (g : list R -> list R) c c' :
  c <> [] -> same_points c c' -> pool f (map g c) = pool f (map g c').
Proof.
  intros Hne Hsame. unfold pool. apply map_ext. intros j.
  rewrite !column_map. apply list_max_same_elements.
  - destruct c; [congruence|discriminate].
  - intros x. rewrite !in_map_iff. split; intros (p & <- & Hp); exists p;
      (split; [reflexivity|now apply Hsame]).
Qed.

Lemma numel_1 a : numel [a] = a.
Proof. unfold numel; simpl. apply Nat.mul_1_r. Qed.

Lemma numel_2 a b : numel [a; b] = a * b.
Proof. unfold numel; simpl. now rewrite Nat.mul_1_r. Qed.

Lemma numel_3 a b c : numel [a; b; c] = a * (b * c).
Proof. unfold numel; simpl. now rewrite Nat.mul_1_r. Qed.

(** ** One layer on a tensor of rows *)

Lemma Linear_point_length l i o x :
  wf_Linear l i o -> length (Layer_point (LinearLayer l) x) = o.
Proof.
  intros (_ & _ & (Hs & _) & (_ & Hb)). unfold Layer_point. rewrite Hs.
  unfold Linear.affine_row. rewrite zip_with_length, chunks_length, Hb, numel_1.
  apply Nat.min_id.
Qed.

Lemma Linear_forward_rows l i o n rows :
  wf_Linear l i o -> length rows = n -> Forall (fun r => length r = i) rows ->
  Linear.forward l (mkTensor [n; i] (concat rows))
  = Ok (mkTensor [n; o] (concat (map (Layer_point (LinearLayer l)) rows))).
Proof.
  intros (_ & _ & (Hs & _) & (Hbs & _)) Hn Hrows.
  unfold Linear.forward, Layer_point. rewrite Hs, Hbs. cbn [shape data rev app].
  rewrite numel_1, !Nat.eqb_refl. cbn [negb]. cbv zeta. cbn [rev app].
  rewrite numel_1. subst n. now rewrite chunks_concat.
Qed.

Lemma channels_eval bn c values :
  BatchNorm1d.training bn = false ->
  BatchNorm1d.channels bn c values = BatchNorm1d.channels bn c [].
Proof. intros H. unfold BatchNorm1d.channels. now rewrite H. Qed.

Lemma channels_length bn c values : length (BatchNorm1d.channels bn c values) = c.
Proof. unfold BatchNorm1d.channels. now rewrite length_map, length_seq. Qed.

Lemma has_channels_wf bn c : wf_BatchNorm1d bn c -> BatchNorm1d.has_channels bn c = true.
Proof.
  intros (_ & (Hw & _) & (Hb & _) & (Hm & _) & (Hv & _) & _).
  unfold BatchNorm1d.has_channels.
  now rewrite Hw, Hb, Hm, Hv, numel_1, Nat.eqb_refl.
Qed.

Lemma BatchNorm_point_length bn x :
  length (Layer_point (BatchNormLayer bn) x) = length x.
Proof.
  unfold Layer_point. rewrite zip_with_length, channels_length. apply Nat.min_id.
Qed.

Lemma BatchNorm1d_forward_rows bn c n rows :
  wf_BatchNorm1d bn c -> length rows = n -> Forall (fun r => length r = c) rows ->
  BatchNorm1d.forward bn (mkTensor [n; c] (concat rows))
  = Ok (mkTensor [n; c] (concat (map (Layer_point (BatchNormLayer bn)) rows))).
Proof.
  intros Hwf Hn Hrows.
  assert (Ht : BatchNorm1d.training bn = false) by apply Hwf.
  unfold BatchNorm1d.forward. cbn [shape data].
  rewrite Ht, (has_channels_wf bn c Hwf). cbn [andb negb].
  subst n. rewrite chunks_concat by assumption.
  rewrite (channels_eval bn c _ Ht).
  do 3 f_equal. apply map_ext_Forall.
  eapply Forall_impl; [|exact Hrows]. intros r Hr. cbn. now rewrite Hr.
Qed.

Lemma relu_rows s rows :
  relu (mkTensor s (concat rows)) = mkTensor s (concat (map (Layer_point ReLULayer) rows)).
Proof. unfold relu. cbn. now rewrite concat_map. Qed.

Lemma Layer_point_length m i o x :
  layer_dims m i o -> length x = i -> length (Layer_point m x) = o.
Proof.
  intros H Hx. destruct H as [l i o H|bn c H|c].
  - now apply (Linear_point_length l i o x H).
  - now rewrite BatchNorm_point_length.
  - cbn. now rewrite length_map.
Qed.

Lemma Layer_forward_rows m i o n rows :
  layer_dims m i o -> length rows = n -> Forall (fun r => length r = i) rows ->
  Layer_forward m (mkTensor [n; i] (concat rows))
  = Ok (mkTensor [n; o] (concat (map (Layer_point m) rows))).
Proof.
  intros H Hn Hrows. destruct H as [l i o H|bn c H|c]; cbn [Layer_forward].
  - now apply Linear_forward_rows.
  - now apply BatchNorm1d_forward_rows.
  - now rewrite relu_rows.
Qed.

(** ** A chained stack of layers on a tensor of rows *)

Lemma layers_point_length layers i o x :
  chained i layers o -> length x = i -> length (layers_point layers x) = o.
Proof.
  intros H; revert x; induction H as [i|m rest i j o Hm _ IH]; intros x Hx.
  - exact Hx.
  - cbn. apply IH. now apply (Layer_point_length m i j x Hm).
Qed.

Lemma Sequential_forward_rows layers i o n rows :
  chained i layers o -> length rows = n -> Forall (fun r => length r = i) rows ->
  Sequential.forward layers (mkTensor [n; i] (concat rows))
  = Ok (mkTensor [n; o] (concat (map (layers_point layers) rows))).
Proof.
  intros H; revert rows; induction H as [i|m rest i j o Hm _ IH]; intros rows Hn Hrows.
  - cbn. now rewrite map_id.
  - cbn [Sequential.forward]. rewrite (Layer_forward_rows m i j n rows Hm Hn Hrows). cbn [bind].
    rewrite IH.
    + now rewrite map_map.
    + now rewrite length_map.
    + apply Forall_map. eapply Forall_impl; [|exact Hrows].
      intros r Hr. now apply (Layer_point_length m i j r Hm).
Qed.

Lemma chained_app i j o l1 l2 :
  chained i l1 j -> chained j l2 o -> chained i (l1 ++ l2) o.
Proof.
  induction 1; intros H2; simpl; [assumption|].
  econstructor; eauto.
Qed.

(** ** Reshaping *)

Lemma numel_app a b : numel (a ++ b) = numel a * numel b.
Proof.
  unfold numel. induction a as [|x a IH]; cbn [app fold_right]; [lia|].
  rewrite IH. lia.
Qed.

Lemma numel_rev s : numel (rev s) = numel s.
Proof.
  induction s as [|a s IH]; [reflexivity|].
  cbn [rev]. rewrite numel_app, IH. cbn [numel fold_right]. fold (numel s). lia.
Qed.

Lemma numel_pos_Forall s : 0 < numel s -> Forall (fun n => 1 <= n) s.
Proof.
  induction s as [|a s IH]; intros H; constructor;
    cbn [numel fold_right] in H; fold (numel s) in H.
  - destruct a; [cbn in H|]; lia.
  - apply IH. destruct (numel s); lia.
Qed.

Lemma stride_of_tail s :
  Forall (fun n => 1 <= n) s ->
  fold_right (fun n acc => Nat.max n 1 * acc) 1 s = numel s.
Proof.
  induction 1 as [|a s Ha _ IH]; [reflexivity|].
  cbn [fold_right numel]. fold (numel s). rewrite IH. now rewrite Nat.max_l by lia.
Qed.

Lemma contiguous_strides_length s : length (contiguous_strides s) = length s.
Proof. induction s as [|a s IH]; [reflexivity|]. cbn [contiguous_strides length]. now rewrite IH. Qed.

Lemma sized_strides_combine a b :
  length a = length b -> sized_strides a b = combine a b.
Proof.
  unfold sized_strides. revert b; induction a as [|x a IH]; intros [|y b] H;
    try discriminate; [reflexivity|].
  cbn [length seq map combine nth]. f_equal.
  rewrite <- seq_shift, map_map. cbn [nth]. apply IH. now injection H.
Qed.

Lemma rev_pairs_app r a t :
  rev_pairs (r ++ [a]) t = rev_pairs r t ++ [(a, t * numel r)].
Proof.
  revert t; induction r as [|x r IH]; intros t; cbn [app rev_pairs numel fold_right].
  - now rewrite Nat.mul_1_r.
  - fold (numel r). now rewrite IH, Nat.mul_assoc.
Qed.

Lemma rev_sized_contiguous s :
  Forall (fun n => 1 <= n) s ->
  rev (combine s (contiguous_strides s)) = rev_pairs (rev s) 1.
Proof.
  induction 1 as [|a s Ha Hs IH]; [reflexivity|].
  cbn [contiguous_strides combine rev]. rewrite IH, rev_pairs_app.
  now rewrite (stride_of_tail s Hs), numel_rev, Nat.mul_1_l.
Qed.

Lemma last_contiguous_stride s :
  s <> [] -> nth (length s - 1) (contiguous_strides s) 0 = 1.
Proof.
  induction s as [|a s IH]; [congruence|]. intros _.
  destruct s as [|a' s']; [reflexivity|].
  specialize (IH ltac:(congruence)).
  replace (length (a :: a' :: s') - 1) with (S (length (a' :: s') - 1))
    by (cbn [length]; lia).
  exact IH.
Qed.

Lemma view_chunks_one_chunk r t view_rev acc :
  r <> [] ->
  view_chunks (rev_pairs r t) 1 t view_rev acc
  = let '(view_numel, view_rev', acc') :=
      fill_view 1 (t * numel r) 1 view_rev acc in
    if negb (view_numel =? t * numel r) then None
    else match view_rev' with [] => Some acc' | _ :: _ => None end.
Proof.
  revert t; induction r as [|a r IH]; intros t Hr; [congruence|].
  destruct r as [|a' r'].
  - cbn [rev_pairs view_chunks numel fold_right]. rewrite !Nat.mul_1_r.
    destruct (fill_view 1 (t * a) 1 view_rev acc) as [[vn vr] st].
    destruct (negb (vn =? t * a)); [reflexivity|]. now destruct vr.
  - change (rev_pairs (a :: a' :: r') t) with ((a, t) :: rev_pairs (a' :: r') (t * a)).
    cbn [view_chunks]. change (rev_pairs (a' :: r') (t * a))
      with ((a', t * a) :: rev_pairs r' (t * a * a')).
    cbv beta iota zeta. rewrite Nat.mul_1_r, Nat.eqb_refl, andb_false_r.
    change ((a', t * a) :: rev_pairs r' (t * a * a')) with (rev_pairs (a' :: r') (t * a)).
    rewrite IH by congruence.
    replace (t * a * numel (a' :: r')) with (t * numel (a :: a' :: r')); [reflexivity|].
    cbn [numel fold_right]. lia.
Qed.

Lemma fill_view_chunk base T vn view_rev acc :
  0 < T -> vn * numel view_rev = T ->
  fill_view base T vn view_rev acc = (T, [], strides_from base vn view_rev acc).
Proof.
  intros HT. revert vn acc; induction view_rev as [|v rest IH]; intros vn acc H.
  - unfold numel in H. cbn [fold_right] in H. cbn [fill_view strides_from].
    now replace vn with T by lia.
  - unfold numel in H. cbn [fold_right] in H. fold (numel rest) in H.
    cbn [fill_view strides_from].
    assert (C : (vn <? T) || (v =? 1) = true).
    { destruct (Nat.ltb_spec vn T) as [|Hge]; [reflexivity|]. cbn.
      apply Nat.eqb_eq.
      destruct (numel rest) as [|m]; [lia|].
      destruct v as [|[|v']]; [lia|reflexivity|].
      destruct vn as [|vn']; [lia|]. exfalso.
      assert (S vn' * 2 <= S vn' * (S (S v') * S m)) by (apply Nat.mul_le_mono_l; lia).
      lia. }
    rewrite C. apply IH. lia.
Qed.

Lemma strides_from_contiguous pre : forall suf,
  Forall (fun n => 1 <= n) pre -> Forall (fun n => 1 <= n) suf ->
  strides_from 1 (numel suf) (rev pre) (contiguous_strides suf)
  = contiguous_strides (pre ++ suf).
Proof.
  induction pre as [|a pre IH] using rev_ind; intros suf Hp Hs; [reflexivity|].
  apply Forall_app in Hp. destruct Hp as [Hp Ha]. inversion Ha as [|? ? Ha1 _]; subst.
  rewrite rev_app_distr. cbn [rev app strides_from].
  rewrite <- app_assoc. cbn [app]. rewrite <- (IH (a :: suf)) by (auto).
  cbn [contiguous_strides]. rewrite (stride_of_tail suf Hs), Nat.mul_1_r.
  cbn [numel fold_right]. fold (numel suf). now rewrite (Nat.mul_comm a).
Qed.

Lemma contiguous_strides_ones s :
  numel s = 1 -> contiguous_strides s = repeat 1 (length s).
Proof.
  induction s as [|a s IH]; [reflexivity|].
  change (numel (a :: s)) with (a * numel s). intros H.
  apply Nat.eq_mul_1 in H. destruct H as [_ Hs].
  cbn [contiguous_strides length repeat]. rewrite IH by exact Hs.
  rewrite stride_of_tail by (apply numel_pos_Forall; lia). now rewrite Hs.
Qed.

Lemma compute_stride_nonscalar s st s' :
  s <> [] ->
  compute_stride s st s'
  = if numel s =? 0 then
      if list_eq_dec Nat.eq_dec s s' then Some st
      else Some (contiguous_strides s')
    else view_chunks (rev (sized_strides s st)) (nth (length s - 1) st 0) 1 (rev s') [].
Proof. destruct s; [congruence|reflexivity]. Qed.

Lemma compute_stride_contiguous s s' :
  numel s = numel s' ->
  compute_stride s (contiguous_strides s) s' = Some (contiguous_strides s').
Proof.
  intros H. destruct (list_eq_dec Nat.eq_dec s []) as [->|Hne].
  - cbn [compute_stride]. now rewrite contiguous_strides_ones by (now rewrite <- H).
  - rewrite compute_stride_nonscalar by exact Hne.
    destruct (Nat.eqb_spec (numel s) 0) as [Hz|Hz].
    + destruct (list_eq_dec Nat.eq_dec s s') as [->|_]; reflexivity.
    + assert (F : Forall (fun n => 1 <= n) s) by (apply numel_pos_Forall; lia).
      assert (F' : Forall (fun n => 1 <= n) s') by (apply numel_pos_Forall; lia).
      rewrite sized_strides_combine by (now rewrite contiguous_strides_length).
      rewrite (rev_sized_contiguous s F), (last_contiguous_stride s Hne).
      rewrite view_chunks_one_chunk
        by (intros E; apply Hne; rewrite <- (rev_involutive s), E; reflexivity).
      rewrite numel_rev, Nat.mul_1_l.
      rewrite fill_view_chunk by (rewrite ?numel_rev; lia).
      rewrite Nat.eqb_refl. cbn [negb].
      f_equal. rewrite <- (app_nil_r s') at 2.
      now rewrite <- strides_from_contiguous by (auto).
Qed.

Lemma numel_fill_dims_known i dims :
  inferred_count dims = 0 -> numel (fill_dims i dims) = known_size dims.
Proof.
  unfold inferred_count, fill_dims, known_size.
  induction dims as [|[n|] dims IH]; cbn [filter length map fold_right numel]; intros H;
    [reflexivity| |discriminate].
  fold (numel (map (fun d => match d with Some n0 => n0 | None => i end) dims)).
  now rewrite IH.
Qed.

Lemma numel_fill_dims_inferred i dims :
  inferred_count dims = 1 -> numel (fill_dims i dims) = i * known_size dims.
Proof.
  induction dims as [|[n|] dims IH]; intros H; [discriminate| |].
  - unfold inferred_count in *. cbn [filter] in H.
    unfold fill_dims, known_size in *. cbn [map fold_right numel].
    fold (numel (map (fun d => match d with Some n0 => n0 | None => i end) dims)).
    rewrite IH by exact H. lia.
  - unfold inferred_count in H. cbn [filter length] in H. injection H as H.
    assert (K := numel_fill_dims_known i dims H).
    unfold fill_dims, known_size in *. cbn [map fold_right numel].
    fold (numel (map (fun d => match d with Some n0 => n0 | None => i end) dims)).
    now rewrite K.
Qed.

Lemma infer_size_numel n dims s : infer_size n dims = Ok s -> numel s = n.
Proof.
  unfold infer_size. destruct (inferred_count dims) as [|[|c]] eqn:E.
  - destruct (Nat.eqb_spec n (known_size dims)) as [->|]; [|discriminate].
    intros [= <-]. now apply numel_fill_dims_known.
  - destruct (Nat.eqb_spec (known_size dims) 0) as [|Hk]; [destruct (n =? 0); discriminate|].
    destruct (Nat.eqb_spec (n mod known_size dims) 0) as [Hm|]; [|discriminate].
    intros [= <-]. rewrite numel_fill_dims_inferred by exact E.
    apply Nat.Div0.div_exact in Hm. lia.
  - discriminate.
Qed.

(** The view of a contiguous tensor: only the sizes matter. *)
Lemma view_contiguous t dims :
  is_contiguous t ->
  view t dims
  = (newshape <- infer_size (numel (shape t)) dims ;; Ok (mkTensor newshape (data t))).
Proof.
  intros H. unfold view. destruct (infer_size (numel (shape t)) dims) as [s|e] eqn:E;
    [|reflexivity].
  cbn [bind]. rewrite H, compute_stride_contiguous; [reflexivity|].
  symmetry. exact (infer_size_numel _ _ _ E).
Qed.


Lemma view_rows t b n d :
  shape t = [b; n; d] -> 0 < d -> is_contiguous t ->
  view t [None; Some d] = Ok (mkTensor [b * n; d] (data t)).
Proof.
  intros Hs Hd Hc. rewrite (view_contiguous t _ Hc). unfold infer_size. rewrite Hs, numel_3.
  cbn [inferred_count filter length known_size fold_right fill_dims map].
  rewrite Nat.mul_1_r.
  destruct (Nat.eqb_spec d 0) as [->|_]; [lia|].
  replace (b * (n * d)) with (b * n * d) by lia.
  rewrite Nat.Div0.mod_mul, Nat.div_mul by lia. reflexivity.
Qed.

Lemma view_3 t b n f s :
  shape t = s -> numel s = b * (n * f) -> is_contiguous t ->
  view t [Some b; Some n; Some f] = Ok (mkTensor [b; n; f] (data t)).
Proof.
  intros Hs Hn Hc. rewrite (view_contiguous t _ Hc). unfold infer_size. rewrite Hs, Hn.
  cbn [inferred_count filter length known_size fold_right fill_dims map].
  now rewrite Nat.mul_1_r, Nat.eqb_refl.
Qed.

(** *** Views of tensors of any layout *)

Lemma infer_rows n d : 0 < d -> infer_size (n * d) [None; Some d] = Ok [n; d].
Proof.
  intros Hd. unfold infer_size.
  cbn [inferred_count filter length known_size fold_right fill_dims map].
  rewrite Nat.mul_1_r.
  destruct (Nat.eqb_spec d 0) as [->|_]; [lia|].
  now rewrite Nat.Div0.mod_mul, Nat.div_mul by lia.
Qed.

Lemma view_rows_any_layout x b n :
  shape x = [b; n; 3] -> viewable_as_rows x ->
  exists st, view x [None; Some 3] = Ok (mkStrided [b * n; 3] st (data x)).
Proof.
  intros Hs Hv. unfold viewable_as_rows in Hv. rewrite Hs in Hv.
  unfold view. rewrite Hs, numel_3, Nat.mul_assoc, infer_rows by lia. cbn [bind].
  rewrite compute_stride_nonscalar by discriminate.
  rewrite numel_3.
  destruct (Nat.eqb_spec (b * (n * 3)) 0) as [Hz|Hz].
  - destruct (list_eq_dec Nat.eq_dec [b; n; 3] [b * n; 3]); eexists; reflexivity.
  - unfold sized_strides. cbn [length seq map nth rev app Nat.sub].
    set (s0 := nth 0 (strides x) 0) in *. set (s1 := nth 1 (strides x) 0) in *.
    set (s2 := nth 2 (strides x) 0).
    stride_cases; try (eexists; reflexivity); try nia.
Qed.

Lemma view_rows_rejected x b n :
  shape x = [b; n; 3] -> 2 <= b -> 2 <= n ->
  nth 0 (strides x) 0 <> n * nth 1 (strides x) 0 ->
  view x [None; Some 3] = Raise view_stride.
Proof.
  intros Hs Hb Hn Hv.
  unfold view. rewrite Hs, numel_3, Nat.mul_assoc, infer_rows by lia. cbn [bind].
  rewrite compute_stride_nonscalar by discriminate.
  rewrite numel_3.
  destruct (Nat.eqb_spec (b * (n * 3)) 0) as [Hz|Hz]; [lia|].
  unfold sized_strides. cbn [length seq map nth rev app Nat.sub].
  set (s0 := nth 0 (strides x) 0) in *. set (s1 := nth 1 (strides x) 0) in *.
  set (s2 := nth 2 (strides x) 0).
  stride_cases; try reflexivity; try nia.
Qed.

Lemma view_points_any_layout x n :
  shape x = [n; 3] ->
  exists st, view x [None; Some 3] = Ok (mkStrided [n; 3] st (data x)).
Proof.
  intros Hs.
  unfold view. rewrite Hs, numel_2, infer_rows by lia. cbn [bind].
  rewrite compute_stride_nonscalar by discriminate.
  rewrite numel_2.
  destruct (Nat.eqb_spec (n * 3) 0) as [Hz|Hz].
  - destruct (list_eq_dec Nat.eq_dec [n; 3] [n; 3]); eexists; reflexivity.
  - unfold sized_strides. cbn [length seq map nth rev app Nat.sub].
    set (s0 := nth 0 (strides x) 0) in *. set (s1 := nth 1 (strides x) 0) in *.
    stride_cases; try (eexists; reflexivity); try nia.
Qed.

Lemma torch_max_dim1 b n f d :
  0 < n ->
  torch.max (mkTensor [b; n; f] d) 1 false
  = Ok (mkTensor [b; f]
          (concat (map (fun block => rows_max (chunks f n block))
                       (chunks (n * f) b d)))).
Proof.
  intros Hn. unfold torch.max. cbn [shape data length firstn skipn nth app].
  cbn [Nat.leb]. destruct (Nat.eqb_spec n 0) as [->|_]; [lia|].
  now rewrite !numel_1.
Qed.

(** ** Batches of clouds, and the first variant on them *)

Lemma Forall_concat_intro {A} (P : A -> Prop) (ls : list (list A)) :
  Forall (Forall P) ls -> Forall P (concat ls).
Proof.
  induction 1; simpl; [constructor|]. apply Forall_app. now split.
Qed.

Lemma clouds_of_batch b n d cs :
  cloud_batch b n d cs -> clouds (mkTensor [b; n; d] (concat (concat cs))) = cs.
Proof.
  intros (Hb & Hn & Hd). unfold clouds. cbn [shape data].
  rewrite (chunks_group d n b (concat cs)) by now apply Forall_concat_intro.
  subst b. rewrite chunks_concat by assumption.
  rewrite map_map. rewrite <- (map_id cs) at 2.
  apply map_ext_Forall. rewrite Forall_forall in *. intros c Hc.
  rewrite <- (Hn c Hc). apply chunks_concat. now apply Hd.
Qed.

Lemma batch_of_tensor x b n d :
  shape x = [b; n; d] -> wf_tensor x ->
  cloud_batch b n d (clouds x) /\
  contiguous x = mkTensor [b; n; d] (concat (concat (clouds x))).
Proof.
  intros Hs Hwf. unfold wf_tensor in Hwf. rewrite Hs, numel_3 in Hwf.
  unfold clouds. rewrite Hs.
  assert (Hblocks : Forall (fun c => length c = n * d) (chunks (n * d) b (data x)))
    by (apply chunks_Forall_length; lia).
  split; [split; [|split]|].
  - now rewrite length_map, chunks_length.
  - apply Forall_map. eapply Forall_impl; [|exact Hblocks].
    intros c _. apply chunks_length.
  - apply Forall_map. eapply Forall_impl; [|exact Hblocks].
    intros c Hc. cbn beta in Hc. apply chunks_Forall_length. lia.
  - destruct x as [s st dt]. unfold contiguous. cbn in *. subst s. f_equal.
    rewrite concat_concat, map_map.
    rewrite <- (concat_chunks (n * d) b dt) at 1 by lia.
    f_equal. symmetry. rewrite <- (map_id (chunks (n * d) b dt)) at 2.
    apply map_ext_Forall. eapply Forall_impl; [|exact Hblocks].
    intros c Hc. cbn beta in Hc. apply concat_chunks. lia.
Qed.

Lemma SimplePCN_forward_factor m x :
  SimplePCN.forward m x
  = (batch_size <- shape_at x 0 ;;
     completed <- SimplePCN_completed m x ;;
     view completed [Some batch_size; Some (SimplePCN.output_points m); Some 3]).
Proof.
  unfold SimplePCN.forward, SimplePCN_completed, SimplePCN_global_feature.
  repeat case_bind.
Qed.

Section SimplePCNForward.

Variable m : SimplePCN.t.
Hypothesis Hvalid : valid_SimplePCN m.

Lemma SimplePCN_feat_length p : length p = 3 -> length ((layers_point (SimplePCN.encoder m)) p) = (SimplePCN.feature_dim m).
Proof.
  destruct Hvalid as (_ & _ & He & _). intros Hp.
  now apply (layers_point_length _ 3 (SimplePCN.feature_dim m) p He).
Qed.

Lemma SimplePCN_global_feature_batch b n cs :
  cloud_batch b n 3 cs -> 0 < n ->
  SimplePCN_global_feature m (mkTensor [b; n; 3] (concat (concat cs)))
  = Ok (mkTensor [b; (SimplePCN.feature_dim m)] (concat (map (fun c => pool (SimplePCN.feature_dim m) (map (layers_point (SimplePCN.encoder m)) c)) cs))).
Proof.
  intros (Hb & Hn & Hd) Hpos.
  destruct Hvalid as (_ & _ & He & _).
  assert (Hrows : Forall (fun r => length r = 3) (concat cs))
    by now apply Forall_concat_intro.
  assert (Hlen : length (concat cs) = b * n)
    by (rewrite (length_concat_uniform n) by assumption; now subst b).
  unfold SimplePCN_global_feature. cbn [shape_at shape nth_error bind].
  rewrite (view_rows _ b n 3) by (reflexivity || lia). cbn [bind data].
  rewrite (Sequential_forward_rows _ 3 (SimplePCN.feature_dim m) (b * n) (concat cs) He Hlen Hrows).
  cbn [bind]. rewrite (view_3 _ b n (SimplePCN.feature_dim m) [b * n; (SimplePCN.feature_dim m)]) by (reflexivity || (rewrite numel_2; lia)).
  cbn [bind data]. rewrite torch_max_dim1 by assumption. do 3 f_equal.
  rewrite concat_map.
  rewrite (chunks_group (SimplePCN.feature_dim m) n b).
  2:{ apply Forall_concat_intro. apply Forall_map.
      eapply Forall_impl; [|exact Hd]. intros c Hc. apply Forall_map.
      eapply Forall_impl; [|exact Hc]. intros p Hp. now apply SimplePCN_feat_length. }
  replace b with (length (map (map (layers_point (SimplePCN.encoder m))) cs))
    by (now rewrite length_map).
  rewrite chunks_concat.
  2:{ apply Forall_map. eapply Forall_impl; [|exact Hn]. intros c Hc.
      now rewrite length_map. }
  rewrite !map_map. apply map_ext_Forall.
  rewrite Forall_forall in *. intros c Hc.
  assert (Hfc : Forall (fun r => length r = (SimplePCN.feature_dim m)) (map (layers_point (SimplePCN.encoder m)) c)).
  { apply Forall_map. rewrite Forall_forall. intros p Hp.
    apply SimplePCN_feat_length. specialize (Hd c Hc).
    rewrite Forall_forall in Hd. now apply Hd. }
  replace n with (length (map (layers_point (SimplePCN.encoder m)) c)) by (rewrite length_map; now apply Hn).
  rewrite chunks_concat by assumption.
  apply rows_max_pool; [|assumption].
  specialize (Hn c Hc). destruct c; [simpl in Hn; lia|discriminate].
Qed.

Lemma SimplePCN_completed_batch b n cs :
  cloud_batch b n 3 cs -> 0 < n ->
  SimplePCN_completed m (mkTensor [b; n; 3] (concat (concat cs)))
  = Ok (mkTensor [b; SimplePCN.output_points m * 3]
          (concat (map (fun c => (layers_point (SimplePCN.decoder m)) (pool (SimplePCN.feature_dim m) (map (layers_point (SimplePCN.encoder m)) c))) cs))).
Proof.
  intros Hcs Hpos. unfold SimplePCN_completed.
  rewrite (SimplePCN_global_feature_batch b n cs Hcs Hpos). cbn [bind].
  destruct Hvalid as (_ & _ & _ & Hdec & _). destruct Hcs as (Hb & _ & _).
  rewrite (Sequential_forward_rows _ (SimplePCN.feature_dim m) (SimplePCN.output_points m * 3) b
             (map (fun c => pool (SimplePCN.feature_dim m) (map (layers_point (SimplePCN.encoder m)) c)) cs) Hdec).
  - now rewrite map_map.
  - now rewrite length_map.
  - apply Forall_map. apply Forall_forall. intros c _. apply pool_length.
Qed.

Lemma SimplePCN_forward_batch b n cs :
  cloud_batch b n 3 cs -> 0 < n ->
  SimplePCN.forward m (mkTensor [b; n; 3] (concat (concat cs)))
  = Ok (mkTensor [b; SimplePCN.output_points m; 3]
          (concat (map (fun c => (layers_point (SimplePCN.decoder m)) (pool (SimplePCN.feature_dim m) (map (layers_point (SimplePCN.encoder m)) c))) cs))).
Proof.
  intros Hcs Hpos. rewrite SimplePCN_forward_factor.
  cbn [shape_at shape nth_error bind].
  rewrite (SimplePCN_completed_batch b n cs Hcs Hpos). cbn [bind].
  now rewrite (view_3 _ b (SimplePCN.output_points m) 3
                 [b; SimplePCN.output_points m * 3])
    by (reflexivity || (rewrite numel_2; lia)).
Qed.

End SimplePCNForward.

(** ** The layers read the entries, not the layout *)

Lemma Linear_forward_layout l t t' :
  shape t = shape t' -> data t = data t' ->
  Linear.forward l t = Linear.forward l t'.
Proof. intros Hs Hd. unfold Linear.forward. now rewrite Hs, Hd. Qed.

Lemma BatchNorm1d_forward_layout bn t t' :
  shape t = shape t' -> data t = data t' ->
  BatchNorm1d.forward bn t = BatchNorm1d.forward bn t'.
Proof. intros Hs Hd. unfold BatchNorm1d.forward. now rewrite Hs, Hd. Qed.

Lemma Conv1d_forward_layout cv t t' :
  shape t = shape t' -> data t = data t' ->
  Conv1d.forward cv t = Conv1d.forward cv t'.
Proof. intros Hs Hd. unfold Conv1d.forward. now rewrite Hs, Hd. Qed.

Lemma torch_max_layout t t' dim keepdim :
  shape t = shape t' -> data t = data t' ->
  torch.max t dim keepdim = torch.max t' dim keepdim.
Proof. intros Hs Hd. unfold torch.max. now rewrite Hs, Hd. Qed.

(** ** Clouds held channel by channel *)

Lemma cloud_batch_map b n i o (g : list R -> list R) cs :
  cloud_batch b n i cs -> (forall p, length p = i -> length (g p) = o) ->
  cloud_batch b n o (map (map g) cs).
Proof.
  intros (Hb & Hn & Hd) Hg. split; [|split].
  - now rewrite length_map.
  - apply Forall_map. eapply Forall_impl; [|exact Hn].
    intros c Hc. now rewrite length_map.
  - apply Forall_map. eapply Forall_impl; [|exact Hd].
    intros c Hc. apply Forall_map. eapply Forall_impl; [|exact Hc].
    intros p Hp. now apply Hg.
Qed.

Lemma chunks_single {A} n (l : list A) :
  length l = n -> chunks 1 n l = map (fun x => [x]) l.
Proof.
  revert l; induction n as [|n IH]; intros [|x l] H; simpl in *; try lia;
    [reflexivity|].
  f_equal. apply IH. lia.
Qed.

Lemma concat_map_single {A B} (g : A -> B) (l : list A) :
  concat (map (fun x => [g x]) l) = map g l.
Proof. induction l; simpl; [reflexivity|now f_equal]. Qed.

Lemma nth_map_lt {A B} (g : A -> B) l j da db :
  j < length l -> nth j (map g l) db = g (nth j l da).
Proof.
  intros H. rewrite (nth_indep _ db (g da)) by now rewrite length_map.
  apply map_nth.
Qed.

Lemma map_as_seq {A B} (g : A -> B) (l : list A) d :
  map g l = map (fun j => g (nth j l d)) (seq 0 (length l)).
Proof.
  rewrite <- (map_nth_seq l d) at 1. now rewrite map_map.
Qed.

Lemma zip_with_seq {A B C} (g : A -> B -> C) u v n da db :
  length u = n -> length v = n ->
  zip_with g u v = map (fun j => g (nth j u da) (nth j v db)) (seq 0 n).
Proof.
  intros Hu Hv.
  assert (Hl : length (zip_with g u v) = n)
    by (rewrite zip_with_length; lia).
  rewrite <- (map_nth_seq (zip_with g u v) (g da db)), Hl.
  apply map_ext_in. intros j Hj. apply in_seq in Hj.
  apply zip_with_nth; lia.
Qed.

Lemma column_length j (rows : list (list R)) : length (column j rows) = length rows.
Proof. unfold column. apply length_map. Qed.

Lemma columns_length c rows : length (columns c rows) = c.
Proof. unfold columns. now rewrite length_map, length_seq. Qed.

Lemma columns_Forall_length c rows :
  Forall (fun l => length l = length rows) (columns c rows).
Proof.
  unfold columns. apply Forall_map. apply Forall_forall. intros j _.
  apply column_length.
Qed.

(** The point at position [p], read off the columns. *)
Lemma columns_point c rows p :
  p < length rows -> Forall (fun r => length r = c) rows ->
  map (fun line => nth p line 0%R) (columns c rows) = nth p rows [].
Proof.
  intros Hp Hrows. unfold columns. rewrite map_map.
  assert (Hlen : length (nth p rows []) = c).
  { rewrite Forall_forall in Hrows. apply Hrows. now apply nth_In. }
  rewrite <- (map_nth_seq (nth p rows []) 0%R) at 1. rewrite Hlen.
  apply map_ext. intros j. unfold column.
  now rewrite (nth_map_lt (fun r => nth j r 0%R) rows p []).
Qed.

Lemma lines_of_clouds b n c cs :
  cloud_batch b n c cs ->
  map (chunks n c) (chunks (c * n) b (lines_data c cs)) = map (columns c) cs.
Proof.
  intros (Hb & Hn & _). unfold lines_data.
  assert (Hblocks : Forall (fun l => length l = c * n)
                      (map (fun cl => concat (columns c cl)) cs)).
  { apply Forall_map. eapply Forall_impl; [|exact Hn]. intros cl Hcl.
    cbn beta in Hcl. rewrite (length_concat_uniform n), columns_length; [reflexivity|].
    rewrite <- Hcl. apply columns_Forall_length. }
  replace b with (length (map (fun cl => concat (columns c cl)) cs))
    by now rewrite length_map.
  rewrite chunks_concat by assumption. rewrite map_map.
  apply map_ext_Forall. eapply Forall_impl; [|exact Hn]. intros cl Hcl.
  cbn beta in Hcl. rewrite <- (columns_length c cl) at 1. apply chunks_concat.
  rewrite <- Hcl. apply columns_Forall_length.
Qed.

Lemma map_lines_of_clouds {B} (g : list (list R) -> B) b n c cs :
  cloud_batch b n c cs ->
  map (fun block => g (chunks n c block)) (chunks (c * n) b (lines_data c cs))
  = map (fun cl => g (columns c cl)) cs.
Proof.
  intros H. rewrite <- (map_map (chunks n c) g), (lines_of_clouds b n c cs H).
  apply map_map.
Qed.

(** ** [transpose(1, 2)] of a batch of clouds *)

Lemma transpose_batch b n d cs :
  cloud_batch b n d cs ->
  transpose_1_2 (mkTensor [b; n; d] (concat (concat cs)))
  = Ok (mkStrided [b; d; n] (swap_1_2 (contiguous_strides [b; n; d]))
          (lines_data d cs)).
Proof.
  intros (Hb & Hn & Hd). unfold transpose_1_2, lines_data. cbn [shape strides data].
  do 2 f_equal. change (numel []) with 1. rewrite Nat.mul_1_r.
  rewrite (chunks_group d n b (concat cs)) by now apply Forall_concat_intro.
  subst b. rewrite chunks_concat by assumption. rewrite map_map.
  f_equal. apply map_ext_Forall. rewrite Forall_forall in *. intros c Hc.
  specialize (Hn c Hc). specialize (Hd c Hc).
  unfold transpose_cells.
  rewrite chunks_single
    by (rewrite (length_concat_uniform d) by assumption; now rewrite Hn).
  rewrite chunks_map, <- Hn, chunks_concat by assumption.
  unfold columns. f_equal. apply map_ext_in. intros j Hj. apply in_seq in Hj.
  rewrite map_map. unfold column.
  rewrite <- (concat_map_single (fun r => nth j r 0%R) c). f_equal.
  apply map_ext_Forall. eapply Forall_impl; [|exact Hd]. intros p Hp.
  cbn beta in Hp. apply (nth_map_lt (fun x => [x]) p j 0%R). lia.
Qed.

(** ** A convolution of kernel size 1 on a batch of clouds *)

Lemma window_1 p (line : list R) :
  p < length line -> firstn 1 (skipn p line) = [nth p line 0%R].
Proof.
  revert line; induction p as [|p IH]; intros [|x line] H; simpl in *; try lia.
  - reflexivity.
  - apply IH. lia.
Qed.

Lemma conv_point_sum p (w : list R) (lines : list (list R)) :
  Forall (fun line => p < length line) lines ->
  sum (zip_with (fun krow line => dot krow (firstn 1 (skipn p line)))
         (map (fun x => [x]) w) lines)
  = dot (map (fun line => nth p line 0%R) lines) w.
Proof.
  intros H; revert w; induction H as [|line lines Hl _ IH]; intros [|a w];
    try reflexivity.
  cbn [map zip_with combine fst snd]. unfold zip_with in IH.
  cbn [sum fold_right]. fold (sum (map (fun q : list R * list R =>
       dot (fst q) (firstn 1 (skipn p (snd q)))) (combine (map (fun x => [x]) w) lines))).
  rewrite IH, (window_1 p line Hl).
  unfold dot, zip_with, sum. cbn. lra.
Qed.

Lemma conv_as_linear_point cv i o x :
  wf_Conv1d cv i o ->
  Layer_point (LinearLayer (conv_as_linear cv)) x
  = Linear.affine_row (chunks i o (data (Conv1d.weight cv))) (data (Conv1d.bias cv)) x.
Proof.
  intros (Hi & Ho & _). unfold Layer_point, conv_as_linear. cbn. now rewrite Hi, Ho.
Qed.

Lemma conv_as_linear_wf cv i o : wf_Conv1d cv i o -> wf_Linear (conv_as_linear cv) i o.
Proof.
  intros (Hi & Ho & _ & (Hs & Hl) & Hb). unfold conv_as_linear, wf_Linear.
  cbn [Linear.in_features Linear.out_features Linear.weight Linear.bias].
  split; [assumption|]. split; [assumption|]. split; [|assumption].
  split; cbn [shape data].
  - now rewrite Hi, Ho.
  - rewrite Hl, numel_3, numel_2. lia.
Qed.

Lemma Conv1d_forward_batch cv i o b n cs :
  wf_Conv1d cv i o -> cloud_batch b n i cs -> 0 < n ->
  Conv1d.forward cv (mkTensor [b; i; n] (lines_data i cs))
  = Ok (mkTensor [b; o; n]
          (lines_data o (map (map (Layer_point (LinearLayer (conv_as_linear cv)))) cs))).
Proof.
  intros Hwf Hcs Hpos.
  pose proof Hwf as (Hi & Ho & Hk & (Hs & Hl) & (Hbs & Hbl)).
  pose proof Hcs as (Hb & Hn & Hd).
  unfold Conv1d.forward. rewrite Hs. cbn [shape data].
  unfold Conv1d.conv_batch. rewrite Hbs, numel_1, !Nat.eqb_refl. cbn [negb].
  destruct (Nat.ltb_spec n 1) as [|_]; [lia|]. cbn [bind].
  replace (n - 1 + 1) with n by lia. do 2 f_equal.
  rewrite (map_lines_of_clouds
             (fun lines => concat (Conv1d.conv_lines 1
                (map (chunks 1 i) (chunks (i * 1) o (data (Conv1d.weight cv))))
                (data (Conv1d.bias cv)) n lines)) b n i cs Hcs).
  unfold lines_data. rewrite !map_map. f_equal.
  apply map_ext_Forall. rewrite Forall_forall in *. intros c Hc.
  specialize (Hn c Hc). specialize (Hd c Hc). f_equal.
  rewrite numel_3 in Hl. rewrite numel_1 in Hbl.
  assert (HW : Forall (fun w => length w = i) (chunks i o (data (Conv1d.weight cv))))
    by (apply chunks_Forall_length; lia).
  unfold Conv1d.conv_lines.
  rewrite (zip_with_seq _ _ _ o [] 0%R)
    by (rewrite ?length_map, ?chunks_length; auto).
  unfold columns. apply map_ext_in. intros j Hj. apply in_seq in Hj.
  rewrite column_map.
  rewrite (map_as_seq (fun pt => nth j (Layer_point (LinearLayer (conv_as_linear cv)) pt) 0%R) c []), Hn.
  apply map_ext_in. intros p Hp. apply in_seq in Hp.
  rewrite (conv_as_linear_point cv i o _ Hwf). unfold Linear.affine_row.
  rewrite (zip_with_nth _ _ _ j [] 0%R 0%R) by (rewrite ?chunks_length; lia).
  f_equal. rewrite Nat.mul_1_r.
  rewrite (nth_map_lt (chunks 1 i) _ j []) by (rewrite chunks_length; lia).
  assert (Hwj : length (nth j (chunks i o (data (Conv1d.weight cv))) []) = i).
  { rewrite Forall_forall in HW. apply HW. apply nth_In. rewrite chunks_length. lia. }
  rewrite (chunks_single i _ Hwj).
  fold (columns i c).
  rewrite conv_point_sum.
  - rewrite columns_point by (assumption || lia). reflexivity.
  - eapply Forall_impl; [|apply columns_Forall_length].
    intros l Hlen. cbn beta in Hlen. lia.
Qed.

(** ** Normalisation of a batch of clouds held channel by channel *)

Lemma BatchNorm1d_forward_batch bn c b n cs :
  wf_BatchNorm1d bn c -> cloud_batch b n c cs ->
  BatchNorm1d.forward bn (mkTensor [b; c; n] (lines_data c cs))
  = Ok (mkTensor [b; c; n]
          (lines_data c (map (map (Layer_point (BatchNormLayer bn))) cs))).
Proof.
  intros Hwf Hcs.
  assert (Ht : BatchNorm1d.training bn = false) by apply Hwf.
  pose proof Hcs as (Hb & Hn & Hd).
  unfold BatchNorm1d.forward. cbn [shape data].
  rewrite Ht, (has_channels_wf bn c Hwf). cbn [andb negb]. cbv zeta.
  rewrite (channels_eval bn c _ Ht). do 2 f_equal.
  rewrite (lines_of_clouds b n c cs Hcs).
  unfold lines_data. rewrite !map_map. f_equal.
  apply map_ext_Forall. rewrite Forall_forall in *. intros cl Hcl.
  specialize (Hn cl Hcl). specialize (Hd cl Hcl). f_equal.
  rewrite (zip_with_seq _ _ _ c (BatchNorm1d.mkChannel 0 0 0 0) [])
    by (now rewrite ?channels_length, ?columns_length).
  unfold columns. apply map_ext_in. intros j Hj. apply in_seq in Hj.
  rewrite (nth_map_lt (fun j0 => column j0 cl) (seq 0 c) j 0)
    by (rewrite length_seq; lia).
  rewrite seq_nth by lia. cbn [Nat.add]. rewrite column_map.
  unfold column. rewrite map_map.
  apply map_ext_Forall. eapply Forall_impl; [|exact Hd]. intros p Hp.
  cbn beta in Hp. cbn [Layer_point]. rewrite Hp.
  symmetry. apply zip_with_nth; rewrite ?channels_length; lia.
Qed.

Lemma relu_batch s c b n cs :
  cloud_batch b n c cs ->
  relu (mkTensor s (lines_data c cs))
  = mkTensor s (lines_data c (map (map (Layer_point ReLULayer)) cs)).
Proof.
  intros (Hb & Hn & Hd). unfold relu, lines_data. cbn [shape data]. f_equal.
  rewrite concat_map, !map_map. f_equal.
  apply map_ext_Forall. rewrite Forall_forall in *. intros cl Hcl.
  specialize (Hd cl Hcl). rewrite concat_map. f_equal.
  unfold columns. rewrite map_map. apply map_ext_in. intros j Hj.
  apply in_seq in Hj. rewrite column_map. unfold column. rewrite map_map.
  apply map_ext_Forall. eapply Forall_impl; [|exact Hd]. intros p Hp.
  cbn beta in Hp. cbn [Layer_point]. symmetry.
  apply (nth_map_lt (Rmax 0) p j 0%R). lia.
Qed.

(** ** Pooling over the points of clouds held channel by channel *)

Lemma rows_max_single (line : list R) :
  line <> [] -> rows_max (map (fun x => [x]) line) = [list_max line].
Proof.
  destruct line as [|x xs]; [congruence|intros _]. cbn [map rows_max list_max].
  revert x; induction xs as [|y xs IH]; intros x; [reflexivity|].
  cbn [map fold_left]. apply IH.
Qed.

Lemma torch_max_dim2_batch b f n cs :
  cloud_batch b n f cs -> 0 < n ->
  torch.max (mkTensor [b; f; n] (lines_data f cs)) 2 true
  = Ok (mkTensor [b; f; 1] (concat (map (pool f) cs))).
Proof.
  intros (Hb & Hn & Hd) Hpos. unfold torch.max.
  cbn [shape data length firstn skipn nth app Nat.leb].
  destruct (Nat.eqb_spec n 0) as [->|_]; [lia|].
  change (numel []) with 1. rewrite numel_2, Nat.mul_1_r. do 2 f_equal.
  unfold lines_data. rewrite <- (map_map (columns f) (@concat R)), <- concat_concat.
  assert (Hlines : Forall (fun l => length l = n) (concat (map (columns f) cs))).
  { apply Forall_concat_intro. apply Forall_map.
    eapply Forall_impl; [|exact Hn]. intros cl Hcl. cbn beta in Hcl.
    rewrite <- Hcl. apply columns_Forall_length. }
  replace (b * f) with (length (concat (map (columns f) cs))).
  2:{ rewrite (length_concat_uniform f), length_map; [now subst b|].
      apply Forall_map, Forall_forall. intros cl _. apply columns_length. }
  rewrite chunks_concat by assumption.
  erewrite map_ext_Forall.
  2:{ eapply Forall_impl; [|exact Hlines]. intros l Hl. cbn beta in Hl.
      rewrite (chunks_single n l Hl).
      apply rows_max_single. destruct l; [simpl in Hl; lia|discriminate]. }
  rewrite (concat_map_single list_max), concat_map, map_map. f_equal.
  apply map_ext. intros cl. unfold pool, columns. now rewrite map_map.
Qed.

(** ** The second variant on a batch of clouds *)

Section ConvForward.

Variable m : PointCloudCompletionNet.t.
Variable F : nat.
Hypothesis Hvalid : valid_PointCloudCompletionNet m F.

Lemma encoder_layers_chained : chained 3 (encoder_layers (PointCloudCompletionNet.encoder m)) F.
Proof.
  destruct Hvalid as ((c1 & c2 & H1 & B1 & H2 & B2 & H3 & B3) & _).
  unfold encoder_layers, PointEncoder_layers, block_layers. cbn [map concat app fst snd].
  repeat (econstructor; eauto using conv_as_linear_wf).
Qed.

Lemma ConvNet_feat_length p : length p = 3 -> length ((layers_point (encoder_layers (PointCloudCompletionNet.encoder m))) p) = F.
Proof. intros Hp. now apply (layers_point_length _ 3 F p encoder_layers_chained). Qed.

Lemma PointCloudCompletionNet_features_batch b n cs :
  cloud_batch b n 3 cs -> 0 < n ->
  PointCloudCompletionNet_features m (mkTensor [b; n; 3] (concat (concat cs)))
  = Ok (mkTensor [b; F; 1] (concat (map (fun c => pool F (map (layers_point (encoder_layers (PointCloudCompletionNet.encoder m))) c)) cs))).
Proof.
  intros Hcs Hpos.
  destruct Hvalid as ((c1 & c2 & H1 & B1 & H2 & B2 & H3 & B3) & _).
  unfold PointCloudCompletionNet_features.
  rewrite (transpose_batch b n 3 cs Hcs). cbn [bind].
  unfold PointCloudEncoder.forward.
  pose proof (cloud_batch_map b n 3 c1 _ cs Hcs
                (fun p => Layer_point_length _ 3 c1 p
                   (dims_linear _ _ _ (conv_as_linear_wf _ _ _ H1)))) as Hcs1.
  rewrite (Conv1d_forward_layout _ _ (mkTensor [b; 3; n] (lines_data 3 cs)))
    by reflexivity.
  rewrite (Conv1d_forward_batch _ 3 c1 b n cs H1 Hcs Hpos). cbn [bind].
  pose proof (cloud_batch_map b n c1 c1 _ _ Hcs1
                (fun p => Layer_point_length _ c1 c1 p (dims_batchnorm _ _ B1))) as Hcs2.
  rewrite (BatchNorm1d_forward_batch _ c1 b n _ B1 Hcs1). cbn [bind].
  pose proof (cloud_batch_map b n c1 c1 _ _ Hcs2
                (fun p => Layer_point_length _ c1 c1 p (dims_relu c1))) as Hcs3.
  rewrite (relu_batch _ c1 b n _ Hcs2).
  pose proof (cloud_batch_map b n c1 c2 _ _ Hcs3
                (fun p => Layer_point_length _ c1 c2 p
                   (dims_linear _ _ _ (conv_as_linear_wf _ _ _ H2)))) as Hcs4.
  rewrite (Conv1d_forward_batch _ c1 c2 b n _ H2 Hcs3 Hpos). cbn [bind].
  pose proof (cloud_batch_map b n c2 c2 _ _ Hcs4
                (fun p => Layer_point_length _ c2 c2 p (dims_batchnorm _ _ B2))) as Hcs5.
  rewrite (BatchNorm1d_forward_batch _ c2 b n _ B2 Hcs4). cbn [bind].
  pose proof (cloud_batch_map b n c2 c2 _ _ Hcs5
                (fun p => Layer_point_length _ c2 c2 p (dims_relu c2))) as Hcs6.
  rewrite (relu_batch _ c2 b n _ Hcs5).
  pose proof (cloud_batch_map b n c2 F _ _ Hcs6
                (fun p => Layer_point_length _ c2 F p
                   (dims_linear _ _ _ (conv_as_linear_wf _ _ _ H3)))) as Hcs7.
  rewrite (Conv1d_forward_batch _ c2 F b n _ H3 Hcs6 Hpos). cbn [bind].
  pose proof (cloud_batch_map b n F F _ _ Hcs7
                (fun p => Layer_point_length _ F F p (dims_batchnorm _ _ B3))) as Hcs8.
  rewrite (BatchNorm1d_forward_batch _ F b n _ B3 Hcs7). cbn [bind].
  pose proof (cloud_batch_map b n F F _ _ Hcs8
                (fun p => Layer_point_length _ F F p (dims_relu F))) as Hcs9.
  rewrite (relu_batch _ F b n _ Hcs8).
  rewrite (torch_max_dim2_batch b F n _ Hcs9 Hpos).
  do 3 f_equal. rewrite !map_map. apply map_ext. intros c. f_equal.
  rewrite !map_map. reflexivity.
Qed.

End ConvForward.

(** ** The decoders, and both variants in closed form *)

Lemma PointCloudDecoder_fc3_output_layers d x :
  PointCloudDecoder_fc3_output d x
  = Sequential.forward (decoder_layers d) (squeeze_last x).
Proof.
  unfold PointCloudDecoder_fc3_output, decoder_layers, PointDecoder_layers, block_layers.
  cbn [map concat app fst snd Sequential.forward Layer_forward].
  repeat case_bind.
Qed.

Lemma PointCloudDecoder_forward_factor d x :
  PointCloudDecoder.forward d x
  = (flat <- PointCloudDecoder_fc3_output d x ;;
     view flat [None; Some (PointCloudDecoder.output_points d); Some 3]).
Proof.
  unfold PointCloudDecoder.forward, PointCloudDecoder_fc3_output.
  repeat case_bind.
Qed.

Lemma view_points b o dt :
  0 < o ->
  view (mkTensor [b; o * 3] dt) [None; Some o; Some 3] = Ok (mkTensor [b; o; 3] dt).
Proof.
  intros Ho. rewrite view_contiguous by reflexivity.
  unfold infer_size. cbn [shape data]. rewrite numel_2.
  cbn [inferred_count filter length known_size fold_right fill_dims map].
  rewrite Nat.mul_1_r.
  destruct (Nat.eqb_spec (o * 3) 0) as [|_]; [lia|].
  rewrite Nat.Div0.mod_mul, Nat.div_mul by lia. reflexivity.
Qed.

Lemma squeeze_last_column b f d :
  squeeze_last (mkTensor [b; f; 1] d) = mkTensor [b; f] d.
Proof.
  unfold squeeze_last.
  cbn [shape strides data rev app contiguous_strides fold_right removelast].
  change (Nat.max 1 1) with 1. now rewrite !Nat.mul_1_r.
Qed.

Section ConvForward2.

Variable m : PointCloudCompletionNet.t.
Variable F : nat.
Hypothesis Hvalid : valid_PointCloudCompletionNet m F.

Lemma ConvNet_decoder_output_batch b n cs :
  cloud_batch b n 3 cs -> 0 < n ->
  decoder_output (ConvModel m) (mkTensor [b; n; 3] (concat (concat cs)))
  = Ok (mkTensor [b; PointCloudCompletionNet.output_points m * 3]
          (concat (map (fun c => (layers_point (decoder_layers (PointCloudCompletionNet.decoder m))) (pool F (map (layers_point (encoder_layers (PointCloudCompletionNet.encoder m))) c))) cs))).
Proof.
  intros Hcs Hpos. cbn [decoder_output].
  rewrite (PointCloudCompletionNet_features_batch m F Hvalid b n cs Hcs Hpos).
  cbn [bind]. rewrite PointCloudDecoder_fc3_output_layers, squeeze_last_column.
  destruct Hvalid as (_ & Hdec & _). destruct Hcs as (Hb & _ & _).
  rewrite (Sequential_forward_rows _ F (PointCloudCompletionNet.output_points m * 3) b
             (map (fun c => pool F (map (layers_point (encoder_layers (PointCloudCompletionNet.encoder m))) c)) cs) Hdec).
  - now rewrite map_map.
  - now rewrite length_map.
  - apply Forall_map. apply Forall_forall. intros c _. apply pool_length.
Qed.

Lemma PointCloudCompletionNet_forward_factor x :
  PointCloudCompletionNet.forward m x
  = (flat <- decoder_output (ConvModel m) x ;;
     view flat [None; Some (PointCloudDecoder.output_points
                              (PointCloudCompletionNet.decoder m)); Some 3]).
Proof.
  unfold PointCloudCompletionNet.forward. cbn [decoder_output].
  unfold PointCloudCompletionNet_features.
  destruct (transpose_1_2 x) as [x1|]; cbn [bind]; [|reflexivity].
  destruct (PointCloudEncoder.forward _ x1) as [x2|]; cbn [bind]; [|reflexivity].
  apply PointCloudDecoder_forward_factor.
Qed.

Lemma PointCloudCompletionNet_forward_batch b n cs :
  cloud_batch b n 3 cs -> 0 < n ->
  PointCloudCompletionNet.forward m (mkTensor [b; n; 3] (concat (concat cs)))
  = Ok (mkTensor [b; PointCloudCompletionNet.output_points m; 3]
          (concat (map (fun c => (layers_point (decoder_layers (PointCloudCompletionNet.decoder m))) (pool F (map (layers_point (encoder_layers (PointCloudCompletionNet.encoder m))) c))) cs))).
Proof.
  intros Hcs Hpos. rewrite PointCloudCompletionNet_forward_factor.
  rewrite (ConvNet_decoder_output_batch b n cs Hcs Hpos). cbn [bind].
  destruct Hvalid as (_ & _ & -> & _ & Ho).
  now apply view_points.
Qed.

End ConvForward2.

(** ** Both variants: the forward pass in closed form *)

Section Complete.

Variable model : Model.
Variable F : nat.
Hypothesis Hvalid : valid_model model F.

Lemma global_descriptor_batch b n cs :
  cloud_batch b n 3 cs -> 0 < n ->
  global_descriptor model (mkTensor [b; n; 3] (concat (concat cs)))
  = Ok (mkTensor (descriptor_shape model b F)
          (concat (map (fun c => pool F (map (point_feature model) c)) cs))).
Proof.
  intros Hcs Hpos. destruct model as [m|m]; cbn in Hvalid |- *.
  - destruct Hvalid as (Hv & <-).
    now apply SimplePCN_global_feature_batch.
  - now apply PointCloudCompletionNet_features_batch.
Qed.

Lemma decoder_output_batch b n cs :
  cloud_batch b n 3 cs -> 0 < n ->
  decoder_output model (mkTensor [b; n; 3] (concat (concat cs)))
  = Ok (mkTensor [b; output_count model * 3]
          (concat (map (fun c => decode_descriptor model
                                   (pool F (map (point_feature model) c))) cs))).
Proof.
  intros Hcs Hpos. destruct model as [m|m]; cbn in Hvalid |- *.
  - destruct Hvalid as (Hv & <-).
    now apply SimplePCN_completed_batch.
  - now apply (ConvNet_decoder_output_batch m F Hvalid).
Qed.

Lemma complete_batch b n cs :
  cloud_batch b n 3 cs -> 0 < n ->
  complete model (mkTensor [b; n; 3] (concat (concat cs)))
  = Ok (mkTensor [b; output_count model; 3]
          (concat (map (fun c => decode_descriptor model
                                   (pool F (map (point_feature model) c))) cs))).
Proof.
  intros Hcs Hpos. destruct model as [m|m]; cbn in Hvalid |- *.
  - destruct Hvalid as (Hv & <-).
    now apply SimplePCN_forward_batch.
  - now apply PointCloudCompletionNet_forward_batch.
Qed.

Lemma decode_descriptor_length g :
  length g = F -> length (decode_descriptor model g) = output_count model * 3.
Proof.
  intros Hg. destruct model as [m|m]; cbn in Hvalid |- *.
  - destruct Hvalid as ((_ & _ & _ & Hd & _) & <-).
    now apply (layers_point_length _ _ _ g Hd).
  - destruct Hvalid as (_ & Hd & _).
    now apply (layers_point_length _ _ _ g Hd).
Qed.

End Complete.

(** ** The networks and the layout of their input *)

Lemma PointEncoder_forward_layout blocks t t' :
  blocks <> [] -> shape t = shape t' -> data t = data t' ->
  Sequential.forward (PointEncoder_layers blocks) t
  = Sequential.forward (PointEncoder_layers blocks) t'.
Proof.
  intros Hb Hs Hd. destruct blocks as [|[l bn] rest]; [congruence|].
  unfold PointEncoder_layers. cbn [map concat block_layers fst snd app].
  cbn [Sequential.forward Layer_forward].
  now rewrite (Linear_forward_layout l t t' Hs Hd).
Qed.

Lemma PointCloudEncoder_forward_layout e t t' :
  shape t = shape t' -> data t = data t' ->
  PointCloudEncoder.forward e t = PointCloudEncoder.forward e t'.
Proof.
  intros Hs Hd. unfold PointCloudEncoder.forward.
  now rewrite (Conv1d_forward_layout _ t t' Hs Hd).
Qed.

Lemma transpose_1_2_contiguous x :
  match transpose_1_2 x, transpose_1_2 (contiguous x) with
  | Ok y, Ok y' => shape y = shape y' /\ data y = data y'
  | Raise e, Raise e' => e = e'
  | _, _ => False
  end.
Proof.
  unfold transpose_1_2, contiguous. cbn [shape data].
  destruct (shape x) as [|b [|n [|d post]]]; cbn; auto.
Qed.

(** Every layout of the input serves the second variant. *)
Lemma PointCloudCompletionNet_features_layout m x :
  PointCloudCompletionNet_features m x
  = PointCloudCompletionNet_features m (contiguous x).
Proof.
  unfold PointCloudCompletionNet_features.
  pose proof (transpose_1_2_contiguous x) as H.
  destruct (transpose_1_2 x) as [y|e], (transpose_1_2 (contiguous x)) as [y'|e'];
    try contradiction; cbn [bind].
  - destruct H as [Hs Hd]. now apply PointCloudEncoder_forward_layout.
  - now subst.
Qed.

Lemma PointCloudCompletionNet_forward_layout m x :
  PointCloudCompletionNet.forward m x
  = PointCloudCompletionNet.forward m (contiguous x).
Proof.
  unfold PointCloudCompletionNet.forward.
  pose proof (transpose_1_2_contiguous x) as H.
  destruct (transpose_1_2 x) as [y|e], (transpose_1_2 (contiguous x)) as [y'|e'];
    try contradiction; cbn [bind].
  - destruct H as [Hs Hd]. now rewrite (PointCloudEncoder_forward_layout _ y y' Hs Hd).
  - now subst.
Qed.

(** The first variant takes the layouts that [view(-1, 3)] takes. *)
Section SimplePCNLayout.

Variable m : SimplePCN.t.
Hypothesis Hvalid : valid_SimplePCN m.

Variable x : Tensor.
Variables b n : nat.
Hypothesis Hshape : shape x = [b; n; 3].
Hypothesis Hlayout : viewable_as_rows x.

Lemma SimplePCN_global_feature_layout :
  SimplePCN_global_feature m x = SimplePCN_global_feature m (contiguous x).
Proof.
  destruct Hvalid as ((eblocks & Hne & He) & _).
  destruct (view_rows_any_layout x b n Hshape Hlayout) as [st E].
  unfold SimplePCN_global_feature.
  change (shape_at (contiguous x)) with (shape_at x).
  rewrite E, (view_rows (contiguous x) b n 3) by (assumption || reflexivity || lia).
  destruct (shape_at x 0) as [bs|]; cbn [bind]; [|reflexivity].
  destruct (shape_at x 1) as [np|]; cbn [bind]; [|reflexivity].
  rewrite He.
  now rewrite (PointEncoder_forward_layout eblocks _
                 (mkTensor [b * n; 3] (data (contiguous x))) Hne)
    by reflexivity.
Qed.

Lemma SimplePCN_completed_layout :
  SimplePCN_completed m x = SimplePCN_completed m (contiguous x).
Proof. unfold SimplePCN_completed. now rewrite SimplePCN_global_feature_layout. Qed.

Lemma SimplePCN_forward_layout :
  SimplePCN.forward m x = SimplePCN.forward m (contiguous x).
Proof.
  rewrite !SimplePCN_forward_factor, SimplePCN_completed_layout. reflexivity.
Qed.

End SimplePCNLayout.

Lemma complete_layout model f x b n :
  valid_model model f -> shape x = [b; n; 3] -> accepts_layout model x ->
  complete model x = complete model (contiguous x).
Proof.
  destruct model as [m|m]; cbn [valid_model accepts_layout complete].
  - intros [Hv _] Hs Hl. now apply (SimplePCN_forward_layout m Hv x b n).
  - intros _ _ _. apply PointCloudCompletionNet_forward_layout.
Qed.

Lemma global_descriptor_layout model f x b n :
  valid_model model f -> shape x = [b; n; 3] -> accepts_layout model x ->
  global_descriptor model x = global_descriptor model (contiguous x).
Proof.
  destruct model as [m|m]; cbn [valid_model accepts_layout global_descriptor].
  - intros [Hv _] Hs Hl. now apply (SimplePCN_global_feature_layout m Hv x b n).
  - intros _ _ _. apply PointCloudCompletionNet_features_layout.
Qed.

Lemma decoder_output_layout model f x b n :
  valid_model model f -> shape x = [b; n; 3] -> accepts_layout model x ->
  decoder_output model x = decoder_output model (contiguous x).
Proof.
  destruct model as [m|m]; cbn [valid_model accepts_layout decoder_output].
  - intros [Hv _] Hs Hl. now apply (SimplePCN_completed_layout m Hv x b n).
  - intros _ _ _. now rewrite PointCloudCompletionNet_features_layout.
Qed.

Lemma contiguous_accepted model x b n d :
  shape x = [b; n; d] -> 0 < n -> is_contiguous x -> accepts_layout model x.
Proof.
  intros Hs Hn Hc. destruct model; cbn [accepts_layout]; [|exact I].
  unfold viewable_as_rows. rewrite Hc, Hs.
  cbn [contiguous_strides nth fold_right].
  right. right. rewrite Nat.max_l by lia. lia.
Qed.

(** ** Same points, and signs *)

Lemma Permutation_same_points (c c' : list (list R)) :
  Permutation c c' -> same_points c c'.
Proof.
  intros H p. split; apply Permutation_in; [assumption|now apply Permutation_sym].
Qed.





(** ** Indexing *)

Lemma offset_2 b w k j :
  k < b -> j < w -> offset [b; w] [k; j] = Some (k * w + j).
Proof.
  intros Hk Hj. cbn [offset].
  destruct (Nat.ltb_spec k b); [|lia]. destruct (Nat.ltb_spec j w); [|lia].
  rewrite numel_1. change (numel []) with 1. f_equal. lia.
Qed.

Lemma offset_3 b o w k i c :
  k < b -> i < o -> c < w ->
  offset [b; o; w] [k; i; c] = Some (k * (o * w) + (i * w + c)).
Proof.
  intros Hk Hi Hc. cbn [offset].
  destruct (Nat.ltb_spec k b); [|lia]. destruct (Nat.ltb_spec i o); [|lia].
  destruct (Nat.ltb_spec c w); [|lia].
  rewrite numel_2, numel_1. change (numel []) with 1. f_equal. lia.
Qed.

(** ** Rejected inputs *)

Lemma contiguous_eq x : is_contiguous x -> x = mkTensor (shape x) (data x).
Proof. destruct x as [s st dt]. unfold is_contiguous. cbn. now intros ->. Qed.

Lemma Sequential_forward_shape layers i o x r :
  chained i layers o -> shape x = [r; i] -> wf_tensor x -> is_contiguous x ->
  exists dt, Sequential.forward layers x = Ok (mkTensor [r; o] dt).
Proof.
  intros Hch Hs Hwf Hc. unfold wf_tensor in Hwf. rewrite Hs, numel_2 in Hwf.
  rewrite (contiguous_eq x Hc), Hs.
  rewrite <- (concat_chunks i r (data x)) by lia.
  rewrite (Sequential_forward_rows layers i o r _ Hch).
  - eexists. reflexivity.
  - apply chunks_length.
  - apply chunks_Forall_length. lia.
Qed.

(** The encoder of a valid model on rows of points in any layout. *)
Lemma SimplePCN_encoder_shape m x r :
  valid_SimplePCN m -> shape x = [r; 3] -> wf_tensor x ->
  exists dt,
    Sequential.forward (SimplePCN.encoder m) x
    = Ok (mkTensor [r; SimplePCN.feature_dim m] dt).
Proof.
  intros ((eblocks & Hne & He) & _ & Henc & _) Hs Hwf.
  destruct (Sequential_forward_shape (SimplePCN.encoder m) 3
              (SimplePCN.feature_dim m) (contiguous x) r Henc Hs Hwf eq_refl)
    as [dt E].
  exists dt. rewrite <- E, He.
  now apply PointEncoder_forward_layout.
Qed.

Lemma view_rows_cases t s :
  shape t = s ->
  view t [None; Some 3]
  = if numel s mod 3 =? 0 then
      match compute_stride s (strides t) [numel s / 3; 3] with
      | Some st => Ok (mkStrided [numel s / 3; 3] st (data t))
      | None => Raise view_stride
      end
    else Raise view_size.
Proof.
  intros Hs. unfold view, infer_size. rewrite Hs.
  cbn [inferred_count filter length known_size fold_right fill_dims map].
  change (3 * 1 =? 0) with false. cbv iota. change (3 * 1) with 3.
  now destruct (numel s mod 3 =? 0).
Qed.

Lemma view_3_cases t s b n f :
  shape t = s -> is_contiguous t ->
  view t [Some b; Some n; Some f]
  = if numel s =? b * (n * f) then Ok (mkTensor [b; n; f] (data t))
    else Raise view_size.
Proof.
  intros Hs Hc. rewrite (view_contiguous t _ Hc). unfold infer_size. rewrite Hs.
  cbn [inferred_count filter length known_size fold_right fill_dims map].
  rewrite Nat.mul_1_r. now destruct (numel s =? b * (n * f)).
Qed.

(** A tensor without entries can be viewed in any layout. *)
Lemma compute_stride_empty s st s' :
  s <> [] -> numel s = 0 -> exists st', compute_stride s st s' = Some st'.
Proof.
  intros Hne Hz. rewrite compute_stride_nonscalar, Hz by exact Hne.
  cbn [Nat.eqb]. destruct (list_eq_dec Nat.eq_dec s s'); eexists; reflexivity.
Qed.

Lemma SimplePCN_rejects m x b n d :
  valid_SimplePCN m ->
  shape x = [b; n; d] -> wf_tensor x -> 0 < b -> n = 0 \/ d <> 3 ->
  exists e,
    SimplePCN.forward m x = Raise e /\
    if n =? 0 then e = reduce_empty
    else e = view_size \/ (e = view_stride /\ ~ is_contiguous x).
Proof.
  intros Hv Hs Hwf Hb Hbad. pose proof Hv as (_ & _ & _ & _ & HF & _).
  unfold wf_tensor in Hwf. rewrite Hs, numel_3 in Hwf.
  unfold SimplePCN.forward, shape_at. rewrite Hs. cbn [nth_error bind].
  rewrite (view_rows_cases x _ Hs), numel_3.
  destruct (Nat.eqb_spec ((b * (n * d)) mod 3) 0) as [Hmod|Hmod].
  2:{ exists view_size. split; [reflexivity|].
      destruct (Nat.eqb_spec n 0) as [->|_]; [|now left].
      exfalso. apply Hmod. now rewrite Nat.mul_0_l, Nat.mul_0_r. }
  set (r := b * (n * d) / 3).
  assert (Hr : r * 3 = b * (n * d)).
  { apply Nat.Div0.div_exact in Hmod. unfold r. lia. }
  destruct (compute_stride [b; n; d] (strides x) [r; 3]) as [st|] eqn:Est.
  2:{ exists view_stride. split; [reflexivity|].
      destruct (Nat.eqb_spec n 0) as [->|_].
      - exfalso.
        destruct (compute_stride_empty [b; 0; d] (strides x) [r; 3]) as [st' E];
          [discriminate|rewrite numel_3; lia|congruence].
      - right. split; [reflexivity|]. intros Hc. unfold is_contiguous in Hc.
        rewrite Hc, Hs, compute_stride_contiguous in Est; [discriminate|].
        rewrite numel_3, numel_2. lia. }
  cbn [bind].
  destruct (SimplePCN_encoder_shape m (mkStrided [r; 3] st (data x)) r Hv eq_refl)
    as [dt ->]; [unfold wf_tensor; cbn [shape data]; rewrite numel_2; lia|].
  cbn [bind].
  rewrite (view_3_cases (mkTensor [r; SimplePCN.feature_dim m] dt)
             [r; SimplePCN.feature_dim m] b n (SimplePCN.feature_dim m))
    by reflexivity.
  rewrite numel_2.
  destruct (Nat.eqb_spec (r * SimplePCN.feature_dim m)
              (b * (n * SimplePCN.feature_dim m))) as [Heq|Hneq].
  2:{ exists view_size. split; [reflexivity|].
      destruct (Nat.eqb_spec n 0) as [->|_]; [|now left].
      exfalso. apply Hneq. rewrite Nat.mul_0_l, Nat.mul_0_r in Hr |- *.
      assert (R0 : r = 0) by lia. now rewrite R0. }
  cbn [bind]. unfold torch.max. cbn [shape length Nat.leb nth].
  destruct (Nat.eqb_spec n 0) as [_|Hn0]; [now exists reduce_empty|].
  exfalso. destruct Hbad as [?|Hd]; [contradiction|].
  apply Hd. nia.
Qed.

Lemma PointCloudCompletionNet_rejects m f x b n d :
  valid_PointCloudCompletionNet m f ->
  shape x = [b; n; d] -> n = 0 \/ d <> 3 ->
  PointCloudCompletionNet.forward m x = Raise conv_channels \/
  PointCloudCompletionNet.forward m x = Raise conv_kernel_size.
Proof.
  intros ((c1 & c2 & H1 & _) & _) Hs Hbad.
  destruct H1 as (_ & _ & _ & (Hw & _) & (Hbs & _)).
  unfold PointCloudCompletionNet.forward, transpose_1_2. rewrite Hs. cbn [bind].
  unfold PointCloudEncoder.forward, Conv1d.forward. rewrite Hw. cbn [shape data].
  unfold Conv1d.conv_batch. rewrite Hbs, numel_1, Nat.eqb_refl.
  destruct (Nat.eqb_spec d 3) as [->|_]; cbn [negb bind]; [|now left].
  destruct Hbad as [->|?]; [|congruence]. right. reflexivity.
Qed.

(** ** What the constructors build: the first variant *)

Lemma zeros_has_shape s : has_shape (zeros s) s.
Proof. split; [reflexivity|apply repeat_length]. Qed.

Lemma ones_has_shape s : has_shape (ones s) s.
Proof. split; [reflexivity|apply repeat_length]. Qed.

Lemma uniform_has_shape t a b g : has_shape (fst (uniform_ t a b g)) (shape t).
Proof. split; [reflexivity|]. cbn. now rewrite length_map, length_seq. Qed.

Lemma kaiming_uniform_has_shape s a g :
  has_shape (fst (init.kaiming_uniform_ (empty s) a g)) s.
Proof.
  unfold init.kaiming_uniform_.
  destruct (existsb (Nat.eqb 0) (shape (empty s))).
  - apply zeros_has_shape.
  - apply (uniform_has_shape (empty s)).
Qed.

Lemma xavier_uniform_has_shape t g :
  has_shape (fst (init.xavier_uniform_ t g)) (shape t).
Proof. apply uniform_has_shape. Qed.

Lemma Linear_init_wf i o g : wf_Linear (fst (Linear.__init__ i o g)) i o.
Proof.
  unfold Linear.__init__.
  pose proof (kaiming_uniform_has_shape [o; i] (sqrt 5) g) as Hw.
  destruct (init.kaiming_uniform_ (empty [o; i]) (sqrt 5) g) as [w g1].
  cbn [fst] in Hw.
  match goal with |- context [uniform_ ?t ?a ?b ?g] =>
    pose proof (uniform_has_shape t a b g) as Hb;
    destruct (uniform_ t a b g) as [bs g2]
  end.
  cbn [fst] in Hb |- *. repeat split; try apply Hw; apply Hb.
Qed.

Lemma Conv1d_init_wf i o g : wf_Conv1d (fst (Conv1d.__init__ i o 1 g)) i o.
Proof.
  unfold Conv1d.__init__.
  pose proof (kaiming_uniform_has_shape [o; i; 1] (sqrt 5) g) as Hw.
  destruct (init.kaiming_uniform_ (empty [o; i; 1]) (sqrt 5) g) as [w g1].
  cbn [fst] in Hw.
  match goal with |- context [uniform_ ?t ?a ?b ?g] =>
    pose proof (uniform_has_shape t a b g) as Hb;
    destruct (uniform_ t a b g) as [bs g2]
  end.
  cbn [fst] in Hb |- *. repeat split; try apply Hw; apply Hb.
Qed.

Lemma BatchNorm1d_init_wf c :
  wf_BatchNorm1d (BatchNorm1d.eval (BatchNorm1d.__init__ c)) c.
Proof.
  unfold wf_BatchNorm1d, BatchNorm1d.eval, BatchNorm1d.__init__.
  cbn [BatchNorm1d.num_features BatchNorm1d.weight BatchNorm1d.bias
       BatchNorm1d.running_mean BatchNorm1d.running_var BatchNorm1d.training].
  repeat split; try apply repeat_length.
Qed.

Lemma init_weights_Linear_wf l i o g :
  wf_Linear l i o -> wf_Linear (fst (init_weights_Linear l g)) i o.
Proof.
  intros (Hi & Ho & (Hs & _) & (Hbs & _)). unfold init_weights_Linear.
  pose proof (xavier_uniform_has_shape (Linear.weight l) g) as Hw.
  destruct (init.xavier_uniform_ (Linear.weight l) g) as [w g1].
  cbn [fst] in Hw |- *. rewrite Hs in Hw. unfold wf_Linear, init.zeros_.
  cbn [Linear.in_features Linear.out_features Linear.weight Linear.bias].
  rewrite Hbs. repeat split; try assumption; try apply Hw.
  apply repeat_length.
Qed.

Lemma init_weights_Conv1d_wf cv i o g :
  wf_Conv1d cv i o -> wf_Conv1d (fst (init_weights_Conv1d cv g)) i o.
Proof.
  intros (Hi & Ho & Hk & (Hs & _) & (Hbs & _)). unfold init_weights_Conv1d.
  pose proof (xavier_uniform_has_shape (Conv1d.weight cv) g) as Hw.
  destruct (init.xavier_uniform_ (Conv1d.weight cv) g) as [w g1].
  cbn [fst] in Hw |- *. rewrite Hs in Hw. unfold wf_Conv1d, init.zeros_.
  cbn [Conv1d.in_channels Conv1d.out_channels Conv1d.kernel_size
       Conv1d.weight Conv1d.bias].
  rewrite Hbs. repeat split; try assumption; try apply Hw.
  apply repeat_length.
Qed.

(** The layers of a [SimplePCN] as its constructor builds them. *)
Lemma SimplePCN_init_layers ip op fd g :
  exists e1 e2 e3 d1 d2 d3,
    fst (SimplePCN.__init__ ip op fd g)
    = SimplePCN.mk ip op fd
        (PointEncoder_layers
           [ (e1, BatchNorm1d.__init__ 128); (e2, BatchNorm1d.__init__ 256);
             (e3, BatchNorm1d.__init__ fd) ])
        (PointDecoder_layers
           [ (d1, BatchNorm1d.__init__ 1024); (d2, BatchNorm1d.__init__ 2048) ]
           d3) /\
    wf_Linear e1 3 128 /\ wf_Linear e2 128 256 /\ wf_Linear e3 256 fd /\
    wf_Linear d1 fd 1024 /\ wf_Linear d2 1024 2048 /\
    wf_Linear d3 2048 (op * 3).
Proof.
  unfold SimplePCN.__init__.
  pose proof (Linear_init_wf 3 128 g) as W1.
  destruct (Linear.__init__ 3 128 g) as [e1 g1].
  pose proof (Linear_init_wf 128 256 g1) as W2.
  destruct (Linear.__init__ 128 256 g1) as [e2 g2].
  pose proof (Linear_init_wf 256 fd g2) as W3.
  destruct (Linear.__init__ 256 fd g2) as [e3 g3].
  pose proof (Linear_init_wf fd 1024 g3) as W4.
  destruct (Linear.__init__ fd 1024 g3) as [d1 g4].
  pose proof (Linear_init_wf 1024 2048 g4) as W5.
  destruct (Linear.__init__ 1024 2048 g4) as [d2 g5].
  pose proof (Linear_init_wf 2048 (op * 3) g5) as W6.
  destruct (Linear.__init__ 2048 (op * 3) g5) as [d3 g6].
  exists e1, e2, e3, d1, d2, d3. cbn [fst] in *.
  split; [reflexivity|]. repeat (split; [assumption|]). assumption.
Qed.

Lemma block_chained l bn i o rest o' :
  wf_Linear l i o -> wf_BatchNorm1d bn o -> chained o rest o' ->
  chained i (LinearLayer l :: BatchNormLayer bn :: ReLULayer :: rest) o'.
Proof.
  intros Hl Hbn Hrest.
  apply (chained_cons _ _ i o o'); [now constructor|].
  apply (chained_cons _ _ o o o'); [now constructor|].
  apply (chained_cons _ _ o o o'); [constructor|assumption].
Qed.

Lemma SimplePCN_init_valid ip op fd g :
  0 < fd -> 0 < op ->
  valid_SimplePCN (SimplePCN.eval (fst (SimplePCN.__init__ ip op fd g))).
Proof.
  intros Hfd Hop.
  destruct (SimplePCN_init_layers ip op fd g)
    as (e1 & e2 & e3 & d1 & d2 & d3 & -> & W1 & W2 & W3 & W4 & W5 & W6).
  unfold valid_SimplePCN, SimplePCN.eval.
  cbn [SimplePCN.encoder SimplePCN.decoder SimplePCN.feature_dim
       SimplePCN.output_points].
  split; [|split; [|split; [|split; [|split]]]]; try assumption.
  - exists [ (e1, BatchNorm1d.eval (BatchNorm1d.__init__ 128));
             (e2, BatchNorm1d.eval (BatchNorm1d.__init__ 256));
             (e3, BatchNorm1d.eval (BatchNorm1d.__init__ fd)) ].
    split; [discriminate|reflexivity].
  - exists [ (d1, BatchNorm1d.eval (BatchNorm1d.__init__ 1024));
             (d2, BatchNorm1d.eval (BatchNorm1d.__init__ 2048)) ], d3.
    reflexivity.
  - unfold PointEncoder_layers, block_layers, Sequential.eval.
    cbn [map concat app fst snd Layer_eval].
    repeat (eapply block_chained; [eassumption|apply BatchNorm1d_init_wf|]).
    constructor.
  - unfold PointDecoder_layers, block_layers, Sequential.eval.
    cbn [map concat app fst snd Layer_eval].
    repeat (eapply block_chained; [eassumption|apply BatchNorm1d_init_wf|]).
    eapply chained_cons; [constructor; eassumption|constructor].
Qed.

Lemma create_model_valid g :
  valid_model (SimpleModel (fst (create_model g))) 512.
Proof.
  unfold create_model.
  pose proof (SimplePCN_init_valid 1024 2048 512 g) as H.
  destruct (SimplePCN.__init__ 1024 2048 512 g) as [m g'] eqn:E.
  cbn [fst] in *. split.
  - apply H; lia.
  - pose proof (SimplePCN_init_layers 1024 2048 512 g) as (? & ? & ? & ? & ? & ? & Hm & _).
    rewrite E in Hm. cbn [fst] in Hm. now rewrite Hm.
Qed.

Lemma create_model_output_count g :
  output_count (SimpleModel (fst (create_model g))) = 2048.
Proof.
  unfold create_model.
  pose proof (SimplePCN_init_layers 1024 2048 512 g) as (? & ? & ? & ? & ? & ? & Hm & _).
  destruct (SimplePCN.__init__ 1024 2048 512 g) as [m g'].
  cbn [fst] in *. now rewrite Hm.
Qed.

(** ** What the constructors build: the second variant *)

Lemma PointCloudEncoder_init_fields idim fd g :
  exists c1 c2 c3,
    fst (PointCloudEncoder.__init__ idim fd g)
    = PointCloudEncoder.mk c1 c2 c3 (BatchNorm1d.__init__ 64)
        (BatchNorm1d.__init__ 128) (BatchNorm1d.__init__ fd) /\
    wf_Conv1d c1 idim 64 /\ wf_Conv1d c2 64 128 /\ wf_Conv1d c3 128 fd.
Proof.
  unfold PointCloudEncoder.__init__.
  pose proof (Conv1d_init_wf idim 64 g) as W1.
  destruct (Conv1d.__init__ idim 64 1 g) as [c1 g1].
  pose proof (Conv1d_init_wf 64 128 g1) as W2.
  destruct (Conv1d.__init__ 64 128 1 g1) as [c2 g2].
  pose proof (Conv1d_init_wf 128 fd g2) as W3.
  destruct (Conv1d.__init__ 128 fd 1 g2) as [c3 g3].
  exists c1, c2, c3. cbn [fst] in *.
  split; [reflexivity|]. repeat (split; [assumption|]). assumption.
Qed.

Lemma PointCloudDecoder_init_fields fd op g :
  exists f1 f2 f3,
    fst (PointCloudDecoder.__init__ fd op g)
    = PointCloudDecoder.mk op f1 f2 f3 (BatchNorm1d.__init__ 2048)
        (BatchNorm1d.__init__ 4096) /\
    wf_Linear f1 fd 2048 /\ wf_Linear f2 2048 4096 /\
    wf_Linear f3 4096 (op * 3).
Proof.
  unfold PointCloudDecoder.__init__.
  pose proof (Linear_init_wf fd 2048 g) as W1.
  destruct (Linear.__init__ fd 2048 g) as [f1 g1].
  pose proof (Linear_init_wf 2048 4096 g1) as W2.
  destruct (Linear.__init__ 2048 4096 g1) as [f2 g2].
  pose proof (Linear_init_wf 4096 (op * 3) g2) as W3.
  destruct (Linear.__init__ 4096 (op * 3) g2) as [f3 g3].
  exists f1, f2, f3. cbn [fst] in *.
  split; [reflexivity|]. repeat (split; [assumption|]). assumption.
Qed.

Lemma PointCloudCompletionNet_init_fields ip op g :
  exists c1 c2 c3 f1 f2 f3,
    fst (PointCloudCompletionNet.__init__ ip op g)
    = PointCloudCompletionNet.mk ip op
        (PointCloudEncoder.mk c1 c2 c3 (BatchNorm1d.__init__ 64)
           (BatchNorm1d.__init__ 128) (BatchNorm1d.__init__ 1024))
        (PointCloudDecoder.mk op f1 f2 f3 (BatchNorm1d.__init__ 2048)
           (BatchNorm1d.__init__ 4096)) /\
    wf_Conv1d c1 3 64 /\ wf_Conv1d c2 64 128 /\ wf_Conv1d c3 128 1024 /\
    wf_Linear f1 1024 2048 /\ wf_Linear f2 2048 4096 /\
    wf_Linear f3 4096 (op * 3).
Proof.
  unfold PointCloudCompletionNet.__init__.
  pose proof (PointCloudEncoder_init_fields 3 1024 g)
    as (c1 & c2 & c3 & He & W1 & W2 & W3).
  destruct (PointCloudEncoder.__init__ 3 1024 g) as [enc g1].
  pose proof (PointCloudDecoder_init_fields 1024 op g1)
    as (f1 & f2 & f3 & Hd & W4 & W5 & W6).
  destruct (PointCloudDecoder.__init__ 1024 op g1) as [dec g2].
  cbn [fst] in *. subst enc dec.
  exists c1, c2, c3, f1, f2, f3.
  split; [reflexivity|]. repeat (split; [assumption|]). assumption.
Qed.

Lemma decoder_layers_chained d f h1 h2 o :
  wf_Linear (PointCloudDecoder.fc1 d) f h1 ->
  wf_BatchNorm1d (PointCloudDecoder.bn1 d) h1 ->
  wf_Linear (PointCloudDecoder.fc2 d) h1 h2 ->
  wf_BatchNorm1d (PointCloudDecoder.bn2 d) h2 ->
  wf_Linear (PointCloudDecoder.fc3 d) h2 o ->
  chained f (decoder_layers d) o.
Proof.
  intros W1 B1 W2 B2 W3.
  unfold decoder_layers, PointDecoder_layers, block_layers.
  cbn [map concat app fst snd].
  apply (block_chained _ _ f h1 _ o W1 B1).
  apply (block_chained _ _ h1 h2 _ o W2 B2).
  apply (chained_cons _ _ h2 o o); [now constructor|constructor].
Qed.

Lemma PointCloudCompletionNet_init_valid ip op g :
  0 < op ->
  valid_PointCloudCompletionNet
    (PointCloudCompletionNet.eval (fst (PointCloudCompletionNet.__init__ ip op g)))
    1024.
Proof.
  intros Hop.
  destruct (PointCloudCompletionNet_init_fields ip op g)
    as (c1 & c2 & c3 & f1 & f2 & f3 & -> & W1 & W2 & W3 & W4 & W5 & W6).
  unfold valid_PointCloudCompletionNet, PointCloudCompletionNet.eval,
    PointCloudEncoder.eval, PointCloudDecoder.eval.
  cbn [PointCloudCompletionNet.encoder PointCloudCompletionNet.decoder
       PointCloudCompletionNet.output_points
       PointCloudEncoder.conv1 PointCloudEncoder.conv2 PointCloudEncoder.conv3
       PointCloudEncoder.bn1 PointCloudEncoder.bn2 PointCloudEncoder.bn3
       PointCloudDecoder.output_points].
  split; [|split; [|split; [reflexivity|split; [lia|assumption]]]].
  - exists 64, 128.
    repeat (split; [assumption || apply BatchNorm1d_init_wf|]).
    apply BatchNorm1d_init_wf.
  - apply (decoder_layers_chained _ 1024 2048 4096);
      cbn [PointCloudDecoder.fc1 PointCloudDecoder.fc2 PointCloudDecoder.fc3
           PointCloudDecoder.bn1 PointCloudDecoder.bn2];
      assumption || apply BatchNorm1d_init_wf.
Qed.

Lemma chained_cons_inv m rest i o :
  chained i (m :: rest) o -> exists j, layer_dims m i j /\ chained j rest o.
Proof. intros H. inversion H; subst. eauto. Qed.

Lemma chained_nil_inv i o : chained i [] o -> i = o.
Proof. intros H. now inversion H. Qed.

Lemma layer_dims_linear_inv l i o :
  layer_dims (LinearLayer l) i o -> wf_Linear l i o.
Proof. intros H. now inversion H. Qed.

Lemma layer_dims_batchnorm_inv bn i o :
  layer_dims (BatchNormLayer bn) i o -> i = o /\ wf_BatchNorm1d bn i.
Proof. intros H. inversion H; subst. now split. Qed.

Lemma layer_dims_relu_inv i o : layer_dims ReLULayer i o -> i = o.
Proof. intros H. now inversion H. Qed.

Lemma block_chained_inv l bn rest i o :
  chained i (LinearLayer l :: BatchNormLayer bn :: ReLULayer :: rest) o ->
  exists h, wf_Linear l i h /\ wf_BatchNorm1d bn h /\ chained h rest o.
Proof.
  intros H.
  apply chained_cons_inv in H. destruct H as (h & Hl & H).
  apply chained_cons_inv in H. destruct H as (h' & Hb & H).
  apply chained_cons_inv in H. destruct H as (h'' & Hr & H).
  apply layer_dims_linear_inv in Hl.
  apply layer_dims_batchnorm_inv in Hb. destruct Hb as (<- & Hb).
  apply layer_dims_relu_inv in Hr. subst h''.
  exists h. split; [assumption|]. split; assumption.
Qed.

Lemma decoder_layers_chained_inv d f o :
  chained f (decoder_layers d) o ->
  exists h1 h2,
    wf_Linear (PointCloudDecoder.fc1 d) f h1 /\
    wf_BatchNorm1d (PointCloudDecoder.bn1 d) h1 /\
    wf_Linear (PointCloudDecoder.fc2 d) h1 h2 /\
    wf_BatchNorm1d (PointCloudDecoder.bn2 d) h2 /\
    wf_Linear (PointCloudDecoder.fc3 d) h2 o.
Proof.
  unfold decoder_layers, PointDecoder_layers, block_layers.
  cbn [map concat app fst snd]. intros H.
  apply block_chained_inv in H. destruct H as (h1 & W1 & B1 & H).
  apply block_chained_inv in H. destruct H as (h2 & W2 & B2 & H).
  apply chained_cons_inv in H. destruct H as (j & W3 & H).
  apply chained_nil_inv in H. subst j. apply layer_dims_linear_inv in W3.
  exists h1, h2. repeat (split; [assumption|]). assumption.
Qed.

Lemma apply_init_weights_valid m f g :
  valid_PointCloudCompletionNet m f ->
  valid_PointCloudCompletionNet (fst (apply_init_weights m g)) f.
Proof.
  intros ((c1 & c2 & H1 & B1 & H2 & B2 & H3 & B3) & Hdec & Hout & Hf & Hop).
  destruct (decoder_layers_chained_inv _ _ _ Hdec)
    as (h1 & h2 & W1 & D1 & W2 & D2 & W3).
  unfold apply_init_weights.
  pose proof (init_weights_Conv1d_wf _ 3 c1 g H1) as X1.
  destruct (init_weights_Conv1d _ g) as [k1 g1].
  pose proof (init_weights_Conv1d_wf _ c1 c2 g1 H2) as X2.
  destruct (init_weights_Conv1d _ g1) as [k2 g2].
  pose proof (init_weights_Conv1d_wf _ c2 f g2 H3) as X3.
  destruct (init_weights_Conv1d _ g2) as [k3 g3].
  pose proof (init_weights_Linear_wf _ f h1 g3 W1) as Y1.
  destruct (init_weights_Linear _ g3) as [l1 g4].
  pose proof (init_weights_Linear_wf _ h1 h2 g4 W2) as Y2.
  destruct (init_weights_Linear _ g4) as [l2 g5].
  pose proof (init_weights_Linear_wf _ h2 _ g5 W3) as Y3.
  destruct (init_weights_Linear _ g5) as [l3 g6].
  cbn [fst] in *. unfold valid_PointCloudCompletionNet.
  cbn [PointCloudCompletionNet.encoder PointCloudCompletionNet.decoder
       PointCloudCompletionNet.output_points
       PointCloudEncoder.conv1 PointCloudEncoder.conv2 PointCloudEncoder.conv3
       PointCloudEncoder.bn1 PointCloudEncoder.bn2 PointCloudEncoder.bn3
       PointCloudDecoder.output_points].
  split; [|split; [|split; [assumption|split; assumption]]].
  - exists c1, c2. repeat (split; [assumption|]). assumption.
  - apply (decoder_layers_chained _ f h1 h2);
      cbn [PointCloudDecoder.fc1 PointCloudDecoder.fc2 PointCloudDecoder.fc3
           PointCloudDecoder.bn1 PointCloudDecoder.bn2]; assumption.
Qed.

Lemma apply_init_weights_fields m g :
  exists c1 c2 c3 f1 f2 f3,
    fst (apply_init_weights m g)
    = PointCloudCompletionNet.mk
        (PointCloudCompletionNet.input_points m)
        (PointCloudCompletionNet.output_points m)
        (PointCloudEncoder.mk c1 c2 c3
           (PointCloudEncoder.bn1 (PointCloudCompletionNet.encoder m))
           (PointCloudEncoder.bn2 (PointCloudCompletionNet.encoder m))
           (PointCloudEncoder.bn3 (PointCloudCompletionNet.encoder m)))
        (PointCloudDecoder.mk
           (PointCloudDecoder.output_points (PointCloudCompletionNet.decoder m))
           f1 f2 f3
           (PointCloudDecoder.bn1 (PointCloudCompletionNet.decoder m))
           (PointCloudDecoder.bn2 (PointCloudCompletionNet.decoder m))).
Proof.
  unfold apply_init_weights.
  destruct (init_weights_Conv1d _ g) as [k1 g1].
  destruct (init_weights_Conv1d _ g1) as [k2 g2].
  destruct (init_weights_Conv1d _ g2) as [k3 g3].
  destruct (init_weights_Linear _ g3) as [l1 g4].
  destruct (init_weights_Linear _ g4) as [l2 g5].
  destruct (init_weights_Linear _ g5) as [l3 g6].
  exists k1, k2, k3, l1, l2, l3. reflexivity.
Qed.

Lemma model_valid g : valid_model (ConvModel (fst (model g))) 1024.
Proof.
  unfold model. cbn [valid_model].
  pose proof (PointCloudCompletionNet_init_valid 1024 2048 g) as H.
  destruct (PointCloudCompletionNet.__init__ 1024 2048 g) as [m g1].
  cbn [fst] in H. apply apply_init_weights_valid. apply H. lia.
Qed.

Lemma model_output_count g : output_count (ConvModel (fst (model g))) = 2048.
Proof.
  unfold model. cbn [output_count].
  pose proof (PointCloudCompletionNet_init_fields 1024 2048 g)
    as (c1 & c2 & c3 & f1 & f2 & f3 & Hm & _).
  destruct (PointCloudCompletionNet.__init__ 1024 2048 g) as [m g1].
  cbn [fst] in Hm.
  destruct (apply_init_weights_fields (PointCloudCompletionNet.eval m) g1)
    as (k1 & k2 & k3 & l1 & l2 & l3 & ->).
  cbn [PointCloudCompletionNet.output_points PointCloudCompletionNet.eval].
  now rewrite Hm.
Qed.

(** ** Normalisation and the decoder's groups *)

Lemma normalize_spec eps ch x :
  BatchNorm1d.normalize eps ch x
  = spec_normalize (BatchNorm1d.gamma ch) (BatchNorm1d.beta ch)
      (BatchNorm1d.mu ch) (BatchNorm1d.var ch) eps x.
Proof. unfold BatchNorm1d.normalize, spec_normalize, Rdiv. ring. Qed.

Lemma BatchNorm_point_spec bn row :
  BatchNorm1d.training bn = false ->
  Layer_point (BatchNormLayer bn) row = spec_normalize_point bn row.
Proof.
  intros Ht. cbn [Layer_point]. unfold spec_normalize_point.
  rewrite (zip_with_seq _ _ _ (length row) (BatchNorm1d.mkChannel 0 0 0 0) 0%R)
    by (now rewrite ?channels_length).
  apply map_ext_in. intros j Hj. apply in_seq in Hj.
  unfold BatchNorm1d.channels. rewrite Ht.
  rewrite (nth_map_lt _ (seq 0 (length row)) j 0) by (rewrite length_seq; lia).
  rewrite seq_nth by lia. cbn [Nat.add]. apply normalize_spec.
Qed.





(** ** The stability constant *)

Lemma sqrt_eps_half : (sqrt (1 / 100000) <= 1 / 2)%R.
Proof.
  replace (1 / 2)%R with (sqrt (1 / 4)).
  - apply sqrt_le_1_alt. lra.
  - replace (1 / 4)%R with ((1 / 2) * (1 / 2))%R by lra. apply sqrt_square. lra.
Qed.

Lemma spec_normalize_point_nth bn row j :
  j < length row ->
  nth j (spec_normalize_point bn row) 0%R
  = spec_normalize
      (nth j (data (BatchNorm1d.weight bn)) 0%R)
      (nth j (data (BatchNorm1d.bias bn)) 0%R)
      (nth j (data (BatchNorm1d.running_mean bn)) 0%R)
      (nth j (data (BatchNorm1d.running_var bn)) 0%R)
      (BatchNorm1d.eps bn) (nth j row 0%R).
Proof.
  intros Hj. unfold spec_normalize_point.
  rewrite (nth_map_lt _ (seq 0 (length row)) j 0 0%R) by now rewrite length_seq.
  now rewrite seq_nth.
Qed.

Lemma nth_nonneg l j :
  Forall (fun v => (0 <= v)%R) l -> (0 <= nth j l 0)%R.
Proof.
  intros H. revert j; induction H as [|v l Hv _ IH]; intros [|j]; cbn; try lra; auto.
Qed.

(** The guard: with a positive [eps] the denominator of the step is at
    least sqrt(eps), and the step moves its input away from the shift by
    at most |scale * (x - mean)| / sqrt(eps). *)
Lemma spec_normalize_guarded scale shift mean var eps x :
  (0 <= var)%R -> (0 < eps)%R ->
  (sqrt eps <= sqrt (var + eps))%R /\
  (0 < sqrt (var + eps))%R /\
  ((spec_normalize scale shift mean var eps x - shift) * sqrt (var + eps)
   = scale * (x - mean))%R /\
  (Rabs (spec_normalize scale shift mean var eps x - shift) * sqrt eps
   <= Rabs (scale * (x - mean)))%R.
Proof.
  intros Hv He.
  assert (Hle : (sqrt eps <= sqrt (var + eps))%R) by (apply sqrt_le_1_alt; lra).
  assert (Hpos : (0 < sqrt (var + eps))%R) by (apply sqrt_lt_R0; lra).
  assert (Hq : ((spec_normalize scale shift mean var eps x - shift)
                * sqrt (var + eps) = scale * (x - mean))%R)
    by (unfold spec_normalize; field; lra).
  repeat split; try assumption.
  rewrite <- Hq, Rabs_mult, (Rabs_pos_eq (sqrt (var + eps))) by lra.
  apply Rmult_le_compat_l; [apply Rabs_pos|exact Hle].
Qed.

Lemma create_model_normalizations g :
  normalizations (SimpleModel (fst (create_model g)))
  = map (fun c => BatchNorm1d.eval (BatchNorm1d.__init__ c))
      [128; 256; 512; 1024; 2048].
Proof.
  unfold create_model.
  pose proof (SimplePCN_init_layers 1024 2048 512 g)
    as (e1 & e2 & e3 & d1 & d2 & d3 & Hm & _).
  destruct (SimplePCN.__init__ 1024 2048 512 g) as [m g'].
  cbn [fst] in *. subst m. reflexivity.
Qed.

Lemma model_normalizations g :
  normalizations (ConvModel (fst (model g)))
  = map (fun c => BatchNorm1d.eval (BatchNorm1d.__init__ c))
      [64; 128; 1024; 2048; 4096].
Proof.
  unfold model.
  pose proof (PointCloudCompletionNet_init_fields 1024 2048 g)
    as (c1 & c2 & c3 & f1 & f2 & f3 & Hm & _).
  destruct (PointCloudCompletionNet.__init__ 1024 2048 g) as [m g1].
  cbn [fst] in Hm.
  destruct (apply_init_weights_fields (PointCloudCompletionNet.eval m) g1)
    as (k1 & k2 & k3 & l1 & l2 & l3 & ->).
  rewrite Hm. reflexivity.
Qed.

(** ** Declared widths *)

Lemma chained_declared i layers o :
  chained i layers o -> declared_chain i layers = Some o.
Proof.
  induction 1 as [i|m rest i j o Hm _ IH]; [reflexivity|].
  destruct Hm as [l i o' (Hi & Ho & _)|bn c (Hc & _)|c]; cbn [declared_chain].
  - now rewrite Hi, Ho, Nat.eqb_refl.
  - now rewrite Hc, Nat.eqb_refl.
  - assumption.
Qed.

(** ** Initialisation *)

Lemma uniform_fill_intro t a g :
  uniform_fill (draws g) a (fst (uniform_ t (- a) a g)).
Proof. exists (position g). reflexivity. Qed.

Lemma uniform_draws t a b g : draws (snd (uniform_ t a b g)) = draws g.
Proof. reflexivity. Qed.

Lemma kaiming_uniform_draws t a g :
  draws (snd (init.kaiming_uniform_ t a g)) = draws g.
Proof.
  unfold init.kaiming_uniform_. now destruct (existsb (Nat.eqb 0) (shape t)).
Qed.

Lemma Linear_init_draws i o g : draws (snd (Linear.__init__ i o g)) = draws g.
Proof.
  unfold Linear.__init__.
  pose proof (kaiming_uniform_draws (empty [o; i]) (sqrt 5) g) as H.
  destruct (init.kaiming_uniform_ (empty [o; i]) (sqrt 5) g) as [w g1].
  cbn [snd] in H. rewrite <- H.
  match goal with |- context [uniform_ ?t ?a ?b ?g] =>
    pose proof (uniform_draws t a b g) as Hb;
    destruct (uniform_ t a b g) as [bs g2]
  end.
  exact Hb.
Qed.

Lemma Linear_init_default i o g :
  0 < i -> 0 < o ->
  default_init (draws g)
    (Linear.weight (fst (Linear.__init__ i o g)),
     Linear.bias (fst (Linear.__init__ i o g))).
Proof.
  intros Hi Ho.
  destruct i as [|i]; [lia|]. destruct o as [|o]; [lia|].
  unfold default_init. split.
  - exists (position g). reflexivity.
  - exists (position g + numel [S o; S i]). reflexivity.
Qed.

Lemma init_weights_Conv1d_spec cv g :
  xavier_zero (draws g)
    (Conv1d.weight (fst (init_weights_Conv1d cv g)),
     Conv1d.bias (fst (init_weights_Conv1d cv g))) /\
  draws (snd (init_weights_Conv1d cv g)) = draws g.
Proof.
  unfold init_weights_Conv1d, init.xavier_uniform_.
  cbn [uniform_ fst snd Conv1d.weight Conv1d.bias draws].
  split; [split|reflexivity].
  - exists (position g). reflexivity.
  - reflexivity.
Qed.

Lemma init_weights_Linear_spec l g :
  xavier_zero (draws g)
    (Linear.weight (fst (init_weights_Linear l g)),
     Linear.bias (fst (init_weights_Linear l g))) /\
  draws (snd (init_weights_Linear l g)) = draws g.
Proof.
  unfold init_weights_Linear, init.xavier_uniform_.
  cbn [uniform_ fst snd Linear.weight Linear.bias draws].
  split; [split|reflexivity].
  - exists (position g). reflexivity.
  - reflexivity.
Qed.

Lemma apply_init_weights_parameters m g :
  Forall (xavier_zero (draws g))
    (affine_parameters (ConvModel (fst (apply_init_weights m g)))).
Proof.
  unfold apply_init_weights.
  set (e := PointCloudCompletionNet.encoder m).
  set (d := PointCloudCompletionNet.decoder m).
  pose proof (init_weights_Conv1d_spec (PointCloudEncoder.conv1 e) g) as (X1 & G1).
  destruct (init_weights_Conv1d (PointCloudEncoder.conv1 e) g) as [k1 g1].
  pose proof (init_weights_Conv1d_spec (PointCloudEncoder.conv2 e) g1) as (X2 & G2).
  destruct (init_weights_Conv1d (PointCloudEncoder.conv2 e) g1) as [k2 g2].
  pose proof (init_weights_Conv1d_spec (PointCloudEncoder.conv3 e) g2) as (X3 & G3).
  destruct (init_weights_Conv1d (PointCloudEncoder.conv3 e) g2) as [k3 g3].
  pose proof (init_weights_Linear_spec (PointCloudDecoder.fc1 d) g3) as (X4 & G4).
  destruct (init_weights_Linear (PointCloudDecoder.fc1 d) g3) as [l1 g4].
  pose proof (init_weights_Linear_spec (PointCloudDecoder.fc2 d) g4) as (X5 & G5).
  destruct (init_weights_Linear (PointCloudDecoder.fc2 d) g4) as [l2 g5].
  pose proof (init_weights_Linear_spec (PointCloudDecoder.fc3 d) g5) as (X6 & G6).
  destruct (init_weights_Linear (PointCloudDecoder.fc3 d) g5) as [l3 g6].
  cbn [fst snd] in *.
  rewrite G1 in *. rewrite G2 in *. rewrite G3 in *. rewrite G4 in *.
  rewrite G5 in *.
  cbn [affine_parameters PointCloudCompletionNet.encoder
       PointCloudCompletionNet.decoder PointCloudEncoder.conv1
       PointCloudEncoder.conv2 PointCloudEncoder.conv3 PointCloudDecoder.fc1
       PointCloudDecoder.fc2 PointCloudDecoder.fc3].
  repeat (constructor; [assumption|]). constructor.
Qed.

Lemma Conv1d_init_draws i o k g : draws (snd (Conv1d.__init__ i o k g)) = draws g.
Proof.
  unfold Conv1d.__init__.
  pose proof (kaiming_uniform_draws (empty [o; i; k]) (sqrt 5) g) as H.
  destruct (init.kaiming_uniform_ (empty [o; i; k]) (sqrt 5) g) as [w g1].
  cbn [snd] in H. rewrite <- H.
  match goal with |- context [uniform_ ?t ?a ?b ?g] =>
    pose proof (uniform_draws t a b g) as Hb;
    destruct (uniform_ t a b g) as [bs g2]
  end.
  exact Hb.
Qed.

Lemma PointCloudCompletionNet_init_draws ip op g :
  draws (snd (PointCloudCompletionNet.__init__ ip op g)) = draws g.
Proof.
  unfold PointCloudCompletionNet.__init__, PointCloudEncoder.__init__,
    PointCloudDecoder.__init__.
  pose proof (Conv1d_init_draws 3 64 1 g) as H1.
  destruct (Conv1d.__init__ 3 64 1 g) as [c1 g1].
  pose proof (Conv1d_init_draws 64 128 1 g1) as H2.
  destruct (Conv1d.__init__ 64 128 1 g1) as [c2 g2].
  pose proof (Conv1d_init_draws 128 1024 1 g2) as H3.
  destruct (Conv1d.__init__ 128 1024 1 g2) as [c3 g3].
  pose proof (Linear_init_draws 1024 2048 g3) as H4.
  destruct (Linear.__init__ 1024 2048 g3) as [f1 g4].
  pose proof (Linear_init_draws 2048 4096 g4) as H5.
  destruct (Linear.__init__ 2048 4096 g4) as [f2 g5].
  pose proof (Linear_init_draws 4096 (op * 3) g5) as H6.
  destruct (Linear.__init__ 4096 (op * 3) g5) as [f3 g6].
  cbn [snd] in *. congruence.
Qed.

Lemma model_parameters g :
  Forall (xavier_zero (draws g)) (affine_parameters (ConvModel (fst (model g)))).
Proof.
  unfold model.
  pose proof (PointCloudCompletionNet_init_draws 1024 2048 g) as H.
  destruct (PointCloudCompletionNet.__init__ 1024 2048 g) as [m g1].
  cbn [snd] in H. rewrite <- H. apply apply_init_weights_parameters.
Qed.

(** The affine layers of [create_model()] are the six the constructor
    draws, one after the other from the same stream. *)
Lemma create_model_parameters g :
  exists g1 g2 g3 g4 g5,
    draws g1 = draws g /\ draws g2 = draws g /\ draws g3 = draws g /\
    draws g4 = draws g /\ draws g5 = draws g /\
    affine_parameters (SimpleModel (fst (create_model g)))
    = map (fun l => (Linear.weight l, Linear.bias l))
        [ fst (Linear.__init__ 3 128 g); fst (Linear.__init__ 128 256 g1);
          fst (Linear.__init__ 256 512 g2); fst (Linear.__init__ 512 1024 g3);
          fst (Linear.__init__ 1024 2048 g4);
          fst (Linear.__init__ 2048 (2048 * 3) g5) ].
Proof.
  unfold create_model, SimplePCN.__init__.
  pose proof (Linear_init_draws 3 128 g) as H1.
  destruct (Linear.__init__ 3 128 g) as [e1 g1] eqn:E1.
  pose proof (Linear_init_draws 128 256 g1) as H2.
  destruct (Linear.__init__ 128 256 g1) as [e2 g2] eqn:E2.
  pose proof (Linear_init_draws 256 512 g2) as H3.
  destruct (Linear.__init__ 256 512 g2) as [e3 g3] eqn:E3.
  pose proof (Linear_init_draws 512 1024 g3) as H4.
  destruct (Linear.__init__ 512 1024 g3) as [d1 g4] eqn:E4.
  pose proof (Linear_init_draws 1024 2048 g4) as H5.
  destruct (Linear.__init__ 1024 2048 g4) as [d2 g5] eqn:E5.
  destruct (Linear.__init__ 2048 (2048 * 3) g5) as [d3 g6] eqn:E6.
  cbn [snd] in *. exists g1, g2, g3, g4, g5.
  repeat (split; [congruence|]).
  rewrite E2, E3, E4, E5, E6. reflexivity.
Qed.

Lemma create_model_default_parameters g :
  Forall (default_init (draws g))
    (affine_parameters (SimpleModel (fst (create_model g)))).
Proof.
  destruct (create_model_parameters g)
    as (g1 & g2 & g3 & g4 & g5 & H1 & H2 & H3 & H4 & H5 & ->).
  cbn [map].
  constructor; [apply Linear_init_default; lia|].
  constructor; [rewrite <- H1; apply Linear_init_default; lia|].
  constructor; [rewrite <- H2; apply Linear_init_default; lia|].
  constructor; [rewrite <- H3; apply Linear_init_default; lia|].
  constructor; [rewrite <- H4; apply Linear_init_default; lia|].
  constructor; [rewrite <- H5; apply Linear_init_default; lia|].
  constructor.
Qed.

(** ** Bounds of a uniform fill *)

Lemma xavier_bound_nonneg s : (0 <= init.xavier_bound s)%R.
Proof.
  unfold init.xavier_bound.
  destruct (init.calculate_fan_in_and_fan_out s) as [fi fo].
  apply Rmult_le_pos; [apply sqrt_pos|].
  apply Rmult_le_pos; [lra|apply sqrt_pos].
Qed.

Lemma uniform_fill_bound u a t :
  (0 <= a)%R -> (forall k, (0 <= u k < 1)%R) -> uniform_fill u a t ->
  Forall (fun w => (Rabs w <= a)%R) (data t).
Proof.
  intros Ha Hu (pos & ->). apply Forall_map, Forall_forall. intros i _.
  specialize (Hu (pos + i)). apply Rabs_le. split; nra.
Qed.

Lemma head_of_fill (f : nat -> R) n d : 0 < n -> nth 0 (map f (seq 0 n)) d = f 0.
Proof. destruct n; [lia|reflexivity]. Qed.

Lemma head_of_zeros n d : 0 < n -> nth 0 (repeat 0%R n) d = 0%R.
Proof. destruct n; [lia|reflexivity]. Qed.

(** ** The rows of the descriptor *)

Lemma descriptor_rows model f b cs :
  length cs = b ->
  chunks f b (descriptor_data model f cs)
  = map (fun c => pool f (map (point_feature model) c)) cs.
Proof.
  intros Hb. unfold descriptor_data.
  rewrite <- Hb, <- (length_map (fun c => pool f (map (point_feature model) c)) cs).
  apply chunks_concat. apply Forall_map, Forall_forall. intros c _. apply pool_length.
Qed.

(** ** Shapes through the layers, in either mode *)

Lemma Linear_forward_shape l i o x n :
  wf_Linear l i o -> shape x = [n; i] ->
  exists y, Linear.forward l x = Ok y /\ shape y = [n; o].
Proof.
  intros (_ & _ & (Hw & _) & (Hb & _)) Hx.
  unfold Linear.forward. rewrite Hw, Hx, Hb. cbn [rev app].
  rewrite Nat.eqb_refl, numel_1, Nat.eqb_refl. cbn [negb].
  eexists. split; [reflexivity|reflexivity].
Qed.

Lemma Linear_forward_mismatch l i o x n k :
  wf_Linear l i o -> shape x = [n; k] -> k <> i ->
  Linear.forward l x = Raise matmul_shape.
Proof.
  intros (_ & _ & (Hw & _) & _) Hx Hk.
  unfold Linear.forward. rewrite Hw, Hx. cbn [rev app].
  apply Nat.eqb_neq in Hk. now rewrite Hk.
Qed.

Lemma has_channels_init c : BatchNorm1d.has_channels (BatchNorm1d.__init__ c) c = true.
Proof.
  unfold BatchNorm1d.has_channels. cbn [BatchNorm1d.__init__ BatchNorm1d.running_mean
    BatchNorm1d.running_var BatchNorm1d.weight BatchNorm1d.bias zeros ones shape].
  rewrite numel_1, Nat.eqb_refl. reflexivity.
Qed.

Lemma BatchNorm1d_training_rows c x n :
  shape x = [n; c] -> n <> 1 ->
  exists y, BatchNorm1d.forward (BatchNorm1d.__init__ c) x = Ok y /\ shape y = [n; c].
Proof.
  intros Hx Hn. unfold BatchNorm1d.forward. rewrite Hx, has_channels_init.
  apply Nat.eqb_neq in Hn. rewrite Hn, andb_false_r. cbn [negb].
  eexists. split; reflexivity.
Qed.

Lemma BatchNorm1d_training_single_row c x :
  shape x = [1; c] ->
  BatchNorm1d.forward (BatchNorm1d.__init__ c) x = Raise bn_batch_size.
Proof. intros Hx. unfold BatchNorm1d.forward. now rewrite Hx. Qed.

Lemma BatchNorm1d_training_lines c x b l :
  shape x = [b; c; l] -> b * l <> 1 ->
  exists y,
    BatchNorm1d.forward (BatchNorm1d.__init__ c) x = Ok y /\ shape y = [b; c; l].
Proof.
  intros Hx Hn. unfold BatchNorm1d.forward. rewrite Hx, has_channels_init.
  apply Nat.eqb_neq in Hn. rewrite Hn, andb_false_r. cbn [negb].
  eexists. split; reflexivity.
Qed.

Lemma BatchNorm1d_training_single_line c x :
  shape x = [1; c; 1] ->
  BatchNorm1d.forward (BatchNorm1d.__init__ c) x = Raise bn_batch_size.
Proof. intros Hx. unfold BatchNorm1d.forward. now rewrite Hx. Qed.

Lemma BatchNorm1d_forward_shape bn c x s :
  wf_BatchNorm1d bn c -> shape x = s -> (exists n, s = [n; c]) \/ (exists b l, s = [b; c; l]) ->
  exists y, BatchNorm1d.forward bn x = Ok y /\ shape y = s.
Proof.
  intros Hbn Hx Hs. pose proof (has_channels_wf bn c Hbn) as Hc.
  destruct Hbn as (_ & _ & _ & _ & _ & Ht).
  unfold BatchNorm1d.forward. rewrite Hx, Ht.
  destruct Hs as [(n & ->)|(b & l & ->)]; rewrite Hc; cbn [andb negb];
    eexists; split; reflexivity.
Qed.

Lemma Conv1d_forward_shape cv i o x b l :
  wf_Conv1d cv i o -> shape x = [b; i; l] -> 0 < l ->
  exists y, Conv1d.forward cv x = Ok y /\ shape y = [b; o; l].
Proof.
  intros (_ & _ & _ & (Hw & _) & (Hb & _)) Hx Hl.
  unfold Conv1d.forward, Conv1d.conv_batch. rewrite Hw, Hx, Hb.
  rewrite Nat.eqb_refl, numel_1, Nat.eqb_refl. cbn [negb].
  assert (Hk : (l <? 1) = false) by (apply Nat.ltb_ge; lia).
  rewrite Hk. cbn [bind]. eexists. split; [reflexivity|].
  cbn [shape]. repeat f_equal. lia.
Qed.

Lemma Conv1d_forward_mismatch cv i o x b c l :
  wf_Conv1d cv i o -> shape x = [b; c; l] -> c <> i ->
  Conv1d.forward cv x = Raise conv_channels.
Proof.
  intros (_ & _ & _ & (Hw & _) & _) Hx Hc.
  unfold Conv1d.forward, Conv1d.conv_batch. rewrite Hw, Hx.
  apply Nat.eqb_neq in Hc. now rewrite Hc.
Qed.

Lemma torch_max_dim1_shape x b n f :
  shape x = [b; n; f] -> 0 < n ->
  exists y, torch.max x 1 false = Ok y /\ shape y = [b; f].
Proof.
  intros Hx Hn. unfold torch.max. rewrite Hx. cbn [length Nat.leb nth firstn skipn].
  assert (Hz : (n =? 0) = false) by (apply Nat.eqb_neq; lia).
  rewrite Hz. eexists. split; reflexivity.
Qed.

Lemma torch_max_dim2_shape x b f n :
  shape x = [b; f; n] -> 0 < n ->
  exists y, torch.max x 2 true = Ok y /\ shape y = [b; f; 1].
Proof.
  intros Hx Hn. unfold torch.max. rewrite Hx. cbn [length Nat.leb nth firstn skipn].
  assert (Hz : (n =? 0) = false) by (apply Nat.eqb_neq; lia).
  rewrite Hz. eexists. split; reflexivity.
Qed.

Lemma squeeze_last_shape x b f :
  shape x = [b; f; 1] -> shape (squeeze_last x) = [b; f].
Proof. intros Hx. unfold squeeze_last. rewrite Hx. reflexivity. Qed.

(** What the layers return is freshly allocated. *)
Lemma Linear_forward_contiguous l x y :
  Linear.forward l x = Ok y -> is_contiguous y.
Proof.
  unfold Linear.forward.
  destruct (shape (Linear.weight l)) as [|o [|i [|? ?]]]; try discriminate.
  destruct (rev (shape x)) as [|k lead]; try discriminate.
  destruct (negb (k =? i)); try discriminate.
  destruct (negb (numel (shape (Linear.bias l)) =? o)); try discriminate.
  now intros [= <-].
Qed.

Lemma relu_contiguous x : is_contiguous x -> is_contiguous (relu x).
Proof. exact (fun H => H). Qed.

Lemma BatchNorm1d_forward_contiguous bn x y :
  BatchNorm1d.forward bn x = Ok y -> is_contiguous y.
Proof.
  unfold BatchNorm1d.forward.
  destruct (shape x) as [|n [|c [|l [|? ?]]]]; try discriminate.
  - destruct (BatchNorm1d.training bn && (n =? 1)); try discriminate.
    destruct (negb (BatchNorm1d.has_channels bn c)); try discriminate.
    now intros [= <-].
  - destruct (BatchNorm1d.training bn && (n * l =? 1)); try discriminate.
    destruct (negb (BatchNorm1d.has_channels bn c)); try discriminate.
    now intros [= <-].
Qed.

Lemma view_rows_shape x b n :
  shape x = [b; n; 3] -> viewable_as_rows x ->
  exists y, view x [None; Some 3] = Ok y /\ shape y = [b * n; 3].
Proof.
  intros Hx Hv. destruct (view_rows_any_layout x b n Hx Hv) as [st ->].
  eexists. split; reflexivity.
Qed.

Lemma view_3_shape x b n f :
  shape x = [b * n; f] -> is_contiguous x ->
  exists y, view x [Some b; Some n; Some f] = Ok y /\ shape y = [b; n; f].
Proof.
  intros Hx Hc. rewrite (view_3 x b n f [b * n; f] Hx).
  - eexists. split; reflexivity.
  - rewrite numel_2. lia.
  - exact Hc.
Qed.

Lemma transpose_1_2_shape x b n d :
  shape x = [b; n; d] ->
  exists y, transpose_1_2 x = Ok y /\ shape y = [b; d; n].
Proof.
  intros Hx. unfold transpose_1_2. rewrite Hx. eexists. split; reflexivity.
Qed.

Lemma view_completed_shape x b o :
  shape x = [b; o * 3] -> is_contiguous x ->
  exists y, view x [Some b; Some o; Some 3] = Ok y /\ shape y = [b; o; 3].
Proof.
  intros Hx Hc. rewrite (view_3 x b o 3 [b; o * 3] Hx).
  - eexists. split; reflexivity.
  - now rewrite numel_2.
  - exact Hc.
Qed.

Lemma view_points_shape x b o :
  shape x = [b; o * 3] -> 0 < o -> is_contiguous x ->
  exists y, view x [None; Some o; Some 3] = Ok y /\ shape y = [b; o; 3].
Proof.
  intros Hx Ho Hc. rewrite (contiguous_eq x Hc), Hx.
  rewrite (view_points b o _ Ho). eexists. split; reflexivity.
Qed.

(** *** The encoder and the decoder of the second variant on their own *)

Lemma BatchNorm1d_forward_lines bn c x b l :
  wf_BatchNorm1d bn c -> shape x = [b; c; l] ->
  exists y, BatchNorm1d.forward bn x = Ok y /\ shape y = [b; c; l].
Proof.
  intros Hbn Hx. apply (BatchNorm1d_forward_shape bn c x [b; c; l] Hbn Hx).
  right. now exists b, l.
Qed.

Lemma BatchNorm1d_forward_rows_shape bn c x n :
  wf_BatchNorm1d bn c -> shape x = [n; c] ->
  exists y, BatchNorm1d.forward bn x = Ok y /\ shape y = [n; c].
Proof.
  intros Hbn Hx. apply (BatchNorm1d_forward_shape bn c x [n; c] Hbn Hx).
  left. now exists n.
Qed.

Lemma PointCloudEncoder_forward_shape e idim w1 w2 fd x b n :
  wf_Conv1d (PointCloudEncoder.conv1 e) idim w1 ->
  wf_BatchNorm1d (PointCloudEncoder.bn1 e) w1 ->
  wf_Conv1d (PointCloudEncoder.conv2 e) w1 w2 ->
  wf_BatchNorm1d (PointCloudEncoder.bn2 e) w2 ->
  wf_Conv1d (PointCloudEncoder.conv3 e) w2 fd ->
  wf_BatchNorm1d (PointCloudEncoder.bn3 e) fd ->
  shape x = [b; idim; n] -> 0 < n ->
  exists y, PointCloudEncoder.forward e x = Ok y /\ shape y = [b; fd; 1].
Proof.
  intros Hc1 Hb1 Hc2 Hb2 Hc3 Hb3 Hx Hn.
  unfold PointCloudEncoder.forward.
  forward_step (Conv1d_forward_shape _ idim w1 x b n Hc1 Hx Hn).
  forward_step (BatchNorm1d_forward_lines _ w1 y b n Hb1 S).
  forward_step (Conv1d_forward_shape _ w1 w2 (relu y0) b n Hc2 S0 Hn).
  forward_step (BatchNorm1d_forward_lines _ w2 y1 b n Hb2 S1).
  forward_step (Conv1d_forward_shape _ w2 fd (relu y2) b n Hc3 S2 Hn).
  forward_step (BatchNorm1d_forward_lines _ fd y3 b n Hb3 S3).
  apply (torch_max_dim2_shape (relu y4) b fd n S4 Hn).
Qed.

Lemma PointCloudEncoder_eval_forward_shape idim fd g x b n :
  shape x = [b; idim; n] -> 0 < n ->
  exists y,
    PointCloudEncoder.forward
      (PointCloudEncoder.eval (fst (PointCloudEncoder.__init__ idim fd g))) x = Ok y /\
    shape y = [b; fd; 1].
Proof.
  intros Hx Hn.
  destruct (PointCloudEncoder_init_fields idim fd g)
    as (c1 & c2 & c3 & -> & Hc1 & Hc2 & Hc3).
  apply (PointCloudEncoder_forward_shape _ idim 64 128 fd x b n);
    try assumption; apply BatchNorm1d_init_wf.
Qed.

Lemma PointCloudEncoder_eval_forward_channels idim fd g x b c n :
  shape x = [b; c; n] -> c <> idim ->
  PointCloudEncoder.forward
    (PointCloudEncoder.eval (fst (PointCloudEncoder.__init__ idim fd g))) x
  = Raise conv_channels.
Proof.
  intros Hx Hc.
  destruct (PointCloudEncoder_init_fields idim fd g)
    as (c1 & c2 & c3 & -> & Hc1 & Hc2 & Hc3).
  unfold PointCloudEncoder.forward, PointCloudEncoder.eval.
  cbn [PointCloudEncoder.conv1].
  now rewrite (Conv1d_forward_mismatch c1 idim 64 x b c n Hc1 Hx Hc).
Qed.

Lemma PointCloudDecoder_forward_shape d fd h1 h2 x b :
  wf_Linear (PointCloudDecoder.fc1 d) fd h1 ->
  wf_BatchNorm1d (PointCloudDecoder.bn1 d) h1 ->
  wf_Linear (PointCloudDecoder.fc2 d) h1 h2 ->
  wf_BatchNorm1d (PointCloudDecoder.bn2 d) h2 ->
  wf_Linear (PointCloudDecoder.fc3 d) h2 (PointCloudDecoder.output_points d * 3) ->
  shape x = [b; fd; 1] -> 0 < PointCloudDecoder.output_points d ->
  exists y,
    PointCloudDecoder.forward d x = Ok y /\
    shape y = [b; PointCloudDecoder.output_points d; 3].
Proof.
  intros Hf1 Hb1 Hf2 Hb2 Hf3 Hx Hop.
  unfold PointCloudDecoder.forward.
  forward_step (Linear_forward_shape _ fd h1 (squeeze_last x) b Hf1
                  (squeeze_last_shape x b fd Hx)).
  forward_step (BatchNorm1d_forward_rows_shape _ h1 y b Hb1 S).
  forward_step (Linear_forward_shape _ h1 h2 (relu y0) b Hf2 S0).
  forward_step (BatchNorm1d_forward_rows_shape _ h2 y1 b Hb2 S1).
  forward_step (Linear_forward_shape _ h2 _ (relu y2) b Hf3 S2).
  apply (view_points_shape y3 b _ S3 Hop).
  eapply Linear_forward_contiguous; eassumption.
Qed.

Lemma PointCloudDecoder_eval_forward_shape fd op g x b :
  shape x = [b; fd; 1] -> 0 < op ->
  exists y,
    PointCloudDecoder.forward
      (PointCloudDecoder.eval (fst (PointCloudDecoder.__init__ fd op g))) x = Ok y /\
    shape y = [b; op; 3].
Proof.
  intros Hx Hop.
  destruct (PointCloudDecoder_init_fields fd op g)
    as (f1 & f2 & f3 & -> & Hf1 & Hf2 & Hf3).
  match goal with
  | |- context [PointCloudDecoder.forward ?d x] =>
      apply (PointCloudDecoder_forward_shape d fd 2048 4096 x b)
  end; try assumption; apply BatchNorm1d_init_wf.
Qed.

Lemma PointCloudDecoder_eval_forward_mismatch fd op g x b f :
  shape x = [b; f; 1] -> f <> fd ->
  PointCloudDecoder.forward
    (PointCloudDecoder.eval (fst (PointCloudDecoder.__init__ fd op g))) x
  = Raise matmul_shape.
Proof.
  intros Hx Hf.
  destruct (PointCloudDecoder_init_fields fd op g)
    as (f1 & f2 & f3 & -> & Hf1 & Hf2 & Hf3).
  unfold PointCloudDecoder.forward, PointCloudDecoder.eval.
  cbn [PointCloudDecoder.fc1].
  now rewrite (Linear_forward_mismatch f1 fd 2048 (squeeze_last x) b f Hf1
                 (squeeze_last_shape x b f Hx) Hf).
Qed.

(* ================================================================== *)
(** * Part IV.  The properties of the specification *)
(* ================================================================== *)

(** ** The forward pass of a valid model on a well-formed input *)

Section ValidModel.

Variable model : Model.
Variable f : nat.
Hypothesis Hvalid : valid_model model f.

Variable x : Tensor.
Variables b n : nat.
Hypothesis Hshape : shape x = [b; n; 3].
Hypothesis Hwf : wf_tensor x.
Hypothesis Hn : 0 < n.
Hypothesis Hlayout : accepts_layout model x.

Lemma complete_tensor :
  complete model x
  = Ok (mkTensor [b; output_count model; 3] (completed_data model f (clouds x))).
Proof.
  destruct (batch_of_tensor x b n 3 Hshape Hwf) as (Hcs & Hx).
  pose proof (complete_batch model f Hvalid b n (clouds x) Hcs Hn) as Hc.
  rewrite (complete_layout model f x b n Hvalid Hshape Hlayout).
  now rewrite <- Hx in Hc.
Qed.

Lemma decoder_output_tensor :
  decoder_output model x
  = Ok (mkTensor [b; output_count model * 3] (completed_data model f (clouds x))).
Proof.
  destruct (batch_of_tensor x b n 3 Hshape Hwf) as (Hcs & Hx).
  pose proof (decoder_output_batch model f Hvalid b n (clouds x) Hcs Hn) as Hc.
  rewrite (decoder_output_layout model f x b n Hvalid Hshape Hlayout).
  now rewrite <- Hx in Hc.
Qed.

Lemma global_descriptor_tensor :
  global_descriptor model x
  = Ok (mkTensor (descriptor_shape model b f) (descriptor_data model f (clouds x))).
Proof.
  destruct (batch_of_tensor x b n 3 Hshape Hwf) as (Hcs & Hx).
  pose proof (global_descriptor_batch model f Hvalid b n (clouds x) Hcs Hn) as Hc.
  rewrite (global_descriptor_layout model f x b n Hvalid Hshape Hlayout).
  now rewrite <- Hx in Hc.
Qed.

Lemma completed_data_length :
  length (completed_data model f (clouds x)) = b * (output_count model * 3).
Proof.
  destruct (batch_of_tensor x b n 3 Hshape Hwf) as ((Hb & _) & _).
  unfold completed_data.
  rewrite (length_concat_uniform (output_count model * 3)).
  - now rewrite length_map, Hb.
  - apply Forall_map, Forall_forall. intros c _.
    apply (decode_descriptor_length model f Hvalid). apply pool_length.
Qed.

End ValidModel.

(** ** Small inputs *)

Example view_infers_rows :
  view two_points [None; Some 3]
  = Ok (mkTensor [2; 3] [1; 2; 3; 4; 5; 6]%R).
Proof. reflexivity. Qed.

Example view_rejects_five_columns :
  view two_points [None; Some 5] = Raise view_size.
Proof. reflexivity. Qed.

(** The transposition shares the storage: the strides are exchanged. *)
Example transpose_two_points :
  transpose_1_2 two_points = Ok (mkStrided [1; 3; 2] [6; 1; 3] [1; 4; 2; 5; 3; 6]%R).
Proof. reflexivity. Qed.

Example transpose_point_lines : transpose_1_2 pair_lines = Ok transposed_pair.
Proof. reflexivity. Qed.

(** The rows of two transposed clouds do not lie at a regular distance,
    nor do those of a cloud repeated without a copy. *)
Example view_rejects_transposed_pair :
  view transposed_pair [None; Some 3] = Raise view_stride.
Proof. reflexivity. Qed.

Example view_rejects_expanded_pair :
  view expanded_pair [None; Some 3] = Raise view_stride.
Proof. reflexivity. Qed.

(** Every second point of each of two clouds of four points: not
    contiguous, and viewable. *)
Example view_takes_sliced_pair :
  view (mkStrided [2; 2; 3] [12; 6; 1] (data transposed_pair)) [None; Some 3]
  = Ok (mkStrided [4; 3] [6; 1] (data transposed_pair)).
Proof. reflexivity. Qed.

Example max_over_points :
  torch.max two_points 1 false
  = Ok (mkTensor [1; 3] [Rmax 1 4; Rmax 2 5; Rmax 3 6]%R).
Proof. reflexivity. Qed.

Example max_over_no_point : torch.max no_points 1 false = Raise reduce_empty.
Proof. reflexivity. Qed.

Example index_row_major : get two_points [0; 1; 2] = Some 6%R.
Proof. reflexivity. Qed.

Example clouds_two_points : clouds two_points = [[[1; 2; 3]; [4; 5; 6]]]%R.
Proof. reflexivity. Qed.

Example training_mode_rejects_single_row :
  BatchNorm1d.forward bn_training (mkTensor [1; 2] [1; 2]%R) = Raise bn_batch_size.
Proof. reflexivity. Qed.

Example evaluation_mode_accepts_single_row :
  BatchNorm1d.forward bn_eval (mkTensor [1; 2] [1; 2]%R)
  = Ok (mkTensor [1; 2]
          [ (1 - 0) / sqrt (1 + 1 / 100000) * 1 + 0;
            (2 - 0) / sqrt (1 + 1 / 100000) * 1 + 0 ]%R).
Proof. reflexivity. Qed.

Lemma sqrt_ratio_differs :
  ((0 - 1) / sqrt (1 + 1 / 100000) <> (0 - 2) / sqrt (4 + 1 / 100000))%R.
Proof.
  assert (Ha : (0 < sqrt (1 + 1 / 100000))%R) by (apply sqrt_lt_R0; lra).
  assert (Hb : (0 < sqrt (4 + 1 / 100000))%R) by (apply sqrt_lt_R0; lra).
  assert (Ha2 : (sqrt (1 + 1 / 100000) * sqrt (1 + 1 / 100000)
                 = 1 + 1 / 100000)%R)
    by (apply sqrt_sqrt; lra).
  assert (Hb2 : (sqrt (4 + 1 / 100000) * sqrt (4 + 1 / 100000)
                 = 4 + 1 / 100000)%R)
    by (apply sqrt_sqrt; lra).
  set (a := sqrt (1 + 1 / 100000)) in *. set (b := sqrt (4 + 1 / 100000)) in *.
  intros H.
  assert (Hab : (b = 2 * a)%R).
  { apply (f_equal (fun v => (v * a * b)%R)) in H. field_simplify in H; lra. }
  rewrite Hab in Hb2. nra.
Qed.

(** In training mode the value at a point depends on the other points of
    the call: the first row is the same in both inputs, its normalised
    value is not.  The forward passes of both scripts run after [eval()]. *)
Example training_mode_depends_on_the_batch :
  exists y y',
    BatchNorm1d.forward bn_training (mkTensor [2; 2] [0; 0; 2; 2]%R) = Ok y /\
    BatchNorm1d.forward bn_training (mkTensor [2; 2] [0; 0; 4; 4]%R) = Ok y' /\
    nth 0 (data y) 0%R <> nth 0 (data y') 0%R.
Proof.
  eexists. eexists. split; [reflexivity|]. split; [reflexivity|].
  cbn [data concat map app nth chunks firstn skipn zip_with combine fst snd
       BatchNorm1d.channels BatchNorm1d.normalize seq columns column
       BatchNorm1d.mu BatchNorm1d.var BatchNorm1d.gamma BatchNorm1d.beta
       BatchNorm1d.training BatchNorm1d.eps BatchNorm1d.weight BatchNorm1d.bias
       bn_training BatchNorm1d.__init__ ones zeros repeat numel fold_right
       Nat.mul Nat.add].
  unfold BatchNorm1d.batch_var, BatchNorm1d.batch_mean, sum.
  cbn [map fold_right length INR].
  unfold BatchNorm1d.normalize.
  cbn [BatchNorm1d.mu BatchNorm1d.var BatchNorm1d.gamma BatchNorm1d.beta].
  replace ((0 + (2 + 0)) / (1 + 1))%R with 1%R by field.
  replace ((0 + (4 + 0)) / (1 + 1))%R with 2%R by field.
  replace (((0 - 1) * (0 - 1) + ((2 - 1) * (2 - 1) + 0)) / (1 + 1))%R
    with 1%R by field.
  replace (((0 - 2) * (0 - 2) + ((4 - 2) * (4 - 2) + 0)) / (1 + 1))%R
    with 4%R by field.
  intros H. apply sqrt_ratio_differs. lra.
Qed.

(** ** C1: the shape of the completed cloud *)

(** C1.  For every valid model (either variant) and every partial cloud of
    [n > 0] points of 3 coordinates (in a batch of [b] clouds, in a
    memory layout that the model's first operation takes: any layout for
    the second variant, one that [view(-1, 3)] takes for the first, such
    as a contiguous tensor or a single cloud), [complete] returns a
    tensor of shape (b, OUTPUT_COUNT, 3): exactly OUTPUT_COUNT points of
    3 coordinates for each cloud, whatever [n]. *)
Theorem complete_output_shape (model : Model) (f : nat) (x : Tensor) (b n : nat) :
  valid_model model f ->
  shape x = [b; n; 3] -> wf_tensor x -> 0 < n -> accepts_layout model x ->
  exists y,
    complete model x = Ok y /\
    shape y = [b; output_count model; 3] /\
    wf_tensor y /\
    cloud_batch b (output_count model) 3 (clouds y).
Proof.
  intros Hvalid Hs Hwf Hn Hl.
  exists (mkTensor [b; output_count model; 3] (completed_data model f (clouds x))).
  assert (Hw : wf_tensor
                 (mkTensor [b; output_count model; 3]
                    (completed_data model f (clouds x)))).
  { unfold wf_tensor. cbn [shape data].
    now rewrite numel_3, (completed_data_length model f Hvalid x b n). }
  split; [now apply (complete_tensor model f Hvalid x b n)|].
  split; [reflexivity|]. split; [exact Hw|].
  now apply batch_of_tensor.
Qed.

(** The model of [create_model()] on a cloud of two points: 2048 points. *)
Lemma complete_output_shape_witness :
  exists y,
    complete demo_simple two_points = Ok y /\
    shape y = [1; 2048; 3] /\
    wf_tensor y /\
    cloud_batch 1 2048 3 (clouds y).
Proof.
  rewrite <- (create_model_output_count quarter_generator).
  apply (complete_output_shape demo_simple 512 two_points 1 2).
  - apply create_model_valid.
  - reflexivity.
  - reflexivity.
  - lia.
  - left. simpl. lia.
Defined.

(** ** C2: the order and multiplicity of the input points *)

(** C2.  For every valid model and non-empty partial clouds, two inputs
    whose clouds hold the same points (in any order, any point any
    number of times, so in particular a permutation of each other), each
    in a memory layout that the model takes, have the same completed
    cloud, in exact arithmetic. *)
Theorem complete_permutation_invariant (model : Model) (f : nat) (x x' : Tensor)
  (b n n' : nat) :
  valid_model model f ->
  shape x = [b; n; 3] -> wf_tensor x -> 0 < n -> accepts_layout model x ->
  shape x' = [b; n'; 3] -> wf_tensor x' -> 0 < n' -> accepts_layout model x' ->
  Forall2 same_points (clouds x) (clouds x') ->
  complete model x = complete model x'.
Proof.
  intros Hvalid Hs Hwf Hn Hl Hs' Hwf' Hn' Hl' Hsame.
  rewrite (complete_tensor model f Hvalid x b n Hs Hwf Hn Hl).
  rewrite (complete_tensor model f Hvalid x' b n' Hs' Hwf' Hn' Hl').
  do 2 f_equal. unfold completed_data. f_equal.
  destruct (batch_of_tensor x b n 3 Hs Hwf) as ((_ & Hlen & _) & _).
  clear - Hsame Hlen Hn.
  induction Hsame as [|c c' cs cs' Hc _ IH]; [reflexivity|].
  inversion Hlen as [|? ? Hc0 Hlen0]; subst. cbn [map]. f_equal.
  - f_equal. apply pool_same_points; [|assumption].
    destruct c; [simpl in Hn; lia|discriminate].
  - now apply IH.
Qed.

Lemma complete_permutation_invariant_witness :
  complete demo_simple two_points = complete demo_simple three_points.
Proof.
  apply (complete_permutation_invariant demo_simple 512 two_points three_points 1 2 3).
  - apply create_model_valid.
  - reflexivity.
  - reflexivity.
  - lia.
  - left. simpl. lia.
  - reflexivity.
  - reflexivity.
  - lia.
  - left. simpl. lia.
  - constructor; [|constructor]. intros p. simpl. tauto.
Defined.

(** ** C3: rejected inputs *)

(** C3, as stated, fails: the source validates nothing and has no
    [ShapeError], nor any error of its own; the failures are the
    exceptions of the tensor library, and they are not of one kind.  On the model of
    [create_model()] a cloud of no point raises [IndexError] (the maximum
    over no point) and a cloud of points of four coordinates raises
    [RuntimeError] (the reshape). *)
Lemma bad_shapes_raise_two_exception_classes :
  complete demo_simple no_points = Raise reduce_empty /\
  exception_class reduce_empty = IndexError /\
  complete demo_simple four_coordinates = Raise view_size /\
  exception_class view_size = RuntimeError /\
  exception_class reduce_empty <> exception_class view_size.
Proof.
  pose proof (create_model_valid quarter_generator) as [Hv _].
  split; [|split; [reflexivity|split; [|split; [reflexivity|discriminate]]]].
  - destruct (SimplePCN_rejects _ no_points 1 0 3 Hv eq_refl eq_refl)
      as (e & E & He); [lia|now left|].
    cbn [Nat.eqb] in He. subst e. exact E.
  - destruct (SimplePCN_rejects _ four_coordinates 1 3 4 Hv eq_refl eq_refl)
      as (e & E & He); [lia|right; lia|].
    cbn [Nat.eqb] in He. destruct He as [->|[_ Hc]]; [exact E|].
    exfalso. apply Hc. reflexivity.
Qed.

(** C3, amended.  For every valid model, an input with no point ([n = 0])
    or whose points do not have 3 coordinates ([d <> 3]) makes [complete]
    fail, with the exception of the tensor operation that trips over it.
    In the first variant an empty cloud raises [IndexError] (the maximum
    over no point) and a wrong number of coordinates raises
    [RuntimeError] (a reshape); in the second variant both raise
    [RuntimeError] (the channel or the kernel-size check of the first
    convolution). *)
Theorem complete_rejects_bad_shape (model : Model) (f : nat) (x : Tensor)
  (b n d : nat) :
  valid_model model f ->
  shape x = [b; n; d] -> wf_tensor x -> 0 < b ->
  n = 0 \/ d <> 3 ->
  exists e,
    complete model x = Raise e /\
    exception_class e
    = match model with
      | SimpleModel _ => if n =? 0 then IndexError else RuntimeError
      | ConvModel _ => RuntimeError
      end /\
    (e = reduce_empty \/ e = view_size \/ e = view_stride \/
     e = conv_channels \/ e = conv_kernel_size).
Proof.
  intros Hvalid Hs Hwf Hb Hbad.
  destruct model as [m|m]; cbn [valid_model complete] in *.
  - destruct Hvalid as (Hv & _).
    destruct (SimplePCN_rejects m x b n d Hv Hs Hwf Hb Hbad) as (e & -> & He).
    exists e. split; [reflexivity|].
    destruct (n =? 0); [subst e; split; [reflexivity|tauto]|].
    destruct He as [->|[-> _]]; (split; [reflexivity|tauto]).
  - destruct (PointCloudCompletionNet_rejects m f x b n d Hvalid Hs Hbad)
      as [-> | ->];
      eexists; (split; [reflexivity|split; [reflexivity|tauto]]).
Qed.

Lemma complete_rejects_bad_shape_witness :
  (exists e,
      complete demo_simple no_points = Raise e /\
      exception_class e = IndexError /\
      (e = reduce_empty \/ e = view_size \/ e = view_stride \/
       e = conv_channels \/ e = conv_kernel_size)) /\
  (exists e,
      complete demo_conv four_coordinates = Raise e /\
      exception_class e = RuntimeError /\
      (e = reduce_empty \/ e = view_size \/ e = view_stride \/
       e = conv_channels \/ e = conv_kernel_size)).
Proof.
  split.
  - apply (complete_rejects_bad_shape demo_simple 512 no_points 1 0 3).
    + apply create_model_valid.
    + reflexivity.
    + reflexivity.
    + lia.
    + left. reflexivity.
  - apply (complete_rejects_bad_shape demo_conv 1024 four_coordinates 1 3 4).
    + apply model_valid.
    + reflexivity.
    + reflexivity.
    + lia.
    + right. lia.
Defined.

(** ** C4: construction and the chaining of layer widths *)

Lemma declared_chain_mismatch l i rest :
  Linear.in_features l <> i -> declared_chain i (LinearLayer l :: rest) = None.
Proof. intros H. cbn [declared_chain]. apply Nat.eqb_neq in H. now rewrite H. Qed.

Lemma PointCloudEncoder_eval_declared idim fd g :
  declared_chain idim
    (encoder_layers (PointCloudEncoder.eval (fst (PointCloudEncoder.__init__ idim fd g))))
  = Some fd.
Proof.
  destruct (PointCloudEncoder_init_fields idim fd g)
    as (c1 & c2 & c3 & -> & Hc1 & Hc2 & Hc3).
  apply chained_declared.
  unfold encoder_layers, PointEncoder_layers, block_layers.
  cbn [map concat app fst snd PointCloudEncoder.eval PointCloudEncoder.conv1
       PointCloudEncoder.conv2 PointCloudEncoder.conv3 PointCloudEncoder.bn1
       PointCloudEncoder.bn2 PointCloudEncoder.bn3].
  repeat (econstructor; eauto using conv_as_linear_wf, BatchNorm1d_init_wf).
Qed.

Lemma PointCloudDecoder_eval_declared_mismatch fd op g f :
  f <> fd ->
  declared_chain f
    (decoder_layers (PointCloudDecoder.eval (fst (PointCloudDecoder.__init__ fd op g))))
  = None.
Proof.
  intros Hf.
  destruct (PointCloudDecoder_init_fields fd op g)
    as (f1 & f2 & f3 & -> & Hf1 & Hf2 & Hf3).
  unfold decoder_layers, PointDecoder_layers, block_layers.
  cbn [map concat app fst snd PointCloudDecoder.eval PointCloudDecoder.fc1].
  apply declared_chain_mismatch. destruct Hf1 as (-> & _). congruence.
Qed.

Lemma encode_decode_mismatch idim f1 f2 op g g' x b n :
  shape x = [b; idim; n] -> 0 < n -> f1 <> f2 ->
  encode_decode
    (PointCloudEncoder.eval (fst (PointCloudEncoder.__init__ idim f1 g)))
    (PointCloudDecoder.eval (fst (PointCloudDecoder.__init__ f2 op g'))) x
  = Raise matmul_shape.
Proof.
  intros Hx Hn Hf. unfold encode_decode.
  destruct (PointCloudEncoder_eval_forward_shape idim f1 g x b n Hx Hn)
    as (features & -> & Sf).
  cbn [bind].
  now apply (PointCloudDecoder_eval_forward_mismatch f2 op g' features b f1).
Qed.

(** C4, as stated, fails: no constructor checks anything.  The encoder
    and the decoder of the second script each take their own
    [feature_dim]; built with 5 and with 7 the two are constructed, their
    declared widths do not chain (3 to 5, then 7 to 3), and it is the
    call that raises, a [RuntimeError] of the decoder's first affine
    layer. *)
Lemma mismatched_feature_dim_constructed_then_rejected_at_call :
  let enc := PointCloudEncoder.eval
               (fst (PointCloudEncoder.__init__ 3 5 quarter_generator)) in
  let dec := PointCloudDecoder.eval
               (fst (PointCloudDecoder.__init__ 7 1 quarter_generator)) in
  declared_chain 3 (encoder_layers enc) = Some 5 /\
  declared_chain 5 (decoder_layers dec) = None /\
  encode_decode enc dec point_lines = Raise matmul_shape /\
  exception_class matmul_shape = RuntimeError.
Proof.
  split; [apply PointCloudEncoder_eval_declared|].
  split; [apply PointCloudDecoder_eval_declared_mismatch; lia|].
  split; [|reflexivity].
  apply (encode_decode_mismatch 3 5 7 1 _ _ point_lines 1 2);
    [reflexivity|lia|lia].
Qed.

(** C4, amended.  Construction checks nothing, and a mismatch shows at
    the call: an encoder and a decoder built with different
    [feature_dim] raise [RuntimeError] when called one after the other.
    The two model constructors pass one width to both halves: for
    positive [feature_dim] and [output_points] the layers they build
    have declared widths that chain (3 to FEATURE_DIM in the encoder,
    FEATURE_DIM to OUTPUT_COUNT * 3 in the decoder), and a model they
    built, once in evaluation mode, completes every batch of non-empty
    clouds of 3-coordinate points without raising: the second variant in
    every memory layout of the input, the first in every layout that
    [view(-1, 3)] takes. *)
Theorem constructors_build_chained_layers (ip op fd : nat) (g : Generator)
  (x : Tensor) (b n : nat) :
  0 < fd -> 0 < op ->
  shape x = [b; n; 3] -> wf_tensor x -> 0 < n ->
  let m1 := SimplePCN.eval (fst (SimplePCN.__init__ ip op fd g)) in
  let m2 := PointCloudCompletionNet.eval
              (fst (PointCloudCompletionNet.__init__ ip op g)) in
  declared_chain 3 (SimplePCN.encoder m1) = Some fd /\
  declared_chain fd (SimplePCN.decoder m1) = Some (op * 3) /\
  declared_chain 3 (encoder_layers (PointCloudCompletionNet.encoder m2))
  = Some 1024 /\
  declared_chain 1024 (decoder_layers (PointCloudCompletionNet.decoder m2))
  = Some (op * 3) /\
  (viewable_as_rows x -> exists y, complete (SimpleModel m1) x = Ok y) /\
  (exists y, complete (ConvModel m2) x = Ok y) /\
  (forall fd' g' g'' lines,
      fd' <> fd -> transpose_1_2 x = Ok lines ->
      encode_decode
        (PointCloudEncoder.eval (fst (PointCloudEncoder.__init__ 3 fd g')))
        (PointCloudDecoder.eval (fst (PointCloudDecoder.__init__ fd' op g''))) lines
      = Raise matmul_shape).
Proof.
  intros Hfd Hop Hs Hwf Hn m1 m2.
  pose proof (SimplePCN_init_valid ip op fd g Hfd Hop) as V1.
  pose proof (PointCloudCompletionNet_init_valid ip op g Hop) as V2.
  fold m1 in V1. fold m2 in V2.
  assert (F1 : SimplePCN.feature_dim m1 = fd).
  { unfold m1. destruct (SimplePCN_init_layers ip op fd g)
      as (? & ? & ? & ? & ? & ? & -> & _). reflexivity. }
  assert (O1 : SimplePCN.output_points m1 = op).
  { unfold m1. destruct (SimplePCN_init_layers ip op fd g)
      as (? & ? & ? & ? & ? & ? & -> & _). reflexivity. }
  assert (O2 : PointCloudCompletionNet.output_points m2 = op).
  { unfold m2. destruct (PointCloudCompletionNet_init_fields ip op g)
      as (? & ? & ? & ? & ? & ? & -> & _). reflexivity. }
  pose proof V1 as (_ & _ & E1 & D1 & _). rewrite F1 in E1. rewrite F1, O1 in D1.
  pose proof V2 as (_ & D2 & _). rewrite O2 in D2.
  split; [now apply chained_declared|].
  split; [now apply chained_declared|].
  split; [apply chained_declared; now apply (encoder_layers_chained m2 1024)|].
  split; [now apply chained_declared|].
  split; [|split].
  - intros Hl. eexists.
    apply (complete_tensor (SimpleModel m1) fd (conj V1 F1) x b n Hs Hwf Hn Hl).
  - eexists. apply (complete_tensor (ConvModel m2) 1024 V2 x b n Hs Hwf Hn I).
  - intros fd' g' g'' lines Hne Ht.
    destruct (transpose_1_2_shape x b n 3 Hs) as (y & Ey & Sy).
    rewrite Ey in Ht. injection Ht as <-.
    apply (encode_decode_mismatch 3 fd fd' op g' g'' y b n Sy Hn).
    congruence.
Qed.

Lemma constructors_build_chained_layers_witness :
  let m1 := SimplePCN.eval (fst (SimplePCN.__init__ 1024 2048 512 quarter_generator)) in
  let m2 := PointCloudCompletionNet.eval
              (fst (PointCloudCompletionNet.__init__ 1024 2048 quarter_generator)) in
  declared_chain 3 (SimplePCN.encoder m1) = Some 512 /\
  declared_chain 512 (SimplePCN.decoder m1) = Some (2048 * 3) /\
  declared_chain 3 (encoder_layers (PointCloudCompletionNet.encoder m2))
  = Some 1024 /\
  declared_chain 1024 (decoder_layers (PointCloudCompletionNet.decoder m2))
  = Some (2048 * 3) /\
  (exists y, complete (SimpleModel m1) two_points = Ok y) /\
  (exists y, complete (ConvModel m2) two_points = Ok y) /\
  (forall fd' g' g'' lines,
      fd' <> 512 -> transpose_1_2 two_points = Ok lines ->
      encode_decode
        (PointCloudEncoder.eval (fst (PointCloudEncoder.__init__ 3 512 g')))
        (PointCloudDecoder.eval (fst (PointCloudDecoder.__init__ fd' 2048 g''))) lines
      = Raise matmul_shape).
Proof.
  destruct (constructors_build_chained_layers 1024 2048 512 quarter_generator
              two_points 1 2)
    as (H1 & H2 & H3 & H4 & H5 & H6 & H7); [lia|lia|reflexivity|reflexivity|lia|].
  split; [exact H1|]. split; [exact H2|]. split; [exact H3|]. split; [exact H4|].
  split; [apply H5; left; simpl; lia|]. split; [exact H6|exact H7].
Defined.

(** ** C5: normalisation at inference *)

(** C5.  A normalisation layer in evaluation mode maps every point (row
    of channels) of its input by the formula
    z = scale * (y - mean) / sqrt(var + eps) + shift on the stored
    per-channel constants: the result for a point depends on that point
    and the stored constants only, neither on the other points nor on
    how many there are.  This holds for the (points, channels) inputs of
    the first variant and the (batch, channels, points) inputs of the
    second; and every normalisation layer of the two demonstration
    models is in evaluation mode, [eval()] having been called. *)
Theorem normalization_uses_stored_statistics (bn : BatchNorm1d.t) (c : nat) :
  wf_BatchNorm1d bn c ->
  (forall n rows,
      length rows = n -> Forall (fun r => length r = c) rows ->
      BatchNorm1d.forward bn (mkTensor [n; c] (concat rows))
      = Ok (mkTensor [n; c] (concat (map (spec_normalize_point bn) rows)))) /\
  (forall b n cs,
      cloud_batch b n c cs ->
      BatchNorm1d.forward bn (mkTensor [b; c; n] (lines_data c cs))
      = Ok (mkTensor [b; c; n]
              (lines_data c (map (map (spec_normalize_point bn)) cs)))) /\
  (forall g,
      Forall (fun bn' => BatchNorm1d.training bn' = false)
        (normalizations (SimpleModel (fst (create_model g)))) /\
      Forall (fun bn' => BatchNorm1d.training bn' = false)
        (normalizations (ConvModel (fst (model g))))).
Proof.
  intros Hwf.
  assert (Ht : BatchNorm1d.training bn = false) by apply Hwf.
  split; [|split].
  - intros n rows Hn Hrows.
    rewrite (BatchNorm1d_forward_rows bn c n rows Hwf Hn Hrows).
    do 3 f_equal. apply map_ext. intros r. now apply BatchNorm_point_spec.
  - intros b n cs Hcs.
    rewrite (BatchNorm1d_forward_batch bn c b n cs Hwf Hcs).
    do 3 f_equal. apply map_ext. intros cl. apply map_ext. intros r.
    now apply BatchNorm_point_spec.
  - intros g. rewrite create_model_normalizations, model_normalizations.
    split; apply Forall_map, Forall_forall; intros k _; reflexivity.
Qed.

Lemma normalization_uses_stored_statistics_witness :
  (forall n rows,
      length rows = n -> Forall (fun r => length r = 2) rows ->
      BatchNorm1d.forward bn_eval (mkTensor [n; 2] (concat rows))
      = Ok (mkTensor [n; 2] (concat (map (spec_normalize_point bn_eval) rows)))) /\
  (forall b n cs,
      cloud_batch b n 2 cs ->
      BatchNorm1d.forward bn_eval (mkTensor [b; 2; n] (lines_data 2 cs))
      = Ok (mkTensor [b; 2; n]
              (lines_data 2 (map (map (spec_normalize_point bn_eval)) cs)))) /\
  (forall g,
      Forall (fun bn' => BatchNorm1d.training bn' = false)
        (normalizations (SimpleModel (fst (create_model g)))) /\
      Forall (fun bn' => BatchNorm1d.training bn' = false)
        (normalizations (ConvModel (fst (model g))))).
Proof.
  apply (normalization_uses_stored_statistics bn_eval 2).
  apply BatchNorm1d_init_wf.
Defined.

(** ** C6: the decoder's last layer *)



(** ** C7: the reshape of the decoder's output *)

(** C7.  The completed cloud is the decoder's flat output of width
    OUTPUT_COUNT * 3 read row-major: coordinate [c] of output point [i]
    (of cloud [k]) is the flat entry at position [3 * i + c].  (The input
    is in a memory layout that the model takes.) *)
Theorem completed_reshape_row_major (model : Model) (f : nat) (x : Tensor)
  (b n : nat) :
  valid_model model f ->
  shape x = [b; n; 3] -> wf_tensor x -> 0 < n -> accepts_layout model x ->
  exists flat y,
    decoder_output model x = Ok flat /\
    shape flat = [b; output_count model * 3] /\
    complete model x = Ok y /\
    shape y = [b; output_count model; 3] /\
    forall k i c,
      k < b -> i < output_count model -> c < 3 ->
      exists v,
        get y [k; i; c] = Some v /\ get flat [k; 3 * i + c] = Some v.
Proof.
  intros Hvalid Hs Hwf Hn Hl.
  exists (mkTensor [b; output_count model * 3] (completed_data model f (clouds x))),
         (mkTensor [b; output_count model; 3] (completed_data model f (clouds x))).
  split; [now apply (decoder_output_tensor model f Hvalid x b n)|].
  split; [reflexivity|].
  split; [now apply (complete_tensor model f Hvalid x b n)|].
  split; [reflexivity|].
  intros k i c Hk Hi Hc3. unfold get. cbn [shape data].
  rewrite offset_3, offset_2 by lia.
  replace (k * (output_count model * 3) + (3 * i + c))
    with (k * (output_count model * 3) + (i * 3 + c)) by lia.
  pose proof (completed_data_length model f Hvalid x b n Hs Hwf) as Hlen.
  destruct (nth_error (completed_data model f (clouds x))
              (k * (output_count model * 3) + (i * 3 + c))) as [v|] eqn:E.
  - exists v. now split.
  - apply nth_error_None in E. nia.
Qed.

Lemma completed_reshape_row_major_witness :
  exists flat y,
    decoder_output demo_simple two_points = Ok flat /\
    shape flat = [1; output_count demo_simple * 3] /\
    complete demo_simple two_points = Ok y /\
    shape y = [1; output_count demo_simple; 3] /\
    forall k i c,
      k < 1 -> i < output_count demo_simple -> c < 3 ->
      exists v,
        get y [k; i; c] = Some v /\ get flat [k; 3 * i + c] = Some v.
Proof.
  apply (completed_reshape_row_major demo_simple 512 two_points 1 2).
  - apply create_model_valid.
  - reflexivity.
  - reflexivity.
  - lia.
  - left. simpl. lia.
Defined.

(** ** C8: the demonstration initialisation *)

(** C8, as stated, fails for the [SimplePCN] variant: with every draw of
    the generator equal to 1/4, the biases that [create_model()] leaves
    in the model are not zeros. *)
Lemma create_model_bias_not_zero :
  ~ Forall (xavier_zero (draws quarter_generator)) (affine_parameters demo_simple).
Proof.
  unfold demo_simple.
  destruct (create_model_parameters quarter_generator)
    as (g1 & g2 & g3 & g4 & g5 & _ & _ & _ & _ & _ & ->).
  cbn [map]. intros H. apply Forall_inv in H. destruct H as (_ & Hz).
  unfold zero_filled in Hz. cbn [snd] in Hz.
  destruct (Linear_init_default 3 128 quarter_generator) as (_ & (pos & Hb));
    [lia|lia|].
  destruct (Linear_init_wf 3 128 quarter_generator)
    as (_ & _ & (Hws & _) & (Hbs & _)).
  cbn [fst snd] in Hb. rewrite Hws, Hbs in Hb. rewrite Hbs in Hz.
  rewrite numel_1 in Hb, Hz.
  assert (Hhead :
            nth 0 (data (Linear.bias (fst (Linear.__init__ 3 128 quarter_generator))))
              0%R = 0%R)
    by (rewrite Hz; apply head_of_zeros; lia).
  rewrite Hb, head_of_fill in Hhead by lia.
  cbn [draws quarter_generator init.calculate_fan_in_and_fan_out fst] in Hhead.
  change (numel []) with 1 in Hhead.
  assert (Hs : (0 < sqrt (INR (3 * 1)))%R).
  { apply sqrt_lt_R0. apply lt_0_INR. lia. }
  assert (Hi : (0 < 1 / sqrt (INR (3 * 1)))%R).
  { apply Rdiv_lt_0_compat; lra. }
  lra.
Qed.

(** C8, amended.  In the demonstration configuration of
    [PointCloudCompletionNet], [init_weights] leaves in each of the six
    affine layers a Xavier/Glorot-uniform weight (within the Xavier bound
    when the draws are in the unit interval) and a zero bias; the six
    affine layers of [create_model()]'s [SimplePCN] keep the default
    initialisation of their constructor, weight and bias both drawn
    uniformly. *)
Theorem demonstration_initialisation (g : Generator) :
  Forall (xavier_zero (draws g)) (affine_parameters (ConvModel (fst (model g)))) /\
  length (affine_parameters (ConvModel (fst (model g)))) = 6 /\
  ((forall k, (0 <= draws g k < 1)%R) ->
   Forall within_xavier_bound (affine_parameters (ConvModel (fst (model g))))) /\
  Forall (default_init (draws g))
    (affine_parameters (SimpleModel (fst (create_model g)))) /\
  length (affine_parameters (SimpleModel (fst (create_model g)))) = 6.
Proof.
  pose proof (model_parameters g) as Hx.
  split; [exact Hx|]. split; [reflexivity|]. split; [|split].
  - intros Hu. eapply Forall_impl; [|exact Hx].
    intros [w b] (Hw & _). unfold within_xavier_bound. cbn [fst] in *.
    apply (uniform_fill_bound (draws g));
      [apply xavier_bound_nonneg|exact Hu|exact Hw].
  - apply create_model_default_parameters.
  - destruct (create_model_parameters g)
      as (g1 & g2 & g3 & g4 & g5 & _ & _ & _ & _ & _ & ->).
    reflexivity.
Qed.

Lemma demonstration_initialisation_witness :
  Forall (xavier_zero (draws quarter_generator)) (affine_parameters demo_conv) /\
  Forall within_xavier_bound (affine_parameters demo_conv).
Proof.
  destruct (demonstration_initialisation quarter_generator)
    as (Hx & _ & Hb & _).
  split; [exact Hx|]. apply Hb. intros k. cbn [draws quarter_generator]. lra.
Defined.

(** ** C9: the guarded division *)

(** C9, as stated, fails: the guard keeps the denominator away from zero,
    it does not keep the output finite.  With a stored variance of 0 the
    step multiplies its centred input by 1 / sqrt(1e-5), about 316: on
    the finite binary32 input 2^127 the value of the step is beyond
    2^128, past every finite binary32 number. *)
Lemma zero_variance_overflows_binary32 :
  float32_finite (2 ^ 127) /\
  exists v,
    BatchNorm1d.forward zero_variance_bn (mkTensor [1; 1] [2 ^ 127]%R)
    = Ok (mkTensor [1; 1] [v]) /\
    (2 ^ 128 <= v)%R /\
    ~ float32_finite v.
Proof.
  assert (HP : (0 < 2 ^ 127)%R) by (apply pow_lt; lra).
  assert (H23 : (0 < / 2 ^ 23 <= / 2)%R).
  { split; [apply Rinv_0_lt_compat, pow_lt; lra|].
    apply Rinv_le_contravar; [lra|]. change (2 ^ 23)%R with (2 * 2 ^ 22)%R.
    assert (1 <= 2 ^ 22)%R by (apply pow_R1_Rle; lra). lra. }
  split.
  - unfold float32_finite, float32_max. rewrite Rabs_pos_eq by lra. nra.
  - exists ((2 ^ 127 - 0) / sqrt (0 + 1 / 100000) * 1 + 0)%R.
    split; [reflexivity|].
    unfold float32_finite, float32_max. change (2 ^ 128)%R with (2 * 2 ^ 127)%R.
    set (P := (2 ^ 127)%R) in *.
    replace (0 + 1 / 100000)%R with (1 / 100000)%R by lra.
    pose proof sqrt_eps_half as Hs.
    assert (Hs0 : (0 < sqrt (1 / 100000))%R) by (apply sqrt_lt_R0; lra).
    set (s := sqrt (1 / 100000)) in *.
    assert (Hq : (2 * P <= (P - 0) / s * 1 + 0)%R).
    { replace ((P - 0) / s * 1 + 0)%R with (P / s)%R by (field; lra).
      apply (Rmult_le_reg_r s); [exact Hs0|].
      replace (P / s * s)%R with P by (field; lra). nra. }
    split; [exact Hq|].
    rewrite Rabs_pos_eq by lra. nra.
Qed.

(** C9, amended.  Every normalisation layer of the two demonstration
    models has the stability constant epsilon = 1e-5.  With it a layer
    in evaluation mode whose stored variances are not negative (0
    included) returns on every input, the value of the specification's
    formula: the denominator sqrt(var + eps) is at least sqrt(1e-5), so
    there is no division by zero, and in exact arithmetic every output
    differs from the shift by at most |scale * (x - mean)| / sqrt(1e-5).
    That the binary32 output is finite does not follow. *)
Theorem normalization_division_guarded (bn : BatchNorm1d.t) (c : nat) :
  wf_BatchNorm1d bn c ->
  BatchNorm1d.eps bn = (1 / 100000)%R ->
  Forall (fun v => (0 <= v)%R) (data (BatchNorm1d.running_var bn)) ->
  (forall n rows,
      length rows = n -> Forall (fun r => length r = c) rows ->
      BatchNorm1d.forward bn (mkTensor [n; c] (concat rows))
      = Ok (mkTensor [n; c] (concat (map (spec_normalize_point bn) rows)))) /\
  (forall b n cs,
      cloud_batch b n c cs ->
      BatchNorm1d.forward bn (mkTensor [b; c; n] (lines_data c cs))
      = Ok (mkTensor [b; c; n]
              (lines_data c (map (map (spec_normalize_point bn)) cs)))) /\
  (forall row j,
      length row = c -> j < c ->
      let scale := nth j (data (BatchNorm1d.weight bn)) 0%R in
      let shift := nth j (data (BatchNorm1d.bias bn)) 0%R in
      let mean := nth j (data (BatchNorm1d.running_mean bn)) 0%R in
      let var := nth j (data (BatchNorm1d.running_var bn)) 0%R in
      let z := nth j (spec_normalize_point bn row) 0%R in
      (sqrt (1 / 100000) <= sqrt (var + BatchNorm1d.eps bn))%R /\
      (0 < sqrt (var + BatchNorm1d.eps bn))%R /\
      ((z - shift) * sqrt (var + BatchNorm1d.eps bn)
       = scale * (nth j row 0 - mean))%R /\
      (Rabs (z - shift) * sqrt (1 / 100000)
       <= Rabs (scale * (nth j row 0 - mean)))%R) /\
  (forall g,
      Forall (fun bn' => BatchNorm1d.eps bn' = (1 / 100000)%R)
        (normalizations (SimpleModel (fst (create_model g)))) /\
      Forall (fun bn' => BatchNorm1d.eps bn' = (1 / 100000)%R)
        (normalizations (ConvModel (fst (model g))))).
Proof.
  intros Hwf He Hvar.
  assert (Ht : BatchNorm1d.training bn = false) by apply Hwf.
  split; [|split; [|split]].
  - intros n rows Hn Hrows.
    rewrite (BatchNorm1d_forward_rows bn c n rows Hwf Hn Hrows).
    do 3 f_equal. apply map_ext. intros r. now apply BatchNorm_point_spec.
  - intros b n cs Hcs.
    rewrite (BatchNorm1d_forward_batch bn c b n cs Hwf Hcs).
    do 3 f_equal. apply map_ext. intros cl. apply map_ext. intros r.
    now apply BatchNorm_point_spec.
  - intros row j Hrow Hj. cbv zeta.
    rewrite spec_normalize_point_nth by lia. rewrite He.
    apply spec_normalize_guarded; [now apply nth_nonneg|lra].
  - intros g. rewrite create_model_normalizations, model_normalizations.
    split; apply Forall_map, Forall_forall; intros k _; reflexivity.
Qed.

Lemma normalization_division_guarded_witness :
  (forall n rows,
      length rows = n -> Forall (fun r => length r = 2) rows ->
      BatchNorm1d.forward bn_eval (mkTensor [n; 2] (concat rows))
      = Ok (mkTensor [n; 2] (concat (map (spec_normalize_point bn_eval) rows)))) /\
  (forall b n cs,
      cloud_batch b n 2 cs ->
      BatchNorm1d.forward bn_eval (mkTensor [b; 2; n] (lines_data 2 cs))
      = Ok (mkTensor [b; 2; n]
              (lines_data 2 (map (map (spec_normalize_point bn_eval)) cs)))) /\
  (forall row j,
      length row = 2 -> j < 2 ->
      let scale := nth j (data (BatchNorm1d.weight bn_eval)) 0%R in
      let shift := nth j (data (BatchNorm1d.bias bn_eval)) 0%R in
      let mean := nth j (data (BatchNorm1d.running_mean bn_eval)) 0%R in
      let var := nth j (data (BatchNorm1d.running_var bn_eval)) 0%R in
      let z := nth j (spec_normalize_point bn_eval row) 0%R in
      (sqrt (1 / 100000) <= sqrt (var + BatchNorm1d.eps bn_eval))%R /\
      (0 < sqrt (var + BatchNorm1d.eps bn_eval))%R /\
      ((z - shift) * sqrt (var + BatchNorm1d.eps bn_eval)
       = scale * (nth j row 0 - mean))%R /\
      (Rabs (z - shift) * sqrt (1 / 100000)
       <= Rabs (scale * (nth j row 0 - mean)))%R) /\
  (forall g,
      Forall (fun bn' => BatchNorm1d.eps bn' = (1 / 100000)%R)
        (normalizations (SimpleModel (fst (create_model g)))) /\
      Forall (fun bn' => BatchNorm1d.eps bn' = (1 / 100000)%R)
        (normalizations (ConvModel (fst (model g))))).
Proof.
  apply (normalization_division_guarded bn_eval 2).
  - apply BatchNorm1d_init_wf.
  - reflexivity.
  - simpl. repeat constructor; lra.
Defined.

(** ** C10: the sign of the global descriptor *)



(* ================================================================== *)
(** * Part V.  Further properties of the code *)
(* ================================================================== *)

(** ** The clouds of a batch, and the maximum over the points *)

Lemma pool_nth f rows j :
  j < f -> nth j (pool f rows) 0%R = list_max (column j rows).
Proof.
  intros Hj. unfold pool.
  rewrite (nth_map_lt (fun j => list_max (column j rows)) (seq 0 f) j 0 0%R)
    by now rewrite length_seq.
  now rewrite seq_nth.
Qed.

Lemma pool_channelwise_maximum f rows :
  rows <> [] -> channelwise_maximum f rows (pool f rows).
Proof.
  intros Hne. split; [apply pool_length|]. intros j Hj.
  rewrite (pool_nth f rows j Hj). split.
  - assert (Hc : column j rows <> []).
    { destruct rows; [contradiction|discriminate]. }
    pose proof (list_max_in (column j rows) Hc) as Hin.
    unfold column in Hin at 2. apply in_map_iff in Hin.
    destruct Hin as (r & Hr & Hin). exists r. split; [exact Hin|now symmetry].
  - intros r Hr. apply list_max_ge. unfold column.
    apply in_map_iff. exists r. split; [reflexivity|exact Hr].
Qed.

Lemma Forall2_map_r_intro {A B} (P : A -> B -> Prop) (h : A -> B) (l : list A) :
  Forall (fun a => P a (h a)) l -> Forall2 P l (map h l).
Proof. induction 1; cbn; constructor; assumption. Qed.

Lemma cloud_batch_nonempty b n d cs c :
  cloud_batch b n d cs -> 0 < n -> In c cs -> c <> [].
Proof.
  intros (_ & Hn & _) Hpos Hin. rewrite Forall_forall in Hn.
  specialize (Hn c Hin). destruct c; [cbn in Hn; lia|discriminate].
Qed.

(** X1.  The global descriptor of each cloud is the channel-wise maximum
    of the per-point features of that cloud: every entry is the feature
    of some point of the cloud in that channel, and no point of the cloud
    has a larger one.  It is what the forward pass decodes: the
    completed cloud holds the decoder's output on each row of the
    descriptor.  (The input is in a memory layout that the model
    takes.) *)
Theorem descriptor_is_channelwise_maximum (model : Model) (f : nat) (x : Tensor)
  (b n : nat) :
  valid_model model f ->
  shape x = [b; n; 3] -> wf_tensor x -> 0 < n -> accepts_layout model x ->
  exists g y,
    global_descriptor model x = Ok g /\
    Forall2 (fun c row => channelwise_maximum f (map (point_feature model) c) row)
      (clouds x) (chunks f b (data g)) /\
    complete model x = Ok y /\
    data y = concat (map (decode_descriptor model) (chunks f b (data g))).
Proof.
  intros Hvalid Hx Hwf Hn Hl.
  destruct (batch_of_tensor x b n 3 Hx Hwf) as (Hcs & _).
  eexists. eexists.
  split; [apply (global_descriptor_tensor model f Hvalid x b n Hx Hwf Hn Hl)|].
  cbn [data]. rewrite (descriptor_rows model f b (clouds x)) by apply Hcs.
  split; [|split].
  - apply Forall2_map_r_intro, Forall_forall. intros c Hc.
    apply pool_channelwise_maximum.
    pose proof (cloud_batch_nonempty b n 3 (clouds x) c Hcs Hn Hc) as Hne.
    destruct c; [contradiction|discriminate].
  - apply (complete_tensor model f Hvalid x b n Hx Hwf Hn Hl).
  - cbn [data]. unfold completed_data. now rewrite map_map.
Qed.

Lemma descriptor_is_channelwise_maximum_witness :
  exists g y,
    global_descriptor demo_simple two_points = Ok g /\
    Forall2 (fun c row => channelwise_maximum 512 (map (point_feature demo_simple) c) row)
      (clouds two_points) (chunks 512 1 (data g)) /\
    complete demo_simple two_points = Ok y /\
    data y = concat (map (decode_descriptor demo_simple) (chunks 512 1 (data g))).
Proof.
  apply (descriptor_is_channelwise_maximum demo_simple 512 two_points 1 2).
  - apply create_model_valid.
  - reflexivity.
  - reflexivity.
  - lia.
  - left. simpl. lia.
Defined.

(** ** Each cloud of a batch on its own *)

Lemma completed_clouds model f b cs :
  valid_model model f -> length cs = b ->
  clouds (mkTensor [b; output_count model; 3] (completed_data model f cs))
  = map (fun c => chunks 3 (output_count model)
                    (decode_descriptor model (pool f (map (point_feature model) c))))
        cs.
Proof.
  intros Hvalid Hb. unfold clouds, completed_data. cbn [shape data].
  rewrite <- Hb at 1.
  rewrite <- (length_map (fun c => decode_descriptor model
                                     (pool f (map (point_feature model) c))) cs).
  rewrite chunks_concat.
  - now rewrite map_map.
  - apply Forall_map, Forall_forall. intros c _.
    apply (decode_descriptor_length model f Hvalid). apply pool_length.
Qed.

Lemma single_cloud_batch c :
  Forall (fun p => length p = 3) c ->
  cloud_batch 1 (length c) 3 [c] /\
  single_cloud c = mkTensor [1; length c; 3] (concat (concat [c])).
Proof.
  intros Hc. split.
  - split; [reflexivity|]. split; constructor; auto.
  - unfold single_cloud. cbn [concat]. now rewrite app_nil_r.
Qed.

Lemma complete_single_cloud model f c :
  valid_model model f -> Forall (fun p => length p = 3) c -> c <> [] ->
  complete model (single_cloud c)
  = Ok (mkTensor [1; output_count model; 3] (completed_data model f [c])).
Proof.
  intros Hvalid Hc Hne.
  destruct (single_cloud_batch c Hc) as (Hb & ->).
  apply (complete_batch model f Hvalid 1 (length c) [c] Hb).
  destruct c; [contradiction|cbn; lia].
Qed.

(** X2.  In exact arithmetic every cloud of a batch is completed on its
    own: entry [k] of the result on a batch (in a memory layout that the
    model takes) is the result on cloud [k] alone, given as a contiguous
    batch of one.  The other clouds of the batch have no influence. *)
Theorem clouds_completed_independently (model : Model) (f : nat) (x : Tensor)
  (b n k : nat) (c : list (list R)) :
  valid_model model f ->
  shape x = [b; n; 3] -> wf_tensor x -> 0 < n -> accepts_layout model x ->
  nth_error (clouds x) k = Some c ->
  exists y y1 completed,
    complete model x = Ok y /\
    complete model (single_cloud c) = Ok y1 /\
    nth_error (clouds y) k = Some completed /\
    clouds y1 = [completed].
Proof.
  intros Hvalid Hx Hwf Hn Hl Hk.
  destruct (batch_of_tensor x b n 3 Hx Hwf) as (Hcs & _).
  assert (Hin : In c (clouds x)) by (eapply nth_error_In; eassumption).
  assert (Hc3 : Forall (fun p => length p = 3) c).
  { destruct Hcs as (_ & _ & H3). rewrite Forall_forall in H3. now apply H3. }
  pose proof (cloud_batch_nonempty b n 3 (clouds x) c Hcs Hn Hin) as Hne.
  eexists. eexists. eexists.
  split; [apply (complete_tensor model f Hvalid x b n Hx Hwf Hn Hl)|].
  split; [apply (complete_single_cloud model f c Hvalid Hc3 Hne)|].
  rewrite (completed_clouds model f b (clouds x) Hvalid) by apply Hcs.
  rewrite (completed_clouds model f 1 [c] Hvalid) by reflexivity.
  split; [|reflexivity].
  now rewrite nth_error_map, Hk.
Qed.

Lemma clouds_completed_independently_witness :
  exists y y1 completed,
    complete demo_conv cloud_pair = Ok y /\
    complete demo_conv (single_cloud [[4; 5; 6]]%R) = Ok y1 /\
    nth_error (clouds y) 1 = Some completed /\
    clouds y1 = [completed].
Proof.
  apply (clouds_completed_independently demo_conv 1024 cloud_pair 2 1 1).
  - apply model_valid.
  - reflexivity.
  - reflexivity.
  - lia.
  - exact I.
  - reflexivity.
Defined.

(** ** Points that add nothing to the maximum *)

Lemma fold_left_Rmax_dominated l m :
  Forall (fun v => (v <= m)%R) l -> fold_left Rmax l m = m.
Proof.
  induction 1 as [|v l Hv _ IH]; [reflexivity|].
  cbn [fold_left]. rewrite Rmax_left by exact Hv. exact IH.
Qed.

Lemma list_max_app_dominated l l' :
  l <> [] -> Forall (fun v => (v <= list_max l)%R) l' ->
  list_max (l ++ l') = list_max l.
Proof.
  intros Hne Hdom. destruct l as [|x xs]; [contradiction|].
  cbn [app list_max] in *. rewrite fold_left_app.
  now apply fold_left_Rmax_dominated.
Qed.

Lemma pool_app_dominated f (rows extra : list (list R)) :
  rows <> [] ->
  (forall r j, In r extra -> j < f -> (nth j r 0 <= nth j (pool f rows) 0)%R) ->
  pool f (rows ++ extra) = pool f rows.
Proof.
  intros Hne Hdom. unfold pool. apply map_ext_in. intros j Hj.
  apply in_seq in Hj.
  assert (Happ : column j (rows ++ extra) = column j rows ++ column j extra)
    by (unfold column; apply map_app).
  rewrite Happ. apply list_max_app_dominated.
  - destruct rows; [contradiction|discriminate].
  - apply Forall_forall. intros v Hv. unfold column in Hv at 1.
    apply in_map_iff in Hv. destruct Hv as (r & <- & Hr).
    rewrite <- (pool_nth f rows j) by lia. apply Hdom; [exact Hr|lia].
Qed.

Lemma global_descriptor_single_cloud model f c :
  valid_model model f -> Forall (fun p => length p = 3) c -> c <> [] ->
  global_descriptor model (single_cloud c)
  = Ok (mkTensor (descriptor_shape model 1 f)
          (pool f (map (point_feature model) c) ++ [])).
Proof.
  intros Hvalid Hc Hne.
  destruct (single_cloud_batch c Hc) as (Hb & ->).
  apply (global_descriptor_batch model f Hvalid 1 (length c) [c] Hb).
  destruct c; [contradiction|cbn; lia].
Qed.

(** X3.  Points whose features are, channel by channel, no larger than
    those of some point already in the cloud do not count: adding them
    changes neither the global descriptor nor the completed cloud. *)
Theorem dominated_points_change_nothing (model : Model) (f : nat)
  (c extra : list (list R)) :
  valid_model model f ->
  Forall (fun p => length p = 3) c -> c <> [] ->
  Forall (fun p => length p = 3) extra ->
  (forall p j, In p extra -> j < f ->
     exists q, In q c /\
       (nth j (point_feature model p) 0 <= nth j (point_feature model q) 0)%R) ->
  global_descriptor model (single_cloud (c ++ extra))
  = global_descriptor model (single_cloud c) /\
  complete model (single_cloud (c ++ extra)) = complete model (single_cloud c).
Proof.
  intros Hvalid Hc Hne He Hdom.
  assert (Hce : Forall (fun p => length p = 3) (c ++ extra))
    by (apply Forall_app; now split).
  assert (Hne' : c ++ extra <> []) by (destruct c; [contradiction|discriminate]).
  assert (Hfne : map (point_feature model) c <> [])
    by (destruct c; [contradiction|discriminate]).
  assert (Hpool : pool f (map (point_feature model) (c ++ extra))
                  = pool f (map (point_feature model) c)).
  { rewrite map_app. apply (pool_app_dominated f _ _ Hfne).
    intros r j Hr Hj. apply in_map_iff in Hr. destruct Hr as (p & <- & Hp).
    destruct (Hdom p j Hp Hj) as (q & Hq & Hle).
    eapply Rle_trans; [exact Hle|].
    destruct (pool_channelwise_maximum f _ Hfne) as (_ & Hmax).
    apply (Hmax j Hj). now apply in_map. }
  split.
  - rewrite (global_descriptor_single_cloud model f _ Hvalid Hce Hne'),
      (global_descriptor_single_cloud model f c Hvalid Hc Hne).
    now rewrite Hpool.
  - rewrite (complete_single_cloud model f _ Hvalid Hce Hne'),
      (complete_single_cloud model f c Hvalid Hc Hne).
    unfold completed_data. cbn [map]. now rewrite Hpool.
Qed.

Lemma dominated_points_change_nothing_witness :
  global_descriptor demo_simple
    (single_cloud ([[1; 2; 3]; [4; 5; 6]] ++ [[1; 2; 3]])%R)
  = global_descriptor demo_simple (single_cloud [[1; 2; 3]; [4; 5; 6]]%R) /\
  complete demo_simple (single_cloud ([[1; 2; 3]; [4; 5; 6]] ++ [[1; 2; 3]])%R)
  = complete demo_simple (single_cloud [[1; 2; 3]; [4; 5; 6]]%R).
Proof.
  apply (dominated_points_change_nothing demo_simple 512).
  - apply create_model_valid.
  - repeat constructor.
  - discriminate.
  - repeat constructor.
  - intros p j [<-|[]] Hj. exists [1; 2; 3]%R. split; [now left|apply Rle_refl].
Defined.

(** ** What decides the outcome of a call *)

Lemma same_outcome_bind r r' (k k' : Tensor -> result Tensor) :
  same_outcome r r' ->
  (forall y y', same_layout y y' -> same_outcome (k y) (k' y')) ->
  same_outcome (bind r k) (bind r' k').
Proof.
  intros H Hk. destruct r, r'; cbn in *; try contradiction; auto.
Qed.

Lemma view_same x x' dims :
  same_layout x x' -> same_outcome (view x dims) (view x' dims).
Proof.
  intros [H Hst]. unfold view. rewrite H, Hst.
  destruct (infer_size (numel (shape x')) dims) as [s|e]; cbn [bind];
    [|reflexivity].
  destruct (compute_stride (shape x') (strides x') s); cbn; [now split|reflexivity].
Qed.

Lemma Linear_forward_same l l' x x' :
  Linear_signature l = Linear_signature l' -> same_layout x x' ->
  same_outcome (Linear.forward l x) (Linear.forward l' x').
Proof.
  intros Hl [H _]. injection Hl as Hw Hb.
  unfold Linear.forward. rewrite Hw, Hb, H.
  destruct (shape (Linear.weight l')) as [|o [|i [|? ?]]]; cbn; try reflexivity;
    destruct (rev (shape x')); cbn; try reflexivity.
  destruct (negb _); cbn; [reflexivity|].
  destruct (negb _); cbn; [reflexivity|now split].
Qed.

Lemma has_channels_signature bn bn' c :
  BatchNorm1d_signature bn = BatchNorm1d_signature bn' ->
  BatchNorm1d.has_channels bn c = BatchNorm1d.has_channels bn' c.
Proof.
  intros H. injection H as H1 H2 H3 H4 _.
  unfold BatchNorm1d.has_channels. now rewrite H1, H2, H3, H4.
Qed.

Lemma BatchNorm1d_forward_same bn bn' x x' :
  BatchNorm1d_signature bn = BatchNorm1d_signature bn' -> same_layout x x' ->
  same_outcome (BatchNorm1d.forward bn x) (BatchNorm1d.forward bn' x').
Proof.
  intros Hbn [H _]. unfold BatchNorm1d.forward. rewrite H.
  assert (Ht : BatchNorm1d.training bn = BatchNorm1d.training bn')
    by now injection Hbn.
  destruct (shape x') as [|n [|c [|l [|? ?]]]]; cbn; try reflexivity;
    rewrite Ht, (has_channels_signature bn bn' c Hbn).
  - destruct (_ && _); cbn; [reflexivity|].
    destruct (negb _); cbn; [reflexivity|now split].
  - destruct (_ && _); cbn; [reflexivity|].
    destruct (negb _); cbn; [reflexivity|now split].
Qed.

Lemma conv_batch_same cv cv' o i k b c l d d' s :
  numel (shape (Conv1d.bias cv)) = numel (shape (Conv1d.bias cv')) ->
  same_outcome (y <- Conv1d.conv_batch cv o i k b c l d ;; Ok (mkTensor s y))
               (y <- Conv1d.conv_batch cv' o i k b c l d' ;; Ok (mkTensor s y)).
Proof.
  intros Hb. unfold Conv1d.conv_batch. rewrite Hb.
  destruct (negb (c =? i)); [reflexivity|].
  destruct (negb _); [reflexivity|].
  destruct (l <? k); [reflexivity|now split].
Qed.

Lemma Conv1d_forward_same cv cv' x x' :
  Conv1d_signature cv = Conv1d_signature cv' -> same_layout x x' ->
  same_outcome (Conv1d.forward cv x) (Conv1d.forward cv' x').
Proof.
  intros Hcv [H _]. injection Hcv as Hw Hb.
  unfold Conv1d.forward. rewrite Hw, H.
  destruct (shape (Conv1d.weight cv')) as [|o [|i [|k [|? ?]]]]; cbn; try reflexivity.
  destruct (shape x') as [|c [|l [|l' [|? ?]]]]; cbn -[Conv1d.conv_batch]; try reflexivity.
  - now apply conv_batch_same.
  - now apply conv_batch_same.
Qed.

Lemma Layer_forward_same m m' x x' :
  Layer_signature m = Layer_signature m' -> same_layout x x' ->
  same_outcome (Layer_forward m x) (Layer_forward m' x').
Proof.
  intros Hm H. destruct m, m'; cbn [Layer_signature] in Hm; try discriminate;
    cbn [Layer_forward].
  - apply Linear_forward_same; [congruence|exact H].
  - apply BatchNorm1d_forward_same; [congruence|exact H].
  - exact H.
Qed.

Lemma Sequential_forward_same layers layers' x x' :
  map Layer_signature layers = map Layer_signature layers' -> same_layout x x' ->
  same_outcome (Sequential.forward layers x) (Sequential.forward layers' x').
Proof.
  revert layers' x x'.
  induction layers as [|m rest IH]; intros [|m' rest'] x x' Hl H;
    try discriminate; cbn [Sequential.forward].
  - exact H.
  - cbn [map] in Hl. injection Hl as Hm Hrest.
    apply same_outcome_bind; [now apply Layer_forward_same|].
    intros y y' Hy. now apply IH.
Qed.

Lemma torch_max_same x x' dim keepdim :
  same_layout x x' ->
  same_outcome (torch.max x dim keepdim) (torch.max x' dim keepdim).
Proof.
  intros [H _]. unfold torch.max. rewrite H.
  destruct (_ <=? _); cbn; [reflexivity|].
  destruct (_ =? 0); cbn; [reflexivity|now split].
Qed.

Lemma transpose_1_2_same x x' :
  same_layout x x' -> same_outcome (transpose_1_2 x) (transpose_1_2 x').
Proof.
  intros [H Hst]. unfold transpose_1_2. rewrite H, Hst.
  destruct (shape x') as [|b [|n [|d post]]]; cbn; try reflexivity. now split.
Qed.

Lemma squeeze_last_same x x' :
  same_layout x x' -> same_layout (squeeze_last x) (squeeze_last x').
Proof.
  intros [H Hst]. unfold squeeze_last, same_layout. rewrite H, Hst.
  destruct (rev (shape x')) as [|[|[|k]] rest]; cbn; auto.
Qed.

Lemma shape_at_same x x' i : same_layout x x' -> shape_at x i = shape_at x' i.
Proof. intros [H _]. unfold shape_at. now rewrite H. Qed.

(** One step of two forward passes that keep the same outcome. *)
Ltac same_step lemma :=
  apply same_outcome_bind;
  [ apply lemma; first [assumption | congruence]
  | let y := fresh "y" in
    let y' := fresh "y" in
    let Hy := fresh "Hy" in
    intros y y' Hy ].

Lemma SimplePCN_forward_same m m' x x' :
  architecture (SimpleModel m) = architecture (SimpleModel m') ->
  same_layout x x' ->
  same_outcome (SimplePCN.forward m x) (SimplePCN.forward m' x').
Proof.
  intros Ha H. cbn [architecture] in Ha.
  assert (Hf : SimplePCN.feature_dim m = SimplePCN.feature_dim m') by congruence.
  assert (Ho : SimplePCN.output_points m = SimplePCN.output_points m') by congruence.
  unfold SimplePCN.forward.
  rewrite (shape_at_same x x' 0 H), (shape_at_same x x' 1 H), Hf, Ho.
  destruct (shape_at x' 0) as [b|e]; cbn [bind]; [|reflexivity].
  destruct (shape_at x' 1) as [n|e]; cbn [bind]; [|reflexivity].
  same_step view_same.
  same_step Sequential_forward_same.
  same_step view_same.
  same_step torch_max_same.
  same_step Sequential_forward_same.
  now apply view_same.
Qed.

Lemma PointCloudCompletionNet_forward_same m m' x x' :
  architecture (ConvModel m) = architecture (ConvModel m') ->
  same_layout x x' ->
  same_outcome (PointCloudCompletionNet.forward m x)
               (PointCloudCompletionNet.forward m' x').
Proof.
  intros Ha H. cbn [architecture] in Ha.
  assert (Ho : PointCloudDecoder.output_points (PointCloudCompletionNet.decoder m)
               = PointCloudDecoder.output_points (PointCloudCompletionNet.decoder m'))
    by congruence.
  unfold PointCloudCompletionNet.forward, PointCloudEncoder.forward,
    PointCloudDecoder.forward.
  rewrite Ho.
  same_step transpose_1_2_same.
  apply same_outcome_bind.
  - same_step Conv1d_forward_same.
    same_step BatchNorm1d_forward_same.
    same_step Conv1d_forward_same.
    same_step BatchNorm1d_forward_same.
    same_step Conv1d_forward_same.
    same_step BatchNorm1d_forward_same.
    now apply torch_max_same.
  - intros f f' Hf.
    apply same_outcome_bind;
      [apply Linear_forward_same; [congruence|now apply squeeze_last_same]|].
    intros z z' Hz.
    same_step BatchNorm1d_forward_same.
    same_step Linear_forward_same.
    same_step BatchNorm1d_forward_same.
    same_step Linear_forward_same.
    now apply view_same.
Qed.

Lemma apply_init_weights_architecture m g :
  architecture (ConvModel (fst (apply_init_weights m g))) = architecture (ConvModel m).
Proof. reflexivity. Qed.

Lemma model_architecture g :
  architecture (ConvModel (fst (model g)))
  = architecture
      (ConvModel (PointCloudCompletionNet.eval
                    (fst (PointCloudCompletionNet.__init__ 1024 2048 g)))).
Proof.
  unfold model. destruct (PointCloudCompletionNet.__init__ 1024 2048 g) as [m g1].
  apply apply_init_weights_architecture.
Qed.

(** X4.  Whether a forward pass returns or raises, which error it
    raises, and the shape and the memory layout of what it returns
    depend on the shape and the memory layout (the strides) of the input
    and on the architecture of the model only (sizes, shapes of the
    parameters, modes of the normalisations): never on a coordinate or on
    a weight. *)
Theorem outcome_depends_on_shapes_only (model model' : Model) (x x' : Tensor) :
  architecture model = architecture model' ->
  shape x = shape x' -> strides x = strides x' ->
  same_outcome (complete model x) (complete model' x').
Proof.
  intros Ha H Hst. assert (Hl : same_layout x x') by now split.
  destruct model as [m|m], model' as [m'|m']; try discriminate;
    cbn [complete].
  - now apply SimplePCN_forward_same.
  - now apply PointCloudCompletionNet_forward_same.
Qed.

Lemma outcome_depends_on_shapes_only_witness :
  same_outcome
    (complete demo_conv two_points)
    (complete
       (ConvModel (PointCloudCompletionNet.eval
                     (fst (PointCloudCompletionNet.__init__ 1024 2048
                             quarter_generator))))
       (zeros [1; 2; 3])).
Proof.
  apply (outcome_depends_on_shapes_only demo_conv _ two_points (zeros [1; 2; 3])).
  - apply model_architecture.
  - reflexivity.
  - reflexivity.
Defined.

(** ** The memory layout of the input *)

(** X17.  [SimplePCN.forward] reads the memory layout of its input,
    [PointCloudCompletionNet.forward] does not.  On a (b, n, 3) tensor of
    at least two clouds of at least two points whose clouds do not lie
    at n times the distance between two points (the transposition of
    another tensor, one cloud repeated by [expand]), [view(-1, 3)]
    raises [RuntimeError] in every [SimplePCN], whatever its layers;
    every [PointCloudCompletionNet] does on it what it does on the
    contiguous copy. *)
Theorem layout_matters_to_SimplePCN_only (m : SimplePCN.t)
  (m' : PointCloudCompletionNet.t) (x : Tensor) (b n : nat) :
  shape x = [b; n; 3] -> 2 <= b -> 2 <= n ->
  nth 0 (strides x) 0 <> n * nth 1 (strides x) 0 ->
  complete (SimpleModel m) x = Raise view_stride /\
  exception_class view_stride = RuntimeError /\
  complete (ConvModel m') x = complete (ConvModel m') (contiguous x).
Proof.
  intros Hx Hb Hn Hst. split; [|split; [reflexivity|]].
  - cbn [complete]. unfold SimplePCN.forward, shape_at. rewrite Hx.
    cbn [nth_error bind].
    now rewrite (view_rows_rejected x b n Hx Hb Hn Hst).
  - apply PointCloudCompletionNet_forward_layout.
Qed.

Lemma layout_matters_to_SimplePCN_only_witness :
  complete demo_simple transposed_pair = Raise view_stride /\
  exception_class view_stride = RuntimeError /\
  complete demo_conv transposed_pair = complete demo_conv (contiguous transposed_pair).
Proof.
  apply (layout_matters_to_SimplePCN_only _ _ transposed_pair 2 2).
  - reflexivity.
  - lia.
  - lia.
  - simpl. lia.
Defined.

(** ** The models before [eval()] *)

(** One (affine, normalisation, clamp) group of a freshly constructed
    stack, which is in training mode. *)
Lemma training_block_rows l i c x n :
  wf_Linear l i c -> shape x = [n; i] -> n <> 1 ->
  exists y,
    shape y = [n; c] /\ is_contiguous y /\
    forall rest,
      Sequential.forward
        (LinearLayer l :: BatchNormLayer (BatchNorm1d.__init__ c) :: ReLULayer :: rest) x
      = Sequential.forward rest y.
Proof.
  intros Hl Hx Hn.
  destruct (Linear_forward_shape l i c x n Hl Hx) as (y1 & E1 & S1).
  destruct (BatchNorm1d_training_rows c y1 n S1 Hn) as (y2 & E2 & S2).
  exists (relu y2). split; [exact S2|].
  split; [apply relu_contiguous, (BatchNorm1d_forward_contiguous _ _ _ E2)|].
  intros rest.
  cbn [Sequential.forward Layer_forward]. rewrite E1. cbn [bind]. rewrite E2.
  reflexivity.
Qed.

Lemma training_block_single_row l i c x rest :
  wf_Linear l i c -> shape x = [1; i] ->
  Sequential.forward
    (LinearLayer l :: BatchNormLayer (BatchNorm1d.__init__ c) :: ReLULayer :: rest) x
  = Raise bn_batch_size.
Proof.
  intros Hl Hx.
  destruct (Linear_forward_shape l i c x 1 Hl Hx) as (y1 & E1 & S1).
  cbn [Sequential.forward Layer_forward]. rewrite E1. cbn [bind].
  now rewrite (BatchNorm1d_training_single_row c y1 S1).
Qed.

Lemma single_cloud_viewable x n d : shape x = [1; n; d] -> viewable_as_rows x.
Proof. intros H. unfold viewable_as_rows. rewrite H. left. lia. Qed.

Section TrainingMode.

(** Stacks as the constructors leave them, the widths left open. *)
Variables ip out w1 w2 w3 h1 h2 : nat.
Variables e1 e2 e3 d1 d2 d3 : Linear.t.
Hypothesis He1 : wf_Linear e1 3 w1.
Hypothesis He2 : wf_Linear e2 w1 w2.
Hypothesis He3 : wf_Linear e3 w2 w3.
Hypothesis Hd1 : wf_Linear d1 w3 h1.
Hypothesis Hd2 : wf_Linear d2 h1 h2.
Hypothesis Hd3 : wf_Linear d3 h2 (out * 3).

Variables c1 c2 c3 : Conv1d.t.
Hypothesis Hc1 : wf_Conv1d c1 3 w1.
Hypothesis Hc2 : wf_Conv1d c2 w1 w2.
Hypothesis Hc3 : wf_Conv1d c3 w2 w3.

Lemma fresh_SimplePCN_single x n :
  shape x = [1; n; 3] -> 0 < n ->
  SimplePCN.forward
    (fresh_SimplePCN ip out w1 w2 w3 h1 h2 e1 e2 e3 d1 d2 d3) x = Raise bn_batch_size.
Proof.
  intros Hx Hn.
  unfold fresh_SimplePCN, SimplePCN.forward, shape_at. rewrite Hx.
  cbn [nth_error bind SimplePCN.encoder SimplePCN.decoder SimplePCN.feature_dim
       SimplePCN.output_points].
  destruct (view_rows_shape x 1 n Hx (single_cloud_viewable x n 3 Hx))
    as (x1 & -> & S1).
  cbn [bind].
  unfold PointEncoder_layers, PointDecoder_layers, block_layers.
  cbn [map concat app fst snd].
  destruct (Nat.eq_dec n 1) as [->|Hn1].
  - now rewrite (training_block_single_row e1 3 w1 x1 _ He1 S1).
  - assert (Hrows : 1 * n <> 1) by lia.
    destruct (training_block_rows e1 3 w1 x1 (1 * n) He1 S1 Hrows)
      as (y1 & T1 & K1 & ->).
    destruct (training_block_rows e2 w1 w2 y1 (1 * n) He2 T1 Hrows)
      as (y2 & T2 & K2 & ->).
    destruct (training_block_rows e3 w2 w3 y2 (1 * n) He3 T2 Hrows)
      as (y3 & T3 & K3 & ->).
    change (Sequential.forward [] y3) with (Ok y3). cbn [bind].
    destruct (view_3_shape y3 1 n w3 T3 K3) as (y4 & -> & T4). cbn [bind].
    destruct (torch_max_dim1_shape y4 1 n w3 T4 Hn) as (y5 & -> & T5). cbn [bind].
    now rewrite (training_block_single_row d1 w3 h1 y5 _ Hd1 T5).
Qed.

Lemma fresh_PointCloudCompletionNet_single x n :
  shape x = [1; n; 3] -> 0 < n ->
  PointCloudCompletionNet.forward
    (fresh_PointCloudCompletionNet ip out w1 w2 w3 h1 h2 c1 c2 c3 d1 d2 d3) x
  = Raise bn_batch_size.
Proof.
  intros Hx Hn.
  unfold fresh_PointCloudCompletionNet, PointCloudCompletionNet.forward.
  cbn [PointCloudCompletionNet.encoder PointCloudCompletionNet.decoder].
  forward_step (transpose_1_2_shape x 1 n 3 Hx).
  unfold PointCloudEncoder.forward.
  cbn [PointCloudEncoder.conv1 PointCloudEncoder.conv2 PointCloudEncoder.conv3
       PointCloudEncoder.bn1 PointCloudEncoder.bn2 PointCloudEncoder.bn3].
  forward_step (Conv1d_forward_shape c1 3 w1 y 1 n Hc1 S Hn).
  destruct (Nat.eq_dec n 1) as [->|Hn1].
  - now rewrite (BatchNorm1d_training_single_line w1 y0 S0).
  - assert (Hrows : 1 * n <> 1) by lia.
    forward_step (BatchNorm1d_training_lines w1 y0 1 n S0 Hrows).
    forward_step (Conv1d_forward_shape c2 w1 w2 (relu y1) 1 n Hc2 S1 Hn).
    forward_step (BatchNorm1d_training_lines w2 y2 1 n S2 Hrows).
    forward_step (Conv1d_forward_shape c3 w2 w3 (relu y3) 1 n Hc3 S3 Hn).
    forward_step (BatchNorm1d_training_lines w3 y4 1 n S4 Hrows).
    forward_step (torch_max_dim2_shape (relu y5) 1 w3 n S5 Hn).
    unfold PointCloudDecoder.forward.
    cbn [PointCloudDecoder.fc1 PointCloudDecoder.fc2 PointCloudDecoder.fc3
         PointCloudDecoder.bn1 PointCloudDecoder.bn2 PointCloudDecoder.output_points].
    forward_step (Linear_forward_shape d1 w3 h1 (squeeze_last y6) 1 Hd1
                    (squeeze_last_shape y6 1 w3 S6)).
    now rewrite (BatchNorm1d_training_single_row h1 y7 S7).
Qed.

Lemma fresh_SimplePCN_batch x b n :
  shape x = [b; n; 3] -> 0 < n -> 2 <= b -> viewable_as_rows x ->
  exists y,
    SimplePCN.forward
    (fresh_SimplePCN ip out w1 w2 w3 h1 h2 e1 e2 e3 d1 d2 d3) x = Ok y /\ shape y = [b; out; 3].
Proof.
  intros Hx Hn Hb Hv.
  unfold fresh_SimplePCN, SimplePCN.forward, shape_at. rewrite Hx.
  cbn [nth_error bind SimplePCN.encoder SimplePCN.decoder SimplePCN.feature_dim
       SimplePCN.output_points].
  forward_step (view_rows_shape x b n Hx Hv).
  unfold PointEncoder_layers, PointDecoder_layers, block_layers.
  cbn [map concat app fst snd].
  assert (Hrows : b * n <> 1) by nia.
  assert (Hb1 : b <> 1) by lia.
  destruct (training_block_rows e1 3 w1 y (b * n) He1 S Hrows)
    as (y1 & T1 & K1 & ->).
  destruct (training_block_rows e2 w1 w2 y1 (b * n) He2 T1 Hrows)
    as (y2 & T2 & K2 & ->).
  destruct (training_block_rows e3 w2 w3 y2 (b * n) He3 T2 Hrows)
    as (y3 & T3 & K3 & ->).
  change (Sequential.forward [] y3) with (Ok y3). cbn [bind].
  forward_step (view_3_shape y3 b n w3 T3 K3).
  forward_step (torch_max_dim1_shape y0 b n w3 S0 Hn).
  destruct (training_block_rows d1 w3 h1 y4 b Hd1 S1 Hb1) as (y5 & T5 & K5 & ->).
  destruct (training_block_rows d2 h1 h2 y5 b Hd2 T5 Hb1) as (y6 & T6 & K6 & ->).
  cbn [Sequential.forward Layer_forward].
  destruct (Linear_forward_shape d3 h2 (out * 3) y6 b Hd3 T6) as (y7 & E7 & S7).
  rewrite E7. cbn [bind].
  destruct (view_completed_shape y7 b out S7 (Linear_forward_contiguous _ _ _ E7))
    as (y8 & E8 & S8).
  exists y8. split; assumption.
Qed.

Lemma fresh_PointCloudCompletionNet_batch x b n :
  shape x = [b; n; 3] -> 0 < n -> 2 <= b -> 0 < out ->
  exists y,
    PointCloudCompletionNet.forward
    (fresh_PointCloudCompletionNet ip out w1 w2 w3 h1 h2 c1 c2 c3 d1 d2 d3) x = Ok y /\
    shape y = [b; out; 3].
Proof.
  intros Hx Hn Hb Hop.
  unfold fresh_PointCloudCompletionNet, PointCloudCompletionNet.forward.
  cbn [PointCloudCompletionNet.encoder PointCloudCompletionNet.decoder].
  forward_step (transpose_1_2_shape x b n 3 Hx).
  unfold PointCloudEncoder.forward.
  cbn [PointCloudEncoder.conv1 PointCloudEncoder.conv2 PointCloudEncoder.conv3
       PointCloudEncoder.bn1 PointCloudEncoder.bn2 PointCloudEncoder.bn3].
  assert (Hrows : b * n <> 1) by nia.
  assert (Hb1 : b <> 1) by lia.
  forward_step (Conv1d_forward_shape c1 3 w1 y b n Hc1 S Hn).
  forward_step (BatchNorm1d_training_lines w1 y0 b n S0 Hrows).
  forward_step (Conv1d_forward_shape c2 w1 w2 (relu y1) b n Hc2 S1 Hn).
  forward_step (BatchNorm1d_training_lines w2 y2 b n S2 Hrows).
  forward_step (Conv1d_forward_shape c3 w2 w3 (relu y3) b n Hc3 S3 Hn).
  forward_step (BatchNorm1d_training_lines w3 y4 b n S4 Hrows).
  forward_step (torch_max_dim2_shape (relu y5) b w3 n S5 Hn).
  unfold PointCloudDecoder.forward.
  cbn [PointCloudDecoder.fc1 PointCloudDecoder.fc2 PointCloudDecoder.fc3
       PointCloudDecoder.bn1 PointCloudDecoder.bn2 PointCloudDecoder.output_points].
  forward_step (Linear_forward_shape d1 w3 h1 (squeeze_last y6) b Hd1
                  (squeeze_last_shape y6 b w3 S6)).
  forward_step (BatchNorm1d_training_rows h1 y7 b S7 Hb1).
  forward_step (Linear_forward_shape d2 h1 h2 (relu y8) b Hd2 S8).
  forward_step (BatchNorm1d_training_rows h2 y9 b S9 Hb1).
  destruct (Linear_forward_shape d3 h2 (out * 3) (relu y10) b Hd3 S10)
    as (y11 & E11 & S11).
  rewrite E11. cbn [bind].
  destruct (view_points_shape y11 b out S11 Hop (Linear_forward_contiguous _ _ _ E11))
    as (y12 & E12 & S12).
  exists y12. split; assumption.
Qed.

End TrainingMode.

Lemma SimplePCN_init_fresh ip op fd g :
  exists e1 e2 e3 d1 d2 d3,
    fst (SimplePCN.__init__ ip op fd g)
    = fresh_SimplePCN ip op 128 256 fd 1024 2048 e1 e2 e3 d1 d2 d3 /\
    wf_Linear e1 3 128 /\ wf_Linear e2 128 256 /\ wf_Linear e3 256 fd /\
    wf_Linear d1 fd 1024 /\ wf_Linear d2 1024 2048 /\
    wf_Linear d3 2048 (op * 3).
Proof. exact (SimplePCN_init_layers ip op fd g). Qed.

Lemma PointCloudCompletionNet_init_fresh ip op g :
  exists c1 c2 c3 f1 f2 f3,
    fst (PointCloudCompletionNet.__init__ ip op g)
    = fresh_PointCloudCompletionNet ip op 64 128 1024 2048 4096 c1 c2 c3 f1 f2 f3 /\
    wf_Conv1d c1 3 64 /\ wf_Conv1d c2 64 128 /\ wf_Conv1d c3 128 1024 /\
    wf_Linear f1 1024 2048 /\ wf_Linear f2 2048 4096 /\
    wf_Linear f3 4096 (op * 3).
Proof. exact (PointCloudCompletionNet_init_fields ip op g). Qed.

Lemma SimplePCN_training_single ip op fd g x n :
  shape x = [1; n; 3] -> 0 < n ->
  SimplePCN.forward (fst (SimplePCN.__init__ ip op fd g)) x = Raise bn_batch_size.
Proof.
  intros Hx Hn.
  destruct (SimplePCN_init_fresh ip op fd g)
    as (e1 & e2 & e3 & d1 & d2 & d3 & -> & He1 & He2 & He3 & Hd1 & Hd2 & Hd3).
  eapply fresh_SimplePCN_single; eassumption.
Qed.

Lemma PointCloudCompletionNet_training_single ip op g x n :
  shape x = [1; n; 3] -> 0 < n ->
  PointCloudCompletionNet.forward (fst (PointCloudCompletionNet.__init__ ip op g)) x
  = Raise bn_batch_size.
Proof.
  intros Hx Hn.
  destruct (PointCloudCompletionNet_init_fresh ip op g)
    as (c1 & c2 & c3 & f1 & f2 & f3 & -> & Hc1 & Hc2 & Hc3 & Hf1 & Hf2 & Hf3).
  eapply fresh_PointCloudCompletionNet_single; eassumption.
Qed.

Lemma SimplePCN_training_batch ip op fd g x b n :
  shape x = [b; n; 3] -> 0 < n -> 2 <= b -> viewable_as_rows x ->
  exists y,
    SimplePCN.forward (fst (SimplePCN.__init__ ip op fd g)) x = Ok y /\
    shape y = [b; op; 3].
Proof.
  intros Hx Hn Hb Hv.
  destruct (SimplePCN_init_fresh ip op fd g)
    as (e1 & e2 & e3 & d1 & d2 & d3 & -> & He1 & He2 & He3 & Hd1 & Hd2 & Hd3).
  eapply fresh_SimplePCN_batch; eassumption.
Qed.

Lemma PointCloudCompletionNet_training_batch ip op g x b n :
  shape x = [b; n; 3] -> 0 < n -> 2 <= b -> 0 < op ->
  exists y,
    PointCloudCompletionNet.forward
      (fst (PointCloudCompletionNet.__init__ ip op g)) x = Ok y /\
    shape y = [b; op; 3].
Proof.
  intros Hx Hn Hb Hop.
  destruct (PointCloudCompletionNet_init_fresh ip op g)
    as (c1 & c2 & c3 & f1 & f2 & f3 & -> & Hc1 & Hc2 & Hc3 & Hf1 & Hf2 & Hf3).
  eapply fresh_PointCloudCompletionNet_batch; eassumption.
Qed.

(** X5.  The models as their constructors leave them, before [eval()],
    are in training mode: on a batch of one cloud both raise the
    [ValueError] of the normalisation ("expected more than 1 value per
    channel when training"); on a batch of two or more they return a
    tensor of shape (b, output_points, 3), the second variant in every
    memory layout of the batch, the first in every layout that
    [view(-1, 3)] takes. *)
Theorem training_mode_needs_two_clouds (ip op fd : nat) (g : Generator)
  (x : Tensor) (b n : nat) :
  shape x = [b; n; 3] -> 0 < n -> 0 < b -> 0 < op -> 0 < fd ->
  let m1 := SimpleModel (fst (SimplePCN.__init__ ip op fd g)) in
  let m2 := ConvModel (fst (PointCloudCompletionNet.__init__ ip op g)) in
  if b =? 1 then
    complete m1 x = Raise bn_batch_size /\
    complete m2 x = Raise bn_batch_size /\
    exception_class bn_batch_size = ValueError
  else
    (viewable_as_rows x ->
     exists y1, complete m1 x = Ok y1 /\ shape y1 = [b; op; 3]) /\
    (exists y2, complete m2 x = Ok y2 /\ shape y2 = [b; op; 3]).
Proof.
  intros Hx Hn Hb Hop Hfd m1 m2. subst m1 m2. cbn [complete].
  destruct (Nat.eqb_spec b 1) as [->|Hb1].
  - split; [now apply (SimplePCN_training_single ip op fd g x n)|].
    split; [now apply (PointCloudCompletionNet_training_single ip op g x n)|].
    reflexivity.
  - assert (Hb2 : 2 <= b) by lia. split.
    + intros Hv. exact (SimplePCN_training_batch ip op fd g x b n Hx Hn Hb2 Hv).
    + exact (PointCloudCompletionNet_training_batch ip op g x b n Hx Hn Hb2 Hop).
Qed.

Lemma training_mode_needs_two_clouds_witness :
  complete (SimpleModel (fst (SimplePCN.__init__ 1024 2048 512 quarter_generator)))
    two_points = Raise bn_batch_size /\
  complete (ConvModel (fst (PointCloudCompletionNet.__init__ 1024 2048 quarter_generator)))
    two_points = Raise bn_batch_size /\
  exception_class bn_batch_size = ValueError.
Proof.
  apply (training_mode_needs_two_clouds 1024 2048 512 quarter_generator two_points 1 2);
    [reflexivity|lia|lia|lia|lia].
Defined.

(** ** Inputs without a batch dimension *)

Lemma SimplePCN_unbatched m x n :
  valid_SimplePCN m -> shape x = [n; 3] -> wf_tensor x -> 0 < n ->
  SimplePCN.forward m x = Raise view_size.
Proof.
  intros Hv Hx Hwf Hn. pose proof Hv as (_ & _ & _ & _ & Hf & _).
  unfold SimplePCN.forward, shape_at. rewrite Hx. cbn [nth_error bind].
  destruct (view_points_any_layout x n Hx) as [st ->]. cbn [bind].
  destruct (SimplePCN_encoder_shape m (mkStrided [n; 3] st (data x)) n Hv eq_refl)
    as [dt ->].
  { unfold wf_tensor in *. cbn [shape data]. now rewrite Hwf, Hx. }
  cbn [bind].
  rewrite (view_3_cases (mkTensor [n; SimplePCN.feature_dim m] dt)
             [n; SimplePCN.feature_dim m] n 3 (SimplePCN.feature_dim m))
    by reflexivity.
  rewrite numel_2.
  assert (Hne : (n * SimplePCN.feature_dim m
                 =? n * (3 * SimplePCN.feature_dim m)) = false)
    by (apply Nat.eqb_neq; nia).
  now rewrite Hne.
Qed.

(** X6.  A single cloud given without the batch dimension, as an
    (n, 3) tensor, is rejected by both variants: [SimplePCN] reads 3 as
    the number of points and its second [view] fails ([RuntimeError]);
    [PointCloudCompletionNet] has no dimension 2 to transpose
    ([IndexError]). *)
Theorem unbatched_cloud_is_rejected (model : Model) (f : nat) (x : Tensor) (n : nat) :
  valid_model model f ->
  shape x = [n; 3] -> wf_tensor x -> 0 < n ->
  complete model x = Raise (unbatched_error model).
Proof.
  intros Hvalid Hx Hwf Hn. destruct model as [m|m]; cbn [complete unbatched_error].
  - destruct Hvalid as (Hvalid & _). now apply (SimplePCN_unbatched m x n).
  - unfold PointCloudCompletionNet.forward, transpose_1_2. now rewrite Hx.
Qed.

Lemma unbatched_cloud_is_rejected_witness :
  complete demo_simple unbatched_points = Raise view_size /\
  complete demo_conv unbatched_points = Raise dim_range.
Proof.
  split.
  - apply (unbatched_cloud_is_rejected demo_simple 512 unbatched_points 2);
      [apply create_model_valid|reflexivity|reflexivity|lia].
  - apply (unbatched_cloud_is_rejected demo_conv 1024 unbatched_points 2);
      [apply model_valid|reflexivity|reflexivity|lia].
Defined.

(** X7.  An input of rank 0 or 1 raises [IndexError] in both variants,
    whatever the model: [shape[1]] (or [shape[0]]) does not exist, there
    is no dimension to transpose. *)
Theorem flat_input_raises_IndexError (model : Model) (x : Tensor) :
  length (shape x) < 2 ->
  exists e, complete model x = Raise e /\ exception_class e = IndexError.
Proof.
  intros Hrank. destruct (shape x) as [|k [|n s]] eqn:Hx; cbn [length] in Hrank;
    try lia; destruct model as [m|m]; cbn [complete].
  - exists tuple_index. split; [|reflexivity].
    unfold SimplePCN.forward, shape_at. now rewrite Hx.
  - exists dim_range. split; [|reflexivity].
    unfold PointCloudCompletionNet.forward, transpose_1_2. now rewrite Hx.
  - exists tuple_index. split; [|reflexivity].
    unfold SimplePCN.forward, shape_at. now rewrite Hx.
  - exists dim_range. split; [|reflexivity].
    unfold PointCloudCompletionNet.forward, transpose_1_2. now rewrite Hx.
Qed.

Lemma flat_input_raises_IndexError_witness :
  exists e, complete demo_simple flat_points = Raise e /\ exception_class e = IndexError.
Proof.
  apply (flat_input_raises_IndexError demo_simple flat_points). cbn. lia.
Defined.

(** ** [init_weights] *)

Lemma apply_init_weights_shapes m g :
  map parameter_shape (affine_parameters (ConvModel (fst (apply_init_weights m g))))
  = map parameter_shape (affine_parameters (ConvModel m)).
Proof. reflexivity. Qed.

(** X9.  [model.apply(init_weights)] redraws the values of the weights
    and biases and nothing else: the normalisation layers, the
    architecture, the shapes of all parameters, the sizes and the stream
    of the generator are kept, and a valid model stays valid. *)
Theorem init_weights_redraws_values_only (m : PointCloudCompletionNet.t)
  (g : Generator) :
  let m' := fst (apply_init_weights m g) in
  normalizations (ConvModel m') = normalizations (ConvModel m) /\
  architecture (ConvModel m') = architecture (ConvModel m) /\
  map parameter_shape (affine_parameters (ConvModel m'))
  = map parameter_shape (affine_parameters (ConvModel m)) /\
  PointCloudCompletionNet.input_points m' = PointCloudCompletionNet.input_points m /\
  output_count (ConvModel m') = output_count (ConvModel m) /\
  draws (snd (apply_init_weights m g)) = draws g /\
  forall f, valid_model (ConvModel m) f -> valid_model (ConvModel m') f.
Proof.
  intros m'. subst m'.
  split; [reflexivity|]. split; [reflexivity|]. split; [reflexivity|].
  split; [reflexivity|]. split; [reflexivity|]. split; [reflexivity|].
  intros f Hvalid. now apply apply_init_weights_valid.
Qed.

(** ** The encoder and the decoder on their own *)

(** X10.  A [PointCloudEncoder] built for [input_dim] channels (in
    evaluation mode) turns a (b, input_dim, n) tensor, n > 0, into a
    (b, feature_dim, 1) tensor, and raises the channel error of its first
    convolution on any other number of channels. *)
Theorem encoder_accepts_its_input_dim (idim fd : nat) (g : Generator) (x : Tensor)
  (b c n : nat) :
  shape x = [b; c; n] -> 0 < n -> 0 < idim -> 0 < fd ->
  let enc := PointCloudEncoder.eval (fst (PointCloudEncoder.__init__ idim fd g)) in
  if c =? idim then
    exists y, PointCloudEncoder.forward enc x = Ok y /\ shape y = [b; fd; 1]
  else PointCloudEncoder.forward enc x = Raise conv_channels.
Proof.
  intros Hx Hn _ _ enc. subst enc.
  destruct (Nat.eqb_spec c idim) as [->|Hc].
  - now apply (PointCloudEncoder_eval_forward_shape idim fd g x b n).
  - now apply (PointCloudEncoder_eval_forward_channels idim fd g x b c n).
Qed.

Lemma encoder_accepts_its_input_dim_witness :
  exists y,
    PointCloudEncoder.forward
      (PointCloudEncoder.eval (fst (PointCloudEncoder.__init__ 2 5 quarter_generator)))
      channel_lines = Ok y /\
    shape y = [1; 5; 1].
Proof.
  apply (encoder_accepts_its_input_dim 2 5 quarter_generator channel_lines 1 2 2);
    [reflexivity|lia|lia|lia].
Defined.

(** X11.  The encoder and the decoder of the second script take their
    [feature_dim] independently.  Built with the same one they compose:
    the result has shape (b, output_points, 3).  Built with different
    ones both constructors succeed and the first affine layer of the
    decoder raises at the call. *)
Theorem feature_dim_mismatch_raises_at_call (idim f1 f2 op : nat) (g g' : Generator)
  (x : Tensor) (b n : nat) :
  shape x = [b; idim; n] -> 0 < n -> 0 < idim -> 0 < f1 -> 0 < f2 -> 0 < op ->
  let enc := PointCloudEncoder.eval (fst (PointCloudEncoder.__init__ idim f1 g)) in
  let dec := PointCloudDecoder.eval (fst (PointCloudDecoder.__init__ f2 op g')) in
  if f1 =? f2 then
    exists y, encode_decode enc dec x = Ok y /\ shape y = [b; op; 3]
  else encode_decode enc dec x = Raise matmul_shape.
Proof.
  intros Hx Hn _ _ _ Hop enc dec. subst enc dec. unfold encode_decode.
  destruct (PointCloudEncoder_eval_forward_shape idim f1 g x b n Hx Hn)
    as (features & -> & Sf).
  cbn [bind].
  destruct (Nat.eqb_spec f1 f2) as [->|Hf].
  - now apply (PointCloudDecoder_eval_forward_shape f2 op g' features b).
  - now apply (PointCloudDecoder_eval_forward_mismatch f2 op g' features b f1).
Qed.

Lemma feature_dim_mismatch_raises_at_call_witness :
  encode_decode
    (PointCloudEncoder.eval (fst (PointCloudEncoder.__init__ 2 5 quarter_generator)))
    (PointCloudDecoder.eval (fst (PointCloudDecoder.__init__ 7 1 quarter_generator)))
    channel_lines
  = Raise matmul_shape.
Proof.
  apply (feature_dim_mismatch_raises_at_call 2 5 7 1 quarter_generator quarter_generator
           channel_lines 1 2); [reflexivity|lia|lia|lia|lia|lia].
Defined.

(** ** Model statistics *)

Lemma total_params_eval m :
  total_params (PointCloudCompletionNet.eval m) = total_params m.
Proof. reflexivity. Qed.

Lemma total_params_apply_init_weights m g :
  total_params (fst (apply_init_weights m g)) = total_params m.
Proof. reflexivity. Qed.

Lemma Tensor_numel_has_shape t s : has_shape t s -> Tensor_numel t = Z.of_nat (numel s).
Proof. intros (Hs & _). unfold Tensor_numel. now rewrite Hs. Qed.

Lemma Tensor_numel_ones c : Tensor_numel (ones [c]) = Z.of_nat c.
Proof. unfold Tensor_numel. cbn [ones shape]. now rewrite numel_1. Qed.

Lemma Tensor_numel_zeros c : Tensor_numel (zeros [c]) = Z.of_nat c.
Proof. unfold Tensor_numel. cbn [zeros shape]. now rewrite numel_1. Qed.

Lemma Conv1d_numel cv i o :
  wf_Conv1d cv i o ->
  Tensor_numel (Conv1d.weight cv) = (Z.of_nat o * Z.of_nat i)%Z /\
  Tensor_numel (Conv1d.bias cv) = Z.of_nat o.
Proof.
  intros (_ & _ & _ & Hw & Hb).
  rewrite (Tensor_numel_has_shape _ _ Hw), (Tensor_numel_has_shape _ _ Hb).
  rewrite numel_3, numel_1. split; lia.
Qed.

Lemma Linear_numel l i o :
  wf_Linear l i o ->
  Tensor_numel (Linear.weight l) = (Z.of_nat o * Z.of_nat i)%Z /\
  Tensor_numel (Linear.bias l) = Z.of_nat o.
Proof.
  intros (_ & _ & Hw & Hb).
  rewrite (Tensor_numel_has_shape _ _ Hw), (Tensor_numel_has_shape _ _ Hb).
  rewrite numel_2, numel_1. split; lia.
Qed.

Lemma total_params_init ip op g :
  total_params (fst (PointCloudCompletionNet.__init__ ip op g))
  = (10647296 + 12291 * Z.of_nat op)%Z.
Proof.
  destruct (PointCloudCompletionNet_init_fields ip op g)
    as (c1 & c2 & c3 & f1 & f2 & f3 & -> & Hc1 & Hc2 & Hc3 & Hf1 & Hf2 & Hf3).
  destruct (Conv1d_numel _ _ _ Hc1) as (W1 & B1).
  destruct (Conv1d_numel _ _ _ Hc2) as (W2 & B2).
  destruct (Conv1d_numel _ _ _ Hc3) as (W3 & B3).
  destruct (Linear_numel _ _ _ Hf1) as (V1 & A1).
  destruct (Linear_numel _ _ _ Hf2) as (V2 & A2).
  destruct (Linear_numel _ _ _ Hf3) as (V3 & A3).
  unfold total_params, parameters, Conv1d_parameters, Linear_parameters,
    BatchNorm1d_parameters.
  cbn [PointCloudCompletionNet.encoder PointCloudCompletionNet.decoder
       PointCloudEncoder.conv1 PointCloudEncoder.conv2 PointCloudEncoder.conv3
       PointCloudEncoder.bn1 PointCloudEncoder.bn2 PointCloudEncoder.bn3
       PointCloudDecoder.fc1 PointCloudDecoder.fc2 PointCloudDecoder.fc3
       PointCloudDecoder.bn1 PointCloudDecoder.bn2
       BatchNorm1d.__init__ BatchNorm1d.weight BatchNorm1d.bias
       app map fold_right].
  rewrite W1, B1, W2, B2, W3, B3, V1, A1, V2, A2, V3, A3.
  rewrite !Tensor_numel_ones, !Tensor_numel_zeros.
  lia.
Qed.

(** X12.  [total_params] of a [PointCloudCompletionNet] is
    10,647,296 + 12,291 * output_points, whatever [input_points] and the
    generator; [eval()] and [init_weights] do not change it; for the
    script's model it is 35,819,264. *)
Theorem total_params_formula (ip op : nat) (g : Generator) :
  total_params (fst (PointCloudCompletionNet.__init__ ip op g))
  = (10647296 + 12291 * Z.of_nat op)%Z /\
  (forall m g',
      total_params (PointCloudCompletionNet.eval m) = total_params m /\
      total_params (fst (apply_init_weights m g')) = total_params m) /\
  total_params (fst (model g)) = 35819264%Z.
Proof.
  split; [apply total_params_init|].
  split; [intros m g'; split; reflexivity|].
  unfold model.
  pose proof (total_params_init 1024 2048 g) as H.
  destruct (PointCloudCompletionNet.__init__ 1024 2048 g) as [m g1].
  cbn [fst] in H.
  rewrite total_params_apply_init_weights, total_params_eval, H. lia.
Qed.

(** ** Untrained normalisations, zero biases *)

Lemma nth_repeat_lt {A} (a d : A) n j : j < n -> nth j (repeat a n) d = a.
Proof.
  revert j. induction n as [|n IH]; intros j Hj; [lia|].
  destruct j; [reflexivity|]. cbn. apply IH. lia.
Qed.

Lemma untrained_channel c j :
  j < c ->
  nth j (BatchNorm1d.channels (BatchNorm1d.eval (BatchNorm1d.__init__ c)) c [])
      (BatchNorm1d.mkChannel 0 0 0 0)
  = BatchNorm1d.mkChannel 0 1 1 0.
Proof.
  intros Hj. unfold BatchNorm1d.channels.
  rewrite (nth_map_lt _ (seq 0 c) j 0) by now rewrite length_seq.
  rewrite seq_nth by exact Hj.
  cbn [BatchNorm1d.eval BatchNorm1d.__init__ BatchNorm1d.training
       BatchNorm1d.running_mean BatchNorm1d.running_var BatchNorm1d.weight
       BatchNorm1d.bias zeros ones data Nat.add].
  rewrite numel_1. now rewrite !nth_repeat_lt by exact Hj.
Qed.

Lemma untrained_point c row :
  length row = c ->
  Layer_point (BatchNormLayer (BatchNorm1d.eval (BatchNorm1d.__init__ c))) row
  = map (fun v => (v / sqrt (1 + 1 / 100000))%R) row.
Proof.
  intros Hrow. cbn [Layer_point]. rewrite Hrow.
  rewrite (zip_with_seq _ _ row c (BatchNorm1d.mkChannel 0 0 0 0) 0%R)
    by (try apply channels_length; exact Hrow).
  rewrite (map_as_seq (fun v => (v / sqrt (1 + 1 / 100000))%R) row 0%R), Hrow.
  apply map_ext_in. intros j Hj. apply in_seq in Hj.
  rewrite untrained_channel by lia.
  unfold BatchNorm1d.normalize.
  cbn [BatchNorm1d.mu BatchNorm1d.var BatchNorm1d.gamma BatchNorm1d.beta
       BatchNorm1d.eps BatchNorm1d.eval BatchNorm1d.__init__].
  unfold Rdiv. ring.
Qed.

Lemma rescale_as_scale (l : list R) :
  map (fun v => (v / sqrt (1 + 1 / 100000))%R) l
  = map (Rmult (/ sqrt (1 + 1 / 100000))) l.
Proof. apply map_ext. intros v. unfold Rdiv. ring. Qed.

Lemma untrained_forward_rows c x n :
  shape x = [n; c] -> wf_tensor x ->
  BatchNorm1d.forward (BatchNorm1d.eval (BatchNorm1d.__init__ c)) x
  = Ok (scale (/ sqrt (1 + 1 / 100000)) x).
Proof.
  intros Hx Hwf. unfold wf_tensor in Hwf. rewrite Hx, numel_2 in Hwf.
  assert (Hrows : Forall (fun r => length r = c) (chunks c n (data x)))
    by (apply chunks_Forall_length; lia).
  assert (Hcat : concat (chunks c n (data x)) = data x)
    by (apply concat_chunks; lia).
  rewrite (BatchNorm1d_forward_layout _ x
             (mkTensor [n; c] (concat (chunks c n (data x)))))
    by (cbn [shape data]; congruence).
  rewrite (BatchNorm1d_forward_rows _ c n _ (BatchNorm1d_init_wf c)
             (chunks_length c n (data x)) Hrows).
  unfold scale. rewrite Hx. do 2 f_equal.
  rewrite (map_ext_Forall _ (map (fun v => (v / sqrt (1 + 1 / 100000))%R))).
  - now rewrite <- concat_map, Hcat, rescale_as_scale.
  - eapply Forall_impl; [|exact Hrows]. intros r Hr. now apply untrained_point.
Qed.

Lemma untrained_lines c lines :
  length lines = c ->
  zip_with (fun ch line => map (BatchNorm1d.normalize (1 / 100000) ch) line)
    (BatchNorm1d.channels (BatchNorm1d.eval (BatchNorm1d.__init__ c)) c []) lines
  = map (map (fun v => (v / sqrt (1 + 1 / 100000))%R)) lines.
Proof.
  intros Hl.
  rewrite (zip_with_seq _ _ lines c (BatchNorm1d.mkChannel 0 0 0 0) [])
    by (try apply channels_length; exact Hl).
  rewrite (map_as_seq (map (fun v => (v / sqrt (1 + 1 / 100000))%R)) lines []), Hl.
  apply map_ext_in. intros j Hj. apply in_seq in Hj.
  rewrite untrained_channel by lia. apply map_ext. intros v.
  unfold BatchNorm1d.normalize.
  cbn [BatchNorm1d.mu BatchNorm1d.var BatchNorm1d.gamma BatchNorm1d.beta].
  unfold Rdiv. ring.
Qed.

Lemma untrained_forward_lines c x b l :
  shape x = [b; c; l] -> wf_tensor x ->
  BatchNorm1d.forward (BatchNorm1d.eval (BatchNorm1d.__init__ c)) x
  = Ok (scale (/ sqrt (1 + 1 / 100000)) x).
Proof.
  intros Hx Hwf. unfold wf_tensor in Hwf. rewrite Hx, numel_3 in Hwf.
  unfold BatchNorm1d.forward. rewrite Hx.
  rewrite (has_channels_wf _ c (BatchNorm1d_init_wf c)).
  change (BatchNorm1d.training (BatchNorm1d.eval (BatchNorm1d.__init__ c)))
    with false.
  cbn [andb negb].
  rewrite (channels_eval (BatchNorm1d.eval (BatchNorm1d.__init__ c)) c _ eq_refl).
  unfold scale. rewrite Hx. do 2 f_equal.
  change (BatchNorm1d.eps _) with (1 / 100000)%R. rewrite map_map.
  assert (Hblocks : Forall (fun blk => length blk = c * l) (chunks (c * l) b (data x)))
    by (apply chunks_Forall_length; lia).
  rewrite (map_ext_Forall _ (map (fun v => (v / sqrt (1 + 1 / 100000))%R))).
  - rewrite <- concat_map, concat_chunks by lia. apply rescale_as_scale.
  - eapply Forall_impl; [|exact Hblocks]. intros blk Hblk. cbn beta in Hblk.
    rewrite (untrained_lines c _ (chunks_length l c blk)).
    rewrite <- concat_map. f_equal. apply concat_chunks. lia.
Qed.

(** X13.  Nothing is trained or loaded into the two demonstration
    models, so each of their normalisation layers still holds mean 0,
    variance 1, scale 1 and shift 0: on a well-formed input of its
    channel count, of rank 2 or 3, its forward pass divides every entry
    by sqrt(1 + 1e-5) and does nothing else. *)
Theorem demonstration_normalizations_only_rescale (g : Generator)
  (bn : BatchNorm1d.t) (x : Tensor) :
  In bn (normalizations (SimpleModel (fst (create_model g)))) \/
  In bn (normalizations (ConvModel (fst (model g)))) ->
  wf_tensor x ->
  (exists n, shape x = [n; BatchNorm1d.num_features bn]) \/
  (exists b l, shape x = [b; BatchNorm1d.num_features bn; l]) ->
  BatchNorm1d.forward bn x = Ok (scale (/ sqrt (1 + 1 / 100000)) x).
Proof.
  intros Hin Hwf Hx.
  assert (Hbn : exists c, bn = BatchNorm1d.eval (BatchNorm1d.__init__ c)).
  { destruct Hin as [Hin|Hin].
    - rewrite create_model_normalizations in Hin. apply in_map_iff in Hin.
      destruct Hin as (c & <- & _). now exists c.
    - rewrite model_normalizations in Hin. apply in_map_iff in Hin.
      destruct Hin as (c & <- & _). now exists c. }
  destruct Hbn as (c & ->).
  cbn [BatchNorm1d.num_features BatchNorm1d.eval BatchNorm1d.__init__] in Hx.
  destruct Hx as [(n & Hx)|(b & l & Hx)].
  - now apply (untrained_forward_rows c x n).
  - now apply (untrained_forward_lines c x b l).
Qed.

Lemma demonstration_normalizations_only_rescale_witness :
  BatchNorm1d.forward (BatchNorm1d.eval (BatchNorm1d.__init__ 64)) (zeros [1; 64; 2])
  = Ok (scale (/ sqrt (1 + 1 / 100000)) (zeros [1; 64; 2])).
Proof.
  apply (demonstration_normalizations_only_rescale quarter_generator).
  - right. rewrite model_normalizations. left. reflexivity.
  - apply zeros_has_shape.
  - right. exists 1, 2. reflexivity.
Defined.

Lemma dot_scale t x w : dot (map (Rmult t) x) w = (t * dot x w)%R.
Proof.
  unfold dot, zip_with, sum. revert w.
  induction x as [|a x IH]; intros w; [cbn; ring|].
  destruct w as [|b w]; [cbn; ring|].
  cbn [map combine fold_right fst snd]. rewrite IH. ring.
Qed.

Lemma affine_row_scale W b t x :
  (forall v, In v b -> v = 0%R) ->
  Linear.affine_row W b (map (Rmult t) x) = map (Rmult t) (Linear.affine_row W b x).
Proof.
  intros Hb. unfold Linear.affine_row, zip_with. rewrite map_map.
  apply map_ext_in. intros [w bo] Hin. cbn [fst snd].
  apply in_combine_r in Hin. rewrite (Hb bo Hin), dot_scale. ring.
Qed.

Lemma zero_filled_entries t v : zero_filled t -> In v (data t) -> v = 0%R.
Proof. unfold zero_filled. intros -> Hin. now apply repeat_spec in Hin. Qed.

Lemma relu_scale t x :
  (0 <= t)%R -> map (Rmax 0) (map (Rmult t) x) = map (Rmult t) (map (Rmax 0) x).
Proof.
  intros Ht. rewrite !map_map. apply map_ext. intros v.
  rewrite <- (RmaxRmult 0 v t Ht). now rewrite Rmult_0_r.
Qed.

Lemma Layer_point_scale m i o t x :
  layer_dims m i o -> shift_free m -> length x = i -> (0 <= t)%R ->
  Layer_point m (map (Rmult t) x) = map (Rmult t) (Layer_point m x).
Proof.
  intros Hdims Hfree Hx Ht. destruct m as [l|bn|]; cbn [shift_free] in Hfree.
  - cbn [Layer_point].
    destruct (shape (Linear.weight l)) as [|o' [|i' [|? ?]]]; try reflexivity.
    apply affine_row_scale. intros v. now apply zero_filled_entries.
  - apply layer_dims_batchnorm_inv in Hdims. destruct Hdims as (_ & Hc & _).
    unfold untrained in Hfree. rewrite Hc in Hfree. rewrite Hfree.
    rewrite !untrained_point by (try rewrite length_map; exact Hx).
    rewrite !map_map. apply map_ext. intros v. unfold Rdiv. ring.
  - cbn [Layer_point]. now apply relu_scale.
Qed.

Lemma layers_point_scale layers i o t x :
  chained i layers o -> Forall shift_free layers -> length x = i -> (0 <= t)%R ->
  layers_point layers (map (Rmult t) x) = map (Rmult t) (layers_point layers x).
Proof.
  intros Hch. revert x. induction Hch as [i|m rest i j o Hm Hrest IH];
    intros x Hfree Hx Ht; [reflexivity|].
  apply Forall_cons_iff in Hfree. destruct Hfree as (Hm' & Hfree).
  unfold layers_point. cbn [fold_left]. fold (layers_point rest).
  rewrite (Layer_point_scale m i j t x Hm Hm' Hx Ht).
  apply IH; [exact Hfree| |exact Ht].
  now apply (Layer_point_length m i j x).
Qed.

Lemma nth_scale t r j : nth j (map (Rmult t) r) 0%R = (t * nth j r 0)%R.
Proof.
  rewrite <- (Rmult_0_r t) at 1. apply (map_nth (Rmult t)).
Qed.

Lemma fold_left_Rmax_scale t l a :
  (0 <= t)%R ->
  fold_left Rmax (map (Rmult t) l) (t * a)%R = (t * fold_left Rmax l a)%R.
Proof.
  intros Ht. revert a. induction l as [|v l IH]; intros a; [reflexivity|].
  cbn [map fold_left]. rewrite (RmaxRmult a v t Ht). apply IH.
Qed.

Lemma list_max_scale t l :
  (0 <= t)%R -> list_max (map (Rmult t) l) = (t * list_max l)%R.
Proof.
  intros Ht. destruct l as [|a l]; [cbn; ring|].
  cbn [map list_max]. now apply fold_left_Rmax_scale.
Qed.

Lemma pool_scale f t rows :
  (0 <= t)%R ->
  pool f (map (map (Rmult t)) rows) = map (Rmult t) (pool f rows).
Proof.
  intros Ht. unfold pool. rewrite map_map. apply map_ext. intros j.
  rewrite <- (list_max_scale t _ Ht). f_equal.
  unfold column. rewrite !map_map. apply map_ext. intros r. apply nth_scale.
Qed.

Lemma clouds_scale t x b n d :
  shape x = [b; n; d] ->
  clouds (scale t x) = map (map (map (Rmult t))) (clouds x).
Proof.
  intros Hx. unfold clouds, scale. cbn [shape data]. rewrite Hx.
  rewrite chunks_map, !map_map. apply map_ext. intros block. apply chunks_map.
Qed.

Lemma model_chains model f :
  valid_model model f ->
  (forall p, length p = 3 -> length (point_feature model p) = f) /\
  exists enc dec,
    point_feature model = layers_point enc /\
    decode_descriptor model = layers_point dec /\
    chained 3 enc f /\ chained f dec (output_count model * 3) /\
    (shift_free_model model -> Forall shift_free enc /\ Forall shift_free dec).
Proof.
  intros Hvalid. destruct model as [m|m]; cbn [valid_model] in Hvalid.
  - destruct Hvalid as ((_ & _ & He & Hd & _) & <-). split.
    + intros p Hp. now apply (layers_point_length _ 3 _ p He).
    + exists (SimplePCN.encoder m), (SimplePCN.decoder m).
      repeat (split; [first [reflexivity|assumption]|]). auto.
  - pose proof (encoder_layers_chained m f Hvalid) as He.
    destruct Hvalid as (_ & Hd & _). split.
    + intros p Hp. now apply (layers_point_length _ 3 _ p He).
    + exists (encoder_layers (PointCloudCompletionNet.encoder m)),
        (decoder_layers (PointCloudCompletionNet.decoder m)).
      repeat (split; [first [reflexivity|assumption]|]). auto.
Qed.

Lemma completed_data_scale model f t cs b n :
  valid_model model f -> shift_free_model model ->
  cloud_batch b n 3 cs -> (0 <= t)%R ->
  completed_data model f (map (map (map (Rmult t))) cs)
  = map (Rmult t) (completed_data model f cs).
Proof.
  intros Hvalid Hfree (_ & _ & H3) Ht.
  destruct (model_chains model f Hvalid)
    as (_ & enc & dec & Hpf & Hdd & He & Hd & Hsf).
  destruct (Hsf Hfree) as (Hfe & Hfd).
  unfold completed_data. rewrite Hpf, Hdd, map_map, concat_map, map_map.
  f_equal. apply map_ext_in. intros c Hc.
  rewrite Forall_forall in H3. specialize (H3 c Hc). rewrite Forall_forall in H3.
  rewrite map_map.
  rewrite (map_ext_in _ (fun p => map (Rmult t) (layers_point enc p))).
  2:{ intros p Hp. apply (layers_point_scale enc 3 f t p He Hfe (H3 p Hp) Ht). }
  rewrite <- (map_map (layers_point enc) (map (Rmult t))), (pool_scale f t _ Ht).
  apply (layers_point_scale dec f _ t _ Hd Hfd (pool_length f _) Ht).
Qed.

Lemma complete_scale model f t x b n :
  valid_model model f -> shift_free_model model ->
  shape x = [b; n; 3] -> wf_tensor x -> 0 < n -> (0 <= t)%R ->
  complete model (scale t x)
  = Ok (scale t (mkTensor [b; output_count model; 3]
                   (completed_data model f (clouds x)))).
Proof.
  intros Hvalid Hfree Hx Hwf Hn Ht.
  destruct (batch_of_tensor x b n 3 Hx Hwf) as (Hcs & _).
  assert (Hwf' : wf_tensor (scale t x)).
  { unfold wf_tensor, scale in *. cbn [shape data]. now rewrite length_map. }
  rewrite (complete_tensor model f Hvalid (scale t x) b n Hx Hwf' Hn
             (contiguous_accepted model (scale t x) b n 3 Hx Hn eq_refl)).
  rewrite (clouds_scale t x b n 3 Hx).
  rewrite (completed_data_scale model f t (clouds x) b n Hvalid Hfree Hcs Ht).
  reflexivity.
Qed.

Lemma scale_zero z s :
  shape z = s -> length (data z) = numel s -> scale 0 z = zeros s.
Proof.
  intros Hs Hl. unfold scale, zeros. rewrite Hs, <- Hl. f_equal.
  clear Hl. induction (data z) as [|v l IH]; [reflexivity|].
  cbn [map length repeat]. rewrite IH. f_equal. ring.
Qed.

Lemma complete_zeros model f b n :
  valid_model model f -> shift_free_model model -> 0 < n ->
  complete model (zeros [b; n; 3]) = Ok (zeros [b; output_count model; 3]).
Proof.
  intros Hvalid Hfree Hn.
  destruct (zeros_has_shape [b; n; 3]) as (Hx & Hwf).
  assert (Hwf' : wf_tensor (zeros [b; n; 3])) by (unfold wf_tensor; now rewrite Hx).
  pose proof (complete_scale model f 0 _ b n Hvalid Hfree Hx Hwf' Hn (Rle_refl 0)) as H.
  rewrite (scale_zero (zeros [b; n; 3]) [b; n; 3] Hx Hwf) in H.
  rewrite H. f_equal. apply scale_zero; [reflexivity|].
  cbn [data]. rewrite (completed_data_length model f Hvalid _ b n Hx Hwf').
  now rewrite numel_3.
Qed.

Lemma xavier_zero_bias u wb : xavier_zero u wb -> zero_filled (snd wb).
Proof. now intros (_ & H). Qed.

Lemma untrained_init c : untrained (BatchNorm1d.eval (BatchNorm1d.__init__ c)).
Proof. reflexivity. Qed.

Lemma shift_free_of_parameters m u widths :
  Forall (xavier_zero u) (affine_parameters (ConvModel m)) ->
  normalizations (ConvModel m)
  = map (fun c => BatchNorm1d.eval (BatchNorm1d.__init__ c)) widths ->
  shift_free_model (ConvModel m).
Proof.
  intros Hp Hn.
  assert (Hbn : Forall untrained (normalizations (ConvModel m))).
  { rewrite Hn. apply Forall_map, Forall_forall. intros c _. apply untrained_init. }
  clear Hn. cbn [affine_parameters] in Hp. cbn [normalizations] in Hbn.
  apply Forall_cons_iff in Hp. destruct Hp as (P1 & Hp).
  apply Forall_cons_iff in Hp. destruct Hp as (P2 & Hp).
  apply Forall_cons_iff in Hp. destruct Hp as (P3 & Hp).
  apply Forall_cons_iff in Hp. destruct Hp as (P4 & Hp).
  apply Forall_cons_iff in Hp. destruct Hp as (P5 & Hp).
  apply Forall_cons_iff in Hp. destruct Hp as (P6 & _).
  apply xavier_zero_bias in P1, P2, P3, P4, P5, P6. cbn [snd] in *.
  apply Forall_cons_iff in Hbn. destruct Hbn as (N1 & Hbn).
  apply Forall_cons_iff in Hbn. destruct Hbn as (N2 & Hbn).
  apply Forall_cons_iff in Hbn. destruct Hbn as (N3 & Hbn).
  apply Forall_cons_iff in Hbn. destruct Hbn as (N4 & Hbn).
  apply Forall_cons_iff in Hbn. destruct Hbn as (N5 & _).
  cbn [shift_free_model]. unfold encoder_layers, decoder_layers,
    PointEncoder_layers, PointDecoder_layers, block_layers.
  cbn [map concat app fst snd].
  split; repeat (apply Forall_cons; [cbn [shift_free conv_as_linear Linear.bias]|]);
    try apply Forall_nil; try exact I; assumption.
Qed.

Lemma model_shift_free g : shift_free_model (ConvModel (fst (model g))).
Proof.
  exact (shift_free_of_parameters _ _ _ (model_parameters g) (model_normalizations g)).
Qed.

(** X14.  The model of [create_pcn_model.py] has zero biases (from
    [init_weights]) and untrained normalisations, so over the reals it
    is positively homogeneous: scaling the input cloud by t >= 0 scales
    the completed cloud by t.  In particular an all-zero cloud is
    completed to an all-zero cloud. *)
Theorem demonstration_model_is_homogeneous (g : Generator) (x : Tensor)
  (b n : nat) (t : R) :
  shape x = [b; n; 3] -> wf_tensor x -> 0 < n -> (0 <= t)%R ->
  exists y,
    complete (ConvModel (fst (model g))) x = Ok y /\
    complete (ConvModel (fst (model g))) (scale t x) = Ok (scale t y) /\
    complete (ConvModel (fst (model g))) (zeros [b; n; 3])
    = Ok (zeros [b; 2048; 3]).
Proof.
  intros Hx Hwf Hn Ht.
  pose proof (complete_tensor _ 1024 (model_valid g) x b n Hx Hwf Hn I) as Hy.
  pose proof (complete_scale _ 1024 t x b n (model_valid g) (model_shift_free g)
                Hx Hwf Hn Ht) as Hs.
  pose proof (complete_zeros _ 1024 b n (model_valid g) (model_shift_free g) Hn) as Hz.
  rewrite model_output_count in Hz.
  eexists. split; [exact Hy|]. split; [exact Hs|exact Hz].
Qed.

Lemma demonstration_model_is_homogeneous_witness :
  exists y,
    complete demo_conv two_points = Ok y /\
    complete demo_conv (scale 2 two_points) = Ok (scale 2 y) /\
    complete demo_conv (zeros [1; 2; 3]) = Ok (zeros [1; 2048; 3]).
Proof.
  apply (demonstration_model_is_homogeneous quarter_generator two_points 1 2 2).
  - reflexivity.
  - reflexivity.
  - lia.
  - lra.
Defined.

(** ** The default initialisation *)

Lemma kaiming_bound fan :
  (sqrt 3 * (init.calculate_gain (sqrt 5) / sqrt (INR fan)) = 1 / sqrt (INR fan))%R.
Proof.
  unfold init.calculate_gain. rewrite sqrt_sqrt by lra.
  replace (2 / (1 + 5))%R with (/ 3)%R by lra.
  unfold Rdiv. rewrite <- Rmult_assoc, <- sqrt_mult by lra.
  replace (3 * / 3)%R with 1%R by lra. now rewrite sqrt_1.
Qed.

Lemma fan_in_bound_nonneg fan : (0 <= 1 / sqrt (INR fan))%R.
Proof.
  unfold Rdiv. rewrite Rmult_1_l.
  destruct (Req_dec (sqrt (INR fan)) 0) as [->|Hne].
  - rewrite Rinv_0. lra.
  - left. apply Rinv_0_lt_compat. pose proof (sqrt_pos (INR fan)). lra.
Qed.

Lemma default_init_bound u wb :
  (forall k, (0 <= u k < 1)%R) -> default_init u wb -> within_fan_in_bound wb.
Proof.
  intros Hu (Hw & Hb). unfold within_fan_in_bound. cbv zeta in *.
  rewrite kaiming_bound in Hw. split.
  - apply (uniform_fill_bound u _ _ (fan_in_bound_nonneg _) Hu Hw).
  - apply (uniform_fill_bound u _ _ (fan_in_bound_nonneg _) Hu Hb).
Qed.

(** X15.  [create_model] keeps the default initialisation of
    [nn.Linear]: with draws in the unit interval, every weight and every
    bias of its six affine layers lies within plus or minus
    1 / sqrt(fan_in) of its layer. *)
Theorem create_model_parameters_bounded (g : Generator) :
  (forall k, (0 <= draws g k < 1)%R) ->
  Forall within_fan_in_bound (affine_parameters (SimpleModel (fst (create_model g)))).
Proof.
  intros Hu. eapply Forall_impl; [|apply (create_model_default_parameters g)].
  intros wb. now apply default_init_bound.
Qed.

Lemma create_model_parameters_bounded_witness :
  Forall within_fan_in_bound (affine_parameters demo_simple).
Proof.
  apply (create_model_parameters_bounded quarter_generator).
  intros k. cbn [quarter_generator draws]. lra.
Defined.

(** ** The sample runs of the scripts *)

(** X16.  The sample runs of the two scripts cannot raise: on any
    tensor of shape (1, 1024, 3) (the example input of the trace, the
    sample input of the self-test) both demonstration models return a
    tensor of shape (1, 2048, 3), whatever the generator drew. *)
Theorem scripts_sample_runs_return (g : Generator) (x : Tensor) :
  shape x = [1; 1024; 3] -> wf_tensor x ->
  exists y1 y2,
    complete (SimpleModel (fst (create_model g))) x = Ok y1 /\
    shape y1 = [1; 2048; 3] /\
    complete (ConvModel (fst (model g))) x = Ok y2 /\
    shape y2 = [1; 2048; 3].
Proof.
  intros Hx Hwf.
  assert (Hn : 0 < 1024) by lia.
  pose proof (complete_tensor _ 512 (create_model_valid g) x 1 1024 Hx Hwf Hn
                (single_cloud_viewable x 1024 3 Hx)) as H1.
  pose proof (complete_tensor _ 1024 (model_valid g) x 1 1024 Hx Hwf Hn I) as H2.
  rewrite create_model_output_count in H1. rewrite model_output_count in H2.
  eexists. eexists.
  split; [exact H1|]. split; [reflexivity|]. split; [exact H2|reflexivity].
Qed.

Lemma scripts_sample_runs_return_witness :
  exists y1 y2,
    complete (SimpleModel (fst (create_model quarter_generator))) (zeros [1; 1024; 3])
    = Ok y1 /\
    shape y1 = [1; 2048; 3] /\
    complete (ConvModel (fst (model quarter_generator))) (zeros [1; 1024; 3]) = Ok y2 /\
    shape y2 = [1; 2048; 3].
Proof.
  apply (scripts_sample_runs_return quarter_generator (zeros [1; 1024; 3])).
  - reflexivity.
  - apply zeros_has_shape.
Defined.
